(** * MSMWSL dual-chain vehicular consensus: reputation engine, urgency
    mempool, priority blocks, validator committee and PBFT node handlers.

    A shallow embedding of the Go packages [config], [reputation] and
    [emergency], followed by the theorems that settle the specification's
    claims against them and by further properties of the same code.

    Conventions of the embedding
    - Go's [int] is a 64-bit two's complement integer: a [Z] with the
      wrap-around written out ([GoInt]).
    - Go's [float64] is an interface ([Float64], [Float64Math]) with two
      instances: the real numbers (exact arithmetic, the reading in which the
      specification states its numeric properties "up to floating-point
      tolerance") and IEEE 754 binary64 (Rocq's primitive floats, the reading
      in which NaN and division by zero behave as on the machine). Both keep
      the laws of the comparisons ([Float64Order]); a property that needs
      only these laws is stated for every reading.
    - Go's [map[string]V] is a [gmap string V]; a [range] over a map visits
      the entries in the order of [map_to_list] (Go leaves the order open).
    - [time.Time] is an instant in nanoseconds, [time.Duration] a saturating
      64-bit count of nanoseconds ([GoTime]).
    - Panics (nil dereference, slice bounds) are [None]. *)

From Stdlib Require Import Floats.
From Stdlib Require Import ZArith QArith List String Bool Lia Reals Lra.
From Stdlib Require Import Permutation Sorted.
From stdpp Require Import gmap strings list fin_maps.

Set Default Proof Using "Type".
Local Open Scope Z_scope.

(** ** Go's 64-bit [int] *)

Module GoInt.

Definition min_int : Z := - 2 ^ 63.
Definition max_int : Z := 2 ^ 63 - 1.

(** Reduction of a mathematical integer to the 64-bit signed range. *)
Definition wrap (z : Z) : Z := (z + 2 ^ 63) mod 2 ^ 64 - 2 ^ 63.

Definition add (a b : Z) : Z := wrap (a + b).
Definition sub (a b : Z) : Z := wrap (a - b).
Definition mul (a b : Z) : Z := wrap (a * b).

(** Go's [/] on integers truncates toward zero. *)
Definition quot (a b : Z) : Z := wrap (Z.quot a b).

Definition in_range (z : Z) : Prop := min_int <= z <= max_int.

End GoInt.

(** ** Go's [float64] as an interface *)

(** The arithmetic the programs use: conversion from [int], decimal
    literals, the four operations and negation, the comparisons [<], [<=],
    [==] and [math.Sqrt]. *)
Class Float64 (F : Type) : Type := {
  of_int : Z -> F;
  flit : Q -> F;
  fadd : F -> F -> F;
  fsub : F -> F -> F;
  fmul : F -> F -> F;
  fdiv : F -> F -> F;
  fneg : F -> F;
  flt : F -> F -> bool;
  fle : F -> F -> bool;
  feq : F -> F -> bool;
  fsqrt : F -> F
}.

(** [math.Exp] and [math.Pow]. *)
Class Float64Math (F : Type) : Type := {
  fexp : F -> F;
  fpow : F -> F -> F
}.

Declare Scope F_scope.
Delimit Scope F_scope with f64.
Notation "x + y" := (fadd x y) : F_scope.
Notation "x - y" := (fsub x y) : F_scope.
Notation "x * y" := (fmul x y) : F_scope.
Notation "x / y" := (fdiv x y) : F_scope.
Notation "- x" := (fneg x) : F_scope.
Notation "x <? y" := (flt x y) : F_scope.
Notation "x >? y" := (flt y x) : F_scope.
Notation "x <=? y" := (fle x y) : F_scope.
Notation "x =? y" := (feq x y) : F_scope.
Notation "x !=? y" := (negb (feq x y)) (at level 70) : F_scope.

(** [math.IsNaN(f)]: [f != f]. *)
Definition isNaN {F : Type} {Fops : Float64 F} (x : F) : bool := (x !=? x)%f64.

(** The laws of the comparisons: [<] is asymmetric; its complement is
    transitive through a number that is not NaN; and on numbers that are not
    NaN, [<=] is the complement of [>] and [==] holds between the numbers
    that [<] does not separate. A comparison with NaN is false. *)
Class Float64Order (F : Type) {Fops : Float64 F} : Prop := {
  flt_asym : forall x y : F, (x <? y)%f64 = true -> (y <? x)%f64 = false;
  flt_negtrans :
    forall x y z : F,
      isNaN y = false -> (x <? y)%f64 = false -> (y <? z)%f64 = false -> (x <? z)%f64 = false;
  fle_flt :
    forall x y : F, isNaN x = false -> isNaN y = false -> (y <=? x)%f64 = negb (x <? y)%f64;
  feq_flt :
    forall x y : F,
      (x =? y)%f64 = negb (isNaN x) && negb (isNaN y) && negb (x <? y)%f64 && negb (y <? x)%f64
}.

(** *** The real numbers *)

Definition R_ltb (x y : R) : bool := if Rlt_dec x y then true else false.
Definition R_leb (x y : R) : bool := if Rle_dec x y then true else false.
Definition R_eqb (x y : R) : bool := if Req_dec_T x y then true else false.

#[global] Instance R_float64 : Float64 R := {
  of_int := IZR;
  flit := Q2R;
  fadd := Rplus;
  fsub := Rminus;
  fmul := Rmult;
  fdiv := Rdiv;
  fneg := Ropp;
  flt := R_ltb;
  fle := R_leb;
  feq := R_eqb;
  fsqrt := R_sqrt.sqrt
}.

(** [math.Pow(x, y)] is only called with [x > 0] in these packages, where it
    is [Rpower]. *)
#[global] Instance R_float64_math : Float64Math R := {
  fexp := Rtrigo_def.exp;
  fpow := Rpower
}.

(** *** IEEE 754 binary64 *)

(** [float64(n)] for an [int] [n]: round to nearest, ties to even. *)
Definition binary64_of_int (z : Z) : float :=
  if z =? GoInt.min_int then (-9223372036854775808)%float
  else if z <? 0 then PrimFloat.opp (PrimFloat.of_uint63 (Uint63.of_Z (- z)))
  else PrimFloat.of_uint63 (Uint63.of_Z z).

(** A decimal literal: numerator and denominator are exact in binary64 for
    every literal of the packages, so the division rounds once. *)
Definition binary64_lit (q : Q) : float :=
  PrimFloat.div (binary64_of_int (Qnum q)) (binary64_of_int (Zpos (Qden q))).

#[global] Instance binary64 : Float64 float := {
  of_int := binary64_of_int;
  flit := binary64_lit;
  fadd := PrimFloat.add;
  fsub := PrimFloat.sub;
  fmul := PrimFloat.mul;
  fdiv := PrimFloat.div;
  fneg := PrimFloat.opp;
  flt := PrimFloat.ltb;
  fle := PrimFloat.leb;
  feq := PrimFloat.eqb;
  fsqrt := PrimFloat.sqrt
}.

(** The math library is not part of the packages: on binary64 it is whatever
    pair of functions the platform links. *)
Definition binary64_math (go_exp : float -> float) (go_pow : float -> float -> float)
  : Float64Math float :=
  {| fexp := go_exp; fpow := go_pow |}.

(** ** Package [time] *)

Module GoTime.

(** An instant, in nanoseconds. *)
Definition Time : Type := Z.
(** [time.Duration]: an [int64] count of nanoseconds. *)
Definition Duration : Type := Z.

Definition minDuration : Duration := GoInt.min_int.
Definition maxDuration : Duration := GoInt.max_int.
Definition Second : Duration := 1000000000.

(** [t.Sub(u)]: the difference, saturated to the range of [Duration]. *)
Definition Sub (t u : Time) : Duration :=
  if t - u <? minDuration then minDuration
  else if maxDuration <? t - u then maxDuration
  else t - u.

(** [t.After(u)]. *)
Definition After (t u : Time) : bool := u <? t.

(** [d.Seconds()]. *)
Definition Seconds {F : Type} {Fops : Float64 F} (d : Duration) : F :=
  let sec := Z.quot d Second in
  let nsec := Z.rem d Second in
  (of_int sec + of_int nsec / flit 1000000000)%f64.

End GoTime.

(** ** Package [config] *)

Module config.

Record Config {F : Type} : Type := {
  Rho1 : F;
  Rho2 : F;
  Rho3 : F;
  Eta : F;
  Epsilon : F;
  Tau1 : F;
  Tau2 : F;
  Tau3 : F;
  Mu : F;
  Gamma : F
}.
Arguments Config : clear implicits.

End config.

(** ** Package [reputation] *)

Module reputation.
Import config GoTime.

Section Reputation.
Context {F : Type} {Fops : Float64 F}.
Local Open Scope F_scope.

(** Trajectory point: speed, direction, acceleration. *)
Record Vector : Type := {
  v_Speed : F;
  v_Direction : F;
  v_Acceleration : F
}.

(** [type TransactionType int]. *)
Definition TransactionType : Type := Z.
Definition NormalTransaction : TransactionType := 0%Z.
Definition EmergencyTransaction : TransactionType := 1%Z.

Record Interaction : Type := {
  it_From : string;
  it_To : string;
  it_PosEvents : Z;
  it_NegEvents : Z;
  it_Timestamp : Time;
  it_TrajUser : list Vector;
  it_TrajProvider : list Vector;
  it_TxType : TransactionType;
  it_UrgencyDegree : F
}.

Record SubjectiveOpinion : Type := {
  op_T : F;
  op_D : F;
  op_I : F
}.

Record DirectOpinion : Type := {
  do_Opinion : SubjectiveOpinion;
  do_Weight : F
}.

(** Go's zero values, read from a map at a missing key. *)
Definition zeroOpinion : SubjectiveOpinion :=
  {| op_T := of_int 0; op_D := of_int 0; op_I := of_int 0 |}.
Definition zeroDirect : DirectOpinion :=
  {| do_Opinion := zeroOpinion; do_Weight := of_int 0 |}.

Definition InitialReputation : F := flit 0.5.
Definition NormalTxWeight : F := flit 1.0.
Definition EmergencyTxBaseWeight : F := flit 3.0.
Definition UrgencyImpactFactor : F := flit 0.8.
Definition MaxWeightMultiplier : F := flit 8.0.

Record ReputationManager : Type := {
  rm_cfg : Config F;
  rm_interactions : list Interaction
}.

Definition NewReputationManager (cfg : Config F) : ReputationManager :=
  {| rm_cfg := cfg; rm_interactions := [] |}.

Definition AddInteraction (rm : ReputationManager) (inter : Interaction) : ReputationManager :=
  {| rm_cfg := rm_cfg rm; rm_interactions := rm_interactions rm ++ [inter] |}.

Definition CalculateTransactionWeight (txType : TransactionType) (urgencyDegree : F) : F :=
  if (txType =? NormalTransaction)%Z then NormalTxWeight
  else if (txType =? EmergencyTransaction)%Z then
    let weight := EmergencyTxBaseWeight * (flit 1.0 + UrgencyImpactFactor * urgencyDegree) in
    if weight >? MaxWeightMultiplier then MaxWeightMultiplier else weight
  else NormalTxWeight.

(** One iteration of the loop of [aggregateByPair]. *)
Definition aggregateStep (agg : gmap string (gmap string Interaction)) (inter : Interaction)
  : gmap string (gmap string Interaction) :=
  let agg := match agg !! it_To inter with
             | None => <[it_To inter := ∅]> agg
             | Some _ => agg
             end in
  let row := default ∅ (agg !! it_To inter) in
  match row !! it_From inter with
  | None => <[it_To inter := <[it_From inter := inter]> row]> agg
  | Some exist_ =>
      let pos := GoInt.add (it_PosEvents exist_) (it_PosEvents inter) in
      let neg := GoInt.add (it_NegEvents exist_) (it_NegEvents inter) in
      let later := After (it_Timestamp inter) (it_Timestamp exist_) in
      let exist_ :=
        {| it_From := it_From exist_;
           it_To := it_To exist_;
           it_PosEvents := pos;
           it_NegEvents := neg;
           it_Timestamp := if later then it_Timestamp inter else it_Timestamp exist_;
           it_TrajUser := if later then it_TrajUser inter else it_TrajUser exist_;
           it_TrajProvider := if later then it_TrajProvider inter else it_TrajProvider exist_;
           it_TxType := it_TxType exist_;
           it_UrgencyDegree := it_UrgencyDegree exist_ |} in
      <[it_To inter := <[it_From inter := exist_]> row]> agg
  end.

Definition aggregateByPair (rm : ReputationManager) : gmap string (gmap string Interaction) :=
  foldl aggregateStep ∅ (rm_interactions rm).

Definition cosineSimilarity (a b : list F) : F :=
  let '(num, sa) :=
    foldl (fun '(num, sa) i =>
             let ai := nth i a (of_int 0) in
             (* b[i]: out of range is a panic; the callers pass equal lengths *)
             let bi := nth i b (of_int 0) in
             (num + ai * bi, sa + ai * ai))
          (of_int 0, of_int 0) (seq 0 (length a)) in
  let sb := foldl (fun sb v => sb + v * v) (of_int 0) b in
  if (sa =? of_int 0) || (sb =? of_int 0) then of_int 0
  else num / (fsqrt sa * fsqrt sb).

Definition computeTrajectorySimilarity (cfg : Config F) (user prov : list Vector) : F :=
  let n := Nat.min (length user) (length prov) in
  let user := firstn n user in
  let prov := firstn n prov in
  let sspd := cosineSimilarity (map v_Speed user) (map v_Speed prov) in
  let sdir := cosineSimilarity (map v_Direction user) (map v_Direction prov) in
  let sacc := cosineSimilarity (map v_Acceleration user) (map v_Acceleration prov) in
  Tau1 cfg * sspd + Tau2 cfg * sdir + Tau3 cfg * sacc.

End Reputation.

Arguments Vector : clear implicits.
Arguments Interaction : clear implicits.
Arguments SubjectiveOpinion : clear implicits.
Arguments DirectOpinion : clear implicits.
Arguments ReputationManager : clear implicits.

Section Engine.
Context {F : Type} {Fops : Float64 F} {Fmath : Float64Math F}.
Local Open Scope F_scope.

(** [type directOpinionsMap map[string]map[string]DirectOpinion]. *)
Abbreviation directOpinionsMap := (gmap string (gmap string (DirectOpinion F))).

(** [float64(inter.PosEvents + inter.NegEvents)]. *)
Definition totalEvents (inter : Interaction F) : F :=
  of_int (GoInt.add (it_PosEvents inter) (it_NegEvents inter)).

(** The mean number of events per evaluator of one subject. *)
Definition averageCount (fromMap : gmap string (Interaction F)) : F :=
  let sumCnt := foldl (fun s '(_, inter) => s + totalEvents inter) (of_int 0) (map_to_list fromMap) in
  if (0 <? Z.of_nat (size fromMap))%Z then sumCnt / of_int (Z.of_nat (size fromMap))
  else flit 1.0.

(** The time factor TIM of one interaction. *)
Definition timeFactor (cfg : Config F) (now : Time) (inter : Interaction F) : F :=
  let delta : F := Seconds (Sub now (it_Timestamp inter)) in
  if delta <=? of_int 0 then Eta cfg
  else Eta cfg * fpow delta (- Epsilon cfg).

(** The direct weight [weight] of one interaction. *)
Definition directWeight (cfg : Config F) (now : Time) (avgCnt : F) (inter : Interaction F) : F :=
  let Fi := totalEvents inter / avgCnt in
  let TIM := timeFactor cfg now inter in
  let sim := computeTrajectorySimilarity cfg (it_TrajUser inter) (it_TrajProvider inter) in
  let baseWeight := Rho1 cfg * Fi + Rho2 cfg * TIM + Rho3 cfg * sim in
  let txWeight := CalculateTransactionWeight (it_TxType inter) (it_UrgencyDegree inter) in
  baseWeight * txWeight.

(** The uncertainty [Ii] of one interaction. *)
Definition uncertainty (inter : Interaction F) : F :=
  flit 2.0 / (flit 2.0 + totalEvents inter).

(** First inner loop of [computeDirectOpinions]: the opinions [tmp] with
    weight and uncertainty, and the sums [errNum], [errDen]. *)
Definition weighOpinions (cfg : Config F) (now : Time) (fromMap : gmap string (Interaction F))
  : gmap string (DirectOpinion F) * F * F :=
  let avgCnt := averageCount fromMap in
  foldl (fun '(tmp, errNum, errDen) '(from, inter) =>
           let weight := directWeight cfg now avgCnt inter in
           let Ii := uncertainty inter in
           let d := {| do_Opinion := {| op_T := of_int 0; op_D := of_int 0; op_I := Ii |};
                       do_Weight := weight |} in
           (<[from := d]> tmp,
            errNum + weight * of_int (it_NegEvents inter),
            errDen + weight))
        (∅, of_int 0, of_int 0) (map_to_list fromMap).

(** The error factor of one subject. *)
Definition errorFactor (cfg : Config F) (errNum errDen : F) : F :=
  if errDen !=? of_int 0 then Mu cfg / (flit 1 + fexp (errNum / errDen))
  else flit 0.0.

(** Body of the second inner loop: belief and disbelief of one evaluator. *)
Definition fillOpinion (theta : F) (inter : Interaction F) (d : DirectOpinion F) : DirectOpinion F :=
  let alpha := (flit 1 - theta) * of_int (it_PosEvents inter) in
  let beta := theta * of_int (it_NegEvents inter) in
  let sumEvt := alpha + beta in
  let o := do_Opinion d in
  if sumEvt >? of_int 0 then
    {| do_Opinion := {| op_T := (flit 1 - op_I o) * alpha / sumEvt;
                        op_D := (flit 1 - op_I o) * beta / sumEvt;
                        op_I := op_I o |};
       do_Weight := do_Weight d |}
  else d.

(** The direct opinions about one subject: the body of the outer loop. *)
Definition directOpinionsOf (cfg : Config F) (now : Time) (fromMap : gmap string (Interaction F))
  : gmap string (DirectOpinion F) :=
  let '(tmp, errNum, errDen) := weighOpinions cfg now fromMap in
  let theta := errorFactor cfg errNum errDen in
  foldl (fun row '(from, inter) =>
           let d := default zeroDirect (tmp !! from) in
           <[from := fillOpinion theta inter d]> row)
        ∅ (map_to_list fromMap).

Definition computeDirectOpinions (cfg : Config F) (agg : gmap string (gmap string (Interaction F)))
  (now : Time) : directOpinionsMap :=
  foldl (fun direct '(to, fromMap) => <[to := directOpinionsOf cfg now fromMap]> direct)
        ∅ (map_to_list agg).

(** *** Indirect opinions *)

(** At most [hopCount] edges on a path. *)
Definition hopCount : nat := 2.

Definition contains (slice : list string) (s : string) : bool :=
  existsb (fun v => String.eqb v s) slice.

(** The closure [dfs] of [computeIndirectOpinions], returning the paths it
    appends to [paths]. A call extends the path by one node, and a path of
    more than [hopCount] edges returns at once, so the recursion is at most
    [hopCount + 2] calls deep: [fuel] counts them. *)
Fixpoint dfs (direct : directOpinionsMap) (target : string) (fuel : nat) (path : list string)
  : list (list string) :=
  match fuel with
  | O => []
  | S fuel =>
      let last := List.last path EmptyString in
      if (hopCount <? length path - 1)%nat then []
      else if String.eqb last target && (1 <? length path)%nat then [path]
      else
        flat_map (fun '(next, _) =>
                    if contains path next then []
                    else dfs direct target fuel (path ++ [next]))
                 (map_to_list (default ∅ (direct !! last)))
  end.

(** The edges [(path[i], path[i+1])] of a path. *)
Definition edges (path : list string) : list (string * string) :=
  combine path (tail path).

(** The discount operator along one path: the discounted opinion and the
    path weight. *)
Definition discountPath (direct : directOpinionsMap) (path : list string) : F * F * F * F :=
  foldl (fun '(T, D, I_, w) '(from, toNode) =>
           let d := default zeroDirect (default ∅ (direct !! toNode) !! from) in
           let Tnew := T * op_T (do_Opinion d) in
           let Dnew := T * op_D (do_Opinion d) in
           let Inew := D + I_ + T * op_I (do_Opinion d) in
           (Tnew, Dnew, Inew, w * do_Weight d))
        (flit 1.0, flit 0.0, flit 0.0, flit 1.0) (edges path).

(** The loop over the paths of one source: the weighted sums, kept in
    [indirect[target][source]], and the sum of the path weights. *)
Definition accumulatePaths (direct : directOpinionsMap) (source : string)
  (row : gmap string (SubjectiveOpinion F)) (paths : list (list string))
  : gmap string (SubjectiveOpinion F) * F :=
  foldl (fun '(row, sumW) path =>
           let '(T, D, I_, w) := discountPath direct path in
           let agg := default zeroOpinion (row !! source) in
           let agg := {| op_T := op_T agg + T * w;
                         op_D := op_D agg + D * w;
                         op_I := op_I agg + I_ * w |} in
           (<[source := agg]> row, sumW + w))
        (row, of_int 0) paths.

(** Body of the loop over the sources of one target. *)
Definition indirectFrom (direct : directOpinionsMap) (target : string)
  (row : gmap string (SubjectiveOpinion F)) (source : string)
  : gmap string (SubjectiveOpinion F) :=
  if String.eqb source target then row
  else
    let paths := dfs direct target (hopCount + 2) [source] in
    let '(row, sumW) := accumulatePaths direct source row paths in
    if sumW >? of_int 0 then
      let v := default zeroOpinion (row !! source) in
      <[source := {| op_T := op_T v / sumW; op_D := op_D v / sumW; op_I := op_I v / sumW |}]> row
    else row.

Definition indirectOpinionsOf (direct : directOpinionsMap) (target : string)
  : gmap string (SubjectiveOpinion F) :=
  foldl (indirectFrom direct target) ∅ (map fst (map_to_list direct)).

Definition computeIndirectOpinions (direct : directOpinionsMap)
  : gmap string (gmap string (SubjectiveOpinion F)) :=
  foldl (fun indirect '(target, _) => <[target := indirectOpinionsOf direct target]> indirect)
        ∅ (map_to_list direct).

(** *** Fusion *)

(** The weighted mean of the direct opinions (zero when the weights do not
    sum to a positive number). *)
Definition directAggregate (dir : gmap string (DirectOpinion F)) : SubjectiveOpinion F :=
  let '(sumW, sumTdir, sumDdir, sumIdir) :=
    foldl (fun '(sumW, sumTdir, sumDdir, sumIdir) '(_, d) =>
             (sumW + do_Weight d,
              sumTdir + op_T (do_Opinion d) * do_Weight d,
              sumDdir + op_D (do_Opinion d) * do_Weight d,
              sumIdir + op_I (do_Opinion d) * do_Weight d))
          (of_int 0, of_int 0, of_int 0, of_int 0) (map_to_list dir) in
  if sumW >? of_int 0 then
    {| op_T := sumTdir / sumW; op_D := sumDdir / sumW; op_I := sumIdir / sumW |}
  else {| op_T := flit 0.0; op_D := flit 0.0; op_I := flit 0.0 |}.

(** The plain mean of the indirect opinions. *)
Definition indirectAggregate (ind : gmap string (SubjectiveOpinion F)) : SubjectiveOpinion F :=
  let '(sumTind, sumDind, sumIind) :=
    foldl (fun '(sumTind, sumDind, sumIind) '(_, opin) =>
             (sumTind + op_T opin, sumDind + op_D opin, sumIind + op_I opin))
          (of_int 0, of_int 0, of_int 0) (map_to_list ind) in
  if (0 <? size ind)%nat then
    let n := of_int (Z.of_nat (size ind)) in
    {| op_T := sumTind / n; op_D := sumDind / n; op_I := sumIind / n |}
  else {| op_T := flit 0.0; op_D := flit 0.0; op_I := flit 0.0 |}.

(** The denominator [k] of the consensus operator. *)
Definition fusionDenominator (dir ind : SubjectiveOpinion F) : F :=
  op_I dir * op_I ind + op_T ind * op_I dir + op_D ind * op_I dir.

Definition fuseOpinions (dir : gmap string (DirectOpinion F))
  (ind : gmap string (SubjectiveOpinion F)) : SubjectiveOpinion F :=
  let d := directAggregate dir in
  if (size ind =? 0)%nat then d
  else
    let i := indirectAggregate ind in
    let k := fusionDenominator d i in
    {| op_T := (op_T d * op_I i + op_T i * op_I d) / k;
       op_D := (op_D d * op_I i + op_D i * op_I d) / k;
       op_I := (op_I d * op_I i) / k |}.

Definition ComputeReputation (rm : ReputationManager F) (target : string) (now : Time) : F :=
  let agg := aggregateByPair rm in
  match agg !! target with
  | None => InitialReputation
  | Some _ =>
      let direct := computeDirectOpinions (rm_cfg rm) agg now in
      let indirect := computeIndirectOpinions direct in
      let final := fuseOpinions (default ∅ (direct !! target)) (default ∅ (indirect !! target)) in
      op_T final + Gamma (rm_cfg rm) * op_I final
  end.

End Engine.
End reputation.

(** ** Package [emergency] *)

Module emergency.
Import GoTime.

(** *** transaction.go *)

Section Transaction.
Context {F : Type} {Fops : Float64 F}.
Local Open Scope F_scope.

Record EmergencyTransaction : Type := {
  tx_ID : string;
  tx_VehicleID : string;
  tx_Data : list Byte.byte;
  tx_Timestamp : Time;
  tx_ProductTime : Time;
  tx_DeadlineTime : Time;
  tx_ArrivalTime : Time;
  tx_Priority : Z;
  tx_UrgencyDegree : F;
  tx_Theta : Z
}.

Record UrgencyConfig : Type := {
  Omega : F
}.

(** [Tc]: the expected delay [td - ta], in seconds. *)
Definition expectedDelay (tx : EmergencyTransaction) : F :=
  Seconds (Sub (tx_DeadlineTime tx) (tx_ArrivalTime tx)).

(** [TrMinusTu]: the transmission time [ta - tp], in seconds. *)
Definition transmissionTime (tx : EmergencyTransaction) : F :=
  Seconds (Sub (tx_ArrivalTime tx) (tx_ProductTime tx)).

Definition withUrgencyDegree (tx : EmergencyTransaction) (u : F) : EmergencyTransaction :=
  {| tx_ID := tx_ID tx;
     tx_VehicleID := tx_VehicleID tx;
     tx_Data := tx_Data tx;
     tx_Timestamp := tx_Timestamp tx;
     tx_ProductTime := tx_ProductTime tx;
     tx_DeadlineTime := tx_DeadlineTime tx;
     tx_ArrivalTime := tx_ArrivalTime tx;
     tx_Priority := tx_Priority tx;
     tx_UrgencyDegree := u;
     tx_Theta := tx_Theta tx |}.

Definition CalculateUrgencyDegree {Fmath : Float64Math F} (tx : EmergencyTransaction) (cfg : UrgencyConfig)
  : EmergencyTransaction :=
  let Tc := expectedDelay tx in
  let TrMinusTu := transmissionTime tx in
  let E := if TrMinusTu >? of_int 0 then fexp (- Tc / TrMinusTu) else flit 0.1 in
  let theta := of_int (tx_Theta tx) in
  withUrgencyDegree tx (E * fexp (Omega cfg * theta)).

(** [now] is the reading of [time.Now()]. *)
Definition NewEmergencyTransaction {Fmath : Float64Math F} (id vehicleID : string) (data : list Byte.byte)
  (productTime deadlineTime arrivalTime : Time) (theta : Z) (cfg : UrgencyConfig) (now : Time)
  : EmergencyTransaction :=
  let tx := {| tx_ID := id;
               tx_VehicleID := vehicleID;
               tx_Data := data;
               tx_Timestamp := now;
               tx_ProductTime := productTime;
               tx_DeadlineTime := deadlineTime;
               tx_ArrivalTime := arrivalTime;
               tx_Priority := 0;
               tx_UrgencyDegree := of_int 0;
               tx_Theta := theta |} in
  CalculateUrgencyDegree tx cfg.

Record TransactionPool : Type := {
  transactions : list EmergencyTransaction
}.

Definition NewTransactionPool : TransactionPool := {| transactions := [] |}.

Definition AddTransaction (pool : TransactionPool) (tx : EmergencyTransaction) : TransactionPool :=
  {| transactions := transactions pool ++ [tx] |}.

Definition Size (pool : TransactionPool) : Z := Z.of_nat (length (transactions pool)).

Definition RemoveTransactions (pool : TransactionPool) (txs : list EmergencyTransaction)
  : TransactionPool :=
  let toRemove : gmap string bool :=
    foldl (fun toRemove tx => <[tx_ID tx := true]> toRemove) ∅ txs in
  let newTransactions :=
    filter (fun tx => negb (default false (toRemove !! tx_ID tx)) = true) (transactions pool) in
  {| transactions := newTransactions |}.

(** The inner loop of the bubble sort, [j] from [0] to [m - 1]: positions
    [j] and [j + 1] are swapped when the left urgency is smaller. *)
Fixpoint bubblePass (m : nat) (sorted : list EmergencyTransaction) : list EmergencyTransaction :=
  match m, sorted with
  | S m, a :: b :: rest =>
      if tx_UrgencyDegree a <? tx_UrgencyDegree b
      then b :: bubblePass m (a :: rest)
      else a :: bubblePass m (b :: rest)
  | _, _ => sorted
  end.

(** The outer loop, [i] from [0] to [len - 2]. *)
Definition bubbleSort (sorted : list EmergencyTransaction) : list EmergencyTransaction :=
  foldl (fun sorted i => bubblePass (length sorted - i - 1) sorted) sorted
        (seq 0 (length sorted - 1)).

(** The transactions returned and the pool left; [None] is the panic of
    [sorted[:k]] at a negative [k]. *)
Definition GetTopKTransactions (pool : TransactionPool) (k : Z)
  : option (list EmergencyTransaction * TransactionPool) :=
  if (length (transactions pool) =? 0)%nat then Some ([], pool)
  else
    let sorted := bubbleSort (transactions pool) in
    let k := if (k >? Z.of_nat (length sorted))%Z then Z.of_nat (length sorted) else k in
    if (k <? 0)%Z then None
    else
      let result := firstn (Z.to_nat k) sorted in
      Some (result, RemoveTransactions pool result).

End Transaction.

Arguments EmergencyTransaction : clear implicits.
Arguments UrgencyConfig : clear implicits.
Arguments TransactionPool : clear implicits.

(** *** block.go *)

Section Block.
Context {F : Type} {Fops : Float64 F}.
Local Open Scope F_scope.

(** The library functions a block hash goes through:
    [hex.EncodeToString(sha256.Sum256([]byte(s)))], [json.Marshal] of the
    four header fields, and [Format(time.RFC3339Nano)]. *)
Variable sha256_hex : string -> string.
Variable json_Marshal : Z -> string -> string -> string -> string.
Variable format_RFC3339Nano : Time -> string.

Record EmergencyBlock : Type := {
  blk_Index : Z;
  blk_Timestamp : Time;
  blk_PrevHash : string;
  blk_Hash : string;
  blk_MerkleRoot : string;
  blk_Signature : string;
  blk_ValidatorIDs : list string;
  blk_Transactions : list (EmergencyTransaction F);
  blk_TotalUrgency : F
}.

Definition CalculateMerkleRoot (b : EmergencyBlock) : string :=
  if (length (blk_Transactions b) =? 0)%nat then EmptyString
  else
    let txIDs := foldl (fun txIDs tx => String.append txIDs (tx_ID tx)) EmptyString
                       (blk_Transactions b) in
    sha256_hex txIDs.

Definition CalculateTotalUrgency (b : EmergencyBlock) : F :=
  foldl (fun total tx => total + tx_UrgencyDegree tx) (of_int 0) (blk_Transactions b).

Definition CalculateHash (b : EmergencyBlock) : string :=
  let jsonData := json_Marshal (blk_Index b) (format_RFC3339Nano (blk_Timestamp b))
                               (blk_PrevHash b) (blk_MerkleRoot b) in
  sha256_hex jsonData.

Definition NewEmergencyBlock (index : Z) (prevHash : string)
  (transactions : list (EmergencyTransaction F)) (validatorIDs : list string) (now : Time)
  : EmergencyBlock :=
  let block := {| blk_Index := index;
                  blk_Timestamp := now;
                  blk_PrevHash := prevHash;
                  blk_Hash := EmptyString;
                  blk_MerkleRoot := EmptyString;
                  blk_Signature := EmptyString;
                  blk_ValidatorIDs := validatorIDs;
                  blk_Transactions := transactions;
                  blk_TotalUrgency := of_int 0 |} in
  let block := {| blk_Index := blk_Index block;
                  blk_Timestamp := blk_Timestamp block;
                  blk_PrevHash := blk_PrevHash block;
                  blk_Hash := blk_Hash block;
                  blk_MerkleRoot := CalculateMerkleRoot block;
                  blk_Signature := blk_Signature block;
                  blk_ValidatorIDs := blk_ValidatorIDs block;
                  blk_Transactions := blk_Transactions block;
                  blk_TotalUrgency := blk_TotalUrgency block |} in
  let block := {| blk_Index := blk_Index block;
                  blk_Timestamp := blk_Timestamp block;
                  blk_PrevHash := blk_PrevHash block;
                  blk_Hash := blk_Hash block;
                  blk_MerkleRoot := blk_MerkleRoot block;
                  blk_Signature := blk_Signature block;
                  blk_ValidatorIDs := blk_ValidatorIDs block;
                  blk_Transactions := blk_Transactions block;
                  blk_TotalUrgency := CalculateTotalUrgency block |} in
  {| blk_Index := blk_Index block;
     blk_Timestamp := blk_Timestamp block;
     blk_PrevHash := blk_PrevHash block;
     blk_Hash := CalculateHash block;
     blk_MerkleRoot := blk_MerkleRoot block;
     blk_Signature := blk_Signature block;
     blk_ValidatorIDs := blk_ValidatorIDs block;
     blk_Transactions := blk_Transactions block;
     blk_TotalUrgency := blk_TotalUrgency block |}.

Record EmergencyBlockchain : Type := {
  ebc_Chain : list EmergencyBlock;
  ebc_TxPool : TransactionPool F;
  ebc_UrgencyCfg : UrgencyConfig F;
  ebc_BlockSize : Z;
  ebc_BlockPeriod : Duration
}.

Definition genesisBlock (now : Time) : EmergencyBlock :=
  {| blk_Index := 0;
     blk_Timestamp := now;
     blk_PrevHash := "0";
     blk_Hash := "genesis";
     blk_MerkleRoot := EmptyString;
     blk_Signature := EmptyString;
     blk_ValidatorIDs := [];
     blk_Transactions := [];
     blk_TotalUrgency := of_int 0 |}.

Definition NewEmergencyBlockchain (urgencyCfg : UrgencyConfig F) (blockSize : Z)
  (blockPeriod : Duration) (now : Time) : EmergencyBlockchain :=
  {| ebc_Chain := [genesisBlock now];
     ebc_TxPool := NewTransactionPool;
     ebc_UrgencyCfg := urgencyCfg;
     ebc_BlockSize := blockSize;
     ebc_BlockPeriod := blockPeriod |}.

Definition withChain (ebc : EmergencyBlockchain) (chain : list EmergencyBlock) : EmergencyBlockchain :=
  {| ebc_Chain := chain;
     ebc_TxPool := ebc_TxPool ebc;
     ebc_UrgencyCfg := ebc_UrgencyCfg ebc;
     ebc_BlockSize := ebc_BlockSize ebc;
     ebc_BlockPeriod := ebc_BlockPeriod ebc |}.

Definition withTxPool (ebc : EmergencyBlockchain) (pool : TransactionPool F) : EmergencyBlockchain :=
  {| ebc_Chain := ebc_Chain ebc;
     ebc_TxPool := pool;
     ebc_UrgencyCfg := ebc_UrgencyCfg ebc;
     ebc_BlockSize := ebc_BlockSize ebc;
     ebc_BlockPeriod := ebc_BlockPeriod ebc |}.

Definition AddTransactionToChain (ebc : EmergencyBlockchain) (tx : EmergencyTransaction F)
  : EmergencyBlockchain :=
  withTxPool ebc (AddTransaction (ebc_TxPool ebc) tx).

(** [nil] for an empty chain. *)
Definition GetLatestBlock (ebc : EmergencyBlockchain) : option EmergencyBlock :=
  List.last (map Some (ebc_Chain ebc)) None.

Definition AddBlock (ebc : EmergencyBlockchain) (block : EmergencyBlock) : EmergencyBlockchain :=
  withChain ebc (ebc_Chain ebc ++ [block]).

Definition GetChainLength (ebc : EmergencyBlockchain) : Z := Z.of_nat (length (ebc_Chain ebc)).

(** [None]: the nil dereference of [latestBlock] on an empty chain. *)
Definition VerifyBlock (ebc : EmergencyBlockchain) (block : EmergencyBlock) : option bool :=
  match GetLatestBlock ebc with
  | None => None
  | Some latestBlock =>
      if negb (blk_Index block =? GoInt.add (blk_Index latestBlock) 1)%Z then Some false
      else if negb (String.eqb (blk_PrevHash block) (blk_Hash latestBlock)) then Some false
      else
        let expectedMerkleRoot := CalculateMerkleRoot block in
        if negb (String.eqb (blk_MerkleRoot block) expectedMerkleRoot) then Some false
        else
          let expectedHash := CalculateHash block in
          if negb (String.eqb (blk_Hash block) expectedHash) then Some false
          else
            let expectedTotalUrgency := CalculateTotalUrgency block in
            if blk_TotalUrgency block !=? expectedTotalUrgency then Some false
            else Some true
  end.

End Block.

Arguments EmergencyBlock : clear implicits.
Arguments EmergencyBlockchain : clear implicits.

(** *** validator.go *)

(** [sort.Slice] for a slice of at most twelve elements, as the Go library
    implements it ([insertionSortLessFunc]): element [i] moves left while it
    is [less] than its left neighbour. [sink less x rp] inserts [x] below the
    prefix [rp], held in reverse. Longer slices go through another algorithm
    of the library, and the library promises no order among elements that
    [less] does not separate. *)
Fixpoint sink {A : Type} (less : A -> A -> bool) (x : A) (rp : list A) : list A :=
  match rp with
  | [] => [x]
  | y :: rp' => if less x y then y :: sink less x rp' else x :: rp
  end.

Definition insertionSortLessFunc {A : Type} (less : A -> A -> bool) (data : list A) : list A :=
  rev (foldl (fun rp x => sink less x rp) [] data).

Section Validator.
Context {F : Type} {Fops : Float64 F} {Fmath : Float64Math F}.
Local Open Scope F_scope.

(** The sorting routine behind [sort.Slice]. *)
Variable sort_Slice : forall A : Type, (A -> A -> bool) -> list A -> list A.

Record Validator : Type := {
  val_ID : string;
  val_Reputation : F
}.

Record ValidatorGroup : Type := {
  vg_Validators : list Validator;
  vg_GroupSize : Z;
  vg_ActivePeriod : Z;
  vg_CurrentRound : Z;
  vg_CreatedAt : Time
}.

Definition NewValidatorGroup (groupSize activePeriod : Z) (now : Time) : ValidatorGroup :=
  {| vg_Validators := [];
     vg_GroupSize := groupSize;
     vg_ActivePeriod := activePeriod;
     vg_CurrentRound := 0;
     vg_CreatedAt := now |}.

(** The first loop of [SelectValidators]: the candidates that have a
    reputation manager, each with the reputation its manager computes. *)
Definition nodeReputations (nodeIDs : list string)
  (reputationManagers : gmap string (reputation.ReputationManager F)) (now : Time)
  : list Validator :=
  foldl (fun nodeReputation nodeID =>
           match reputationManagers !! nodeID with
           | Some rm =>
               let repu := reputation.ComputeReputation rm nodeID now in
               nodeReputation ++ [{| val_ID := nodeID; val_Reputation := repu |}]
           | None => nodeReputation
           end)
        [] nodeIDs.

(** The comparison handed to [sort.Slice]: higher reputation first. *)
Definition byReputation (a b : Validator) : bool :=
  val_Reputation a >? val_Reputation b.

(** [None]: the panic of [nodeReputation[:vg.GroupSize]] at a negative
    group size. *)
Definition SelectValidators (vg : ValidatorGroup) (nodeIDs : list string)
  (reputationManagers : gmap string (reputation.ReputationManager F)) (now : Time)
  : option ValidatorGroup :=
  let nodeReputation := nodeReputations nodeIDs reputationManagers now in
  let nodeReputation := sort_Slice Validator byReputation nodeReputation in
  let selected :=
    if (Z.of_nat (length nodeReputation) <? vg_GroupSize vg)%Z then Some nodeReputation
    else if (vg_GroupSize vg <? 0)%Z then None
    else Some (firstn (Z.to_nat (vg_GroupSize vg)) nodeReputation) in
  match selected with
  | None => None
  | Some validators =>
      Some {| vg_Validators := validators;
              vg_GroupSize := vg_GroupSize vg;
              vg_ActivePeriod := vg_ActivePeriod vg;
              vg_CurrentRound := 0;
              vg_CreatedAt := now |}
  end.

Definition IsActive (vg : ValidatorGroup) : bool :=
  (vg_CurrentRound vg <? vg_ActivePeriod vg)%Z.

Definition IncrementRound (vg : ValidatorGroup) : ValidatorGroup :=
  {| vg_Validators := vg_Validators vg;
     vg_GroupSize := vg_GroupSize vg;
     vg_ActivePeriod := vg_ActivePeriod vg;
     vg_CurrentRound := GoInt.add (vg_CurrentRound vg) 1;
     vg_CreatedAt := vg_CreatedAt vg |}.

Definition NeedRefresh (vg : ValidatorGroup) : bool :=
  negb (IsActive vg) || (length (vg_Validators vg) =? 0)%nat.

Definition GetValidatorIDs (vg : ValidatorGroup) : list string :=
  map val_ID (vg_Validators vg).

Definition IsValidator (vg : ValidatorGroup) (nodeID : string) : bool :=
  existsb (fun v => String.eqb (val_ID v) nodeID) (vg_Validators vg).

Definition GetSize (vg : ValidatorGroup) : Z := Z.of_nat (length (vg_Validators vg)).

(** [nil] for an empty group; otherwise the first validator whose
    reputation no later one exceeds strictly. *)
Definition SelectProposer (vg : ValidatorGroup) : option Validator :=
  match vg_Validators vg with
  | [] => None
  | v0 :: _ =>
      Some (foldl (fun proposer v =>
                     if val_Reputation v >? val_Reputation proposer then v else proposer)
                  v0 (vg_Validators vg))
  end.

(** [nil] when no validator has the identifier; otherwise the first one
    that has it. *)
Definition GetValidator (vg : ValidatorGroup) (nodeID : string) : option Validator :=
  List.find (fun v => String.eqb (val_ID v) nodeID) (vg_Validators vg).

(** The first loop of [PenalizeInactiveValidators]: the validators whose
    identifier is not listed as inactive. *)
Definition activeValidatorsOf (vg : ValidatorGroup) (inactiveValidators : list string)
  : list Validator :=
  List.filter (fun v =>
                 negb (existsb (fun inactive => String.eqb (val_ID v) inactive)
                               inactiveValidators))
              (vg_Validators vg).

Definition PenalizeInactiveValidators (vg : ValidatorGroup) (inactiveValidators : list string)
  (reputationManagers : gmap string (reputation.ReputationManager F))
  (newCandidates : list string) (now : Time) : ValidatorGroup :=
  let activeValidators := activeValidatorsOf vg inactiveValidators in
  let needed := GoInt.sub (vg_GroupSize vg) (Z.of_nat (length activeValidators)) in
  let activeValidators :=
    if (needed >? 0)%Z && (0 <? length newCandidates)%nat then
      let candidateReputation := nodeReputations newCandidates reputationManagers now in
      let candidateReputation := sort_Slice Validator byReputation candidateReputation in
      let needed :=
        if (Z.of_nat (length candidateReputation) <? needed)%Z
        then Z.of_nat (length candidateReputation) else needed in
      activeValidators ++ firstn (Z.to_nat needed) candidateReputation
    else activeValidators in
  {| vg_Validators := activeValidators;
     vg_GroupSize := vg_GroupSize vg;
     vg_ActivePeriod := vg_ActivePeriod vg;
     vg_CurrentRound := vg_CurrentRound vg;
     vg_CreatedAt := vg_CreatedAt vg |}.

End Validator.

Arguments Validator : clear implicits.
Arguments ValidatorGroup : clear implicits.

(** *** The PBFT node *)

Section Node.
Context {F : Type} {Fops : Float64 F}.
Local Open Scope F_scope.

Variable sha256_hex : string -> string.
Variable json_Marshal : Z -> string -> string -> string -> string.
Variable format_RFC3339Nano : Time -> string.

(** [type MessageType int]. *)
Definition MessageType : Type := Z.
Definition PrePrepare : MessageType := 0%Z.
Definition Prepare : MessageType := 1%Z.
Definition Commit : MessageType := 2%Z.

Record ConsensusMessage : Type := {
  msg_Type : MessageType;
  msg_BlockHash : string;
  msg_Block : EmergencyBlock F;
  msg_From : string;
  msg_Timestamp : Time
}.

(** What a broadcast reads of a peer: its identifier and validator flag. *)
Record Peer : Type := {
  peer_ID : string;
  peer_IsValidator : bool
}.

(** The node with the objects its pointers lead to (blockchain, reputation
    manager, validator group). *)
Record EmergencyNode : Type := {
  en_ID : string;
  en_IsValidator : bool;
  en_Blockchain : EmergencyBlockchain F;
  en_ReputationManager : reputation.ReputationManager F;
  en_ValidatorGroup : ValidatorGroup F;
  en_Peers : list Peer;
  en_prePrepareReceived : gmap string ConsensusMessage;
  en_prepareVotes : gmap string (gmap string bool);
  en_commitVotes : gmap string (gmap string bool)
}.

(** A message handed to [go peer.ReceiveMessage(msg)]: the receiving peer
    and the message. *)
Definition Send : Type := string * ConsensusMessage.

Definition NewEmergencyNode (id : string) (blockchain : EmergencyBlockchain F)
  (reputationManager : reputation.ReputationManager F) (validatorGroup : ValidatorGroup F)
  : EmergencyNode :=
  {| en_ID := id;
     en_IsValidator := false;
     en_Blockchain := blockchain;
     en_ReputationManager := reputationManager;
     en_ValidatorGroup := validatorGroup;
     en_Peers := [];
     en_prePrepareReceived := ∅;
     en_prepareVotes := ∅;
     en_commitVotes := ∅ |}.

Definition SetPeers (en : EmergencyNode) (peers : list Peer) : EmergencyNode :=
  {| en_ID := en_ID en;
     en_IsValidator := en_IsValidator en;
     en_Blockchain := en_Blockchain en;
     en_ReputationManager := en_ReputationManager en;
     en_ValidatorGroup := en_ValidatorGroup en;
     en_Peers := peers;
     en_prePrepareReceived := en_prePrepareReceived en;
     en_prepareVotes := en_prepareVotes en;
     en_commitVotes := en_commitVotes en |}.

Definition UpdateValidatorStatus (en : EmergencyNode) : EmergencyNode :=
  {| en_ID := en_ID en;
     en_IsValidator := IsValidator (en_ValidatorGroup en) (en_ID en);
     en_Blockchain := en_Blockchain en;
     en_ReputationManager := en_ReputationManager en;
     en_ValidatorGroup := en_ValidatorGroup en;
     en_Peers := en_Peers en;
     en_prePrepareReceived := en_prePrepareReceived en;
     en_prepareVotes := en_prepareVotes en;
     en_commitVotes := en_commitVotes en |}.

Definition Broadcast (en : EmergencyNode) (msg : ConsensusMessage) : list Send :=
  flat_map (fun peer =>
              if negb (String.eqb (peer_ID peer) (en_ID en)) then [(peer_ID peer, msg)] else [])
           (en_Peers en).

Definition BroadcastToValidators (en : EmergencyNode) (msg : ConsensusMessage) : list Send :=
  flat_map (fun peer =>
              if negb (String.eqb (peer_ID peer) (en_ID en)) && peer_IsValidator peer
              then [(peer_ID peer, msg)] else [])
           (en_Peers en).

Definition withPrePrepareReceived (en : EmergencyNode) (m : gmap string ConsensusMessage)
  : EmergencyNode :=
  {| en_ID := en_ID en;
     en_IsValidator := en_IsValidator en;
     en_Blockchain := en_Blockchain en;
     en_ReputationManager := en_ReputationManager en;
     en_ValidatorGroup := en_ValidatorGroup en;
     en_Peers := en_Peers en;
     en_prePrepareReceived := m;
     en_prepareVotes := en_prepareVotes en;
     en_commitVotes := en_commitVotes en |}.

Definition withPrepareVotes (en : EmergencyNode) (m : gmap string (gmap string bool))
  : EmergencyNode :=
  {| en_ID := en_ID en;
     en_IsValidator := en_IsValidator en;
     en_Blockchain := en_Blockchain en;
     en_ReputationManager := en_ReputationManager en;
     en_ValidatorGroup := en_ValidatorGroup en;
     en_Peers := en_Peers en;
     en_prePrepareReceived := en_prePrepareReceived en;
     en_prepareVotes := m;
     en_commitVotes := en_commitVotes en |}.

Definition withCommitVotes (en : EmergencyNode) (m : gmap string (gmap string bool))
  : EmergencyNode :=
  {| en_ID := en_ID en;
     en_IsValidator := en_IsValidator en;
     en_Blockchain := en_Blockchain en;
     en_ReputationManager := en_ReputationManager en;
     en_ValidatorGroup := en_ValidatorGroup en;
     en_Peers := en_Peers en;
     en_prePrepareReceived := en_prePrepareReceived en;
     en_prepareVotes := en_prepareVotes en;
     en_commitVotes := m |}.

Definition withBlockchain (en : EmergencyNode) (ebc : EmergencyBlockchain F) : EmergencyNode :=
  {| en_ID := en_ID en;
     en_IsValidator := en_IsValidator en;
     en_Blockchain := ebc;
     en_ReputationManager := en_ReputationManager en;
     en_ValidatorGroup := en_ValidatorGroup en;
     en_Peers := en_Peers en;
     en_prePrepareReceived := en_prePrepareReceived en;
     en_prepareVotes := en_prepareVotes en;
     en_commitVotes := en_commitVotes en |}.

Definition withReputationManager (en : EmergencyNode) (rm : reputation.ReputationManager F)
  : EmergencyNode :=
  {| en_ID := en_ID en;
     en_IsValidator := en_IsValidator en;
     en_Blockchain := en_Blockchain en;
     en_ReputationManager := rm;
     en_ValidatorGroup := en_ValidatorGroup en;
     en_Peers := en_Peers en;
     en_prePrepareReceived := en_prePrepareReceived en;
     en_prepareVotes := en_prepareVotes en;
     en_commitVotes := en_commitVotes en |}.

(** [now] is the reading of [time.Now()]. [None] is a panic of
    [VerifyBlock]. *)
Definition handlePrePrepare (en : EmergencyNode) (msg : ConsensusMessage) (now : Time)
  : option (EmergencyNode * list Send) :=
  if negb (en_IsValidator en) then Some (en, [])
  else
    match VerifyBlock sha256_hex json_Marshal format_RFC3339Nano (en_Blockchain en) (msg_Block msg) with
    | None => None
    | Some false => Some (en, [])
    | Some true =>
        let en := withPrePrepareReceived en (<[msg_BlockHash msg := msg]> (en_prePrepareReceived en)) in
        let prepareMsg := {| msg_Type := Prepare;
                             msg_BlockHash := msg_BlockHash msg;
                             msg_Block := msg_Block msg;
                             msg_From := en_ID en;
                             msg_Timestamp := now |} in
        Some (en, BroadcastToValidators en prepareMsg)
    end.

(** Recording a vote: [votes[hash][from] = true], the inner map made when
    absent. *)
Definition recordVote (votes : gmap string (gmap string bool)) (hash from : string)
  : gmap string (gmap string bool) :=
  let votes := match votes !! hash with
               | None => <[hash := ∅]> votes
               | Some _ => votes
               end in
  <[hash := <[from := true]> (default ∅ (votes !! hash))]> votes.

(** [len(votes[hash])]. *)
Definition countVotes (votes : gmap string (gmap string bool)) (hash : string) : Z :=
  Z.of_nat (size (default ∅ (votes !! hash))).

(** The Byzantine budget [f = (N - 1) / 3] of a group of [N] validators. *)
Definition faultBudget (N : Z) : Z := GoInt.quot (GoInt.sub N 1) 3.

Definition handlePrepare (en : EmergencyNode) (msg : ConsensusMessage) (now : Time)
  : EmergencyNode * list Send :=
  if negb (en_IsValidator en) then (en, [])
  else
    let en := withPrepareVotes en (recordVote (en_prepareVotes en) (msg_BlockHash msg) (msg_From msg)) in
    let N := GetSize (en_ValidatorGroup en) in
    let f := faultBudget N in
    let requiredVotes := GoInt.add f 1 in
    if (countVotes (en_prepareVotes en) (msg_BlockHash msg) >=? requiredVotes)%Z then
      let commitMsg := {| msg_Type := Commit;
                          msg_BlockHash := msg_BlockHash msg;
                          msg_Block := msg_Block msg;
                          msg_From := en_ID en;
                          msg_Timestamp := now |} in
      (en, BroadcastToValidators en commitMsg)
    else (en, []).

(** The evaluations a validator writes for the senders of a committed
    block. [rand_Float64 i] is the draw of [rand.Float64()] for the [i]-th
    transaction and [clock i] the reading of [time.Now()] there. *)
Definition recordEmergencyInteractions (en : EmergencyNode) (block : EmergencyBlock F)
  (clock : nat -> Time) (rand_Float64 : nat -> F) : EmergencyNode :=
  if negb (en_IsValidator en) then en
  else
    let rm :=
      foldl (fun rm '(i, tx) =>
               let '(posEvents, negEvents) :=
                 if rand_Float64 i <? flit 0.9 then (1%Z, 0%Z) else (0%Z, 1%Z) in
               let inter := {| reputation.it_From := en_ID en;
                               reputation.it_To := tx_VehicleID tx;
                               reputation.it_PosEvents := posEvents;
                               reputation.it_NegEvents := negEvents;
                               reputation.it_Timestamp := clock i;
                               reputation.it_TrajUser := [];
                               reputation.it_TrajProvider := [];
                               reputation.it_TxType := reputation.EmergencyTransaction;
                               reputation.it_UrgencyDegree := tx_UrgencyDegree tx |} in
               reputation.AddInteraction rm inter)
            (en_ReputationManager en)
            (combine (seq 0 (length (blk_Transactions block))) (blk_Transactions block)) in
    withReputationManager en rm.

Definition handleCommit (en : EmergencyNode) (msg : ConsensusMessage)
  (clock : nat -> Time) (rand_Float64 : nat -> F) : EmergencyNode :=
  let en := withCommitVotes en (recordVote (en_commitVotes en) (msg_BlockHash msg) (msg_From msg)) in
  let N := GetSize (en_ValidatorGroup en) in
  let f := faultBudget N in
  let requiredVotes := GoInt.add (GoInt.mul 2 f) 1 in
  if (countVotes (en_commitVotes en) (msg_BlockHash msg) >=? requiredVotes)%Z then
    let en := withBlockchain en (AddBlock (en_Blockchain en) (msg_Block msg)) in
    let en := recordEmergencyInteractions en (msg_Block msg) clock rand_Float64 in
    let en := withPrePrepareReceived en (delete (msg_BlockHash msg) (en_prePrepareReceived en)) in
    let en := withPrepareVotes en (delete (msg_BlockHash msg) (en_prepareVotes en)) in
    withCommitVotes en (delete (msg_BlockHash msg) (en_commitVotes en))
  else en.

(** One message, handled under the node's mutex. *)
Definition ReceiveMessage (en : EmergencyNode) (msg : ConsensusMessage)
  (clock : nat -> Time) (rand_Float64 : nat -> F) : option (EmergencyNode * list Send) :=
  if (msg_Type msg =? PrePrepare)%Z then handlePrePrepare en msg (clock 0%nat)
  else if (msg_Type msg =? Prepare)%Z then Some (handlePrepare en msg (clock 0%nat))
  else if (msg_Type msg =? Commit)%Z then Some (handleCommit en msg clock rand_Float64, [])
  else Some (en, []).

(** [clock 0] stamps the block, [clock 1] the announcement and [clock 2]
    the node's own endorsement. [None]: a panic of [GetTopKTransactions] or
    of the dereference of the latest block. *)
Definition ProposeEmergencyBlock (en : EmergencyNode) (clock : nat -> Time)
  : option (EmergencyNode * list Send) :=
  if negb (en_IsValidator en) then Some (en, [])
  else if (Size (ebc_TxPool (en_Blockchain en)) =? 0)%Z then Some (en, [])
  else
    match GetTopKTransactions (ebc_TxPool (en_Blockchain en)) (ebc_BlockSize (en_Blockchain en)) with
    | None => None
    | Some (transactions, pool) =>
        let en := withBlockchain en (withTxPool (en_Blockchain en) pool) in
        if (length transactions =? 0)%nat then Some (en, [])
        else
          match GetLatestBlock (en_Blockchain en) with
          | None => None
          | Some latestBlock =>
              let newBlock :=
                NewEmergencyBlock sha256_hex json_Marshal format_RFC3339Nano
                  (GoInt.add (blk_Index latestBlock) 1) (blk_Hash latestBlock)
                  transactions (GetValidatorIDs (en_ValidatorGroup en)) (clock 0%nat) in
              let prePrepareMsg := {| msg_Type := PrePrepare;
                                      msg_BlockHash := blk_Hash newBlock;
                                      msg_Block := newBlock;
                                      msg_From := en_ID en;
                                      msg_Timestamp := clock 1%nat |} in
              let sent := BroadcastToValidators en prePrepareMsg in
              match handlePrePrepare en prePrepareMsg (clock 2%nat) with
              | None => None
              | Some (en, sent') => Some (en, sent ++ sent')
              end
          end
    end.

Definition AddEmergencyTransaction (en : EmergencyNode) (tx : EmergencyTransaction F)
  : EmergencyNode :=
  withBlockchain en (AddTransactionToChain (en_Blockchain en) tx).

(** [now] is the reading of [time.Now()]. *)
Definition GetReputation {Fmath : Float64Math F} (en : EmergencyNode) (now : Time) : F :=
  reputation.ComputeReputation (en_ReputationManager en) (en_ID en) now.

Definition GetBlockchainLength (en : EmergencyNode) : Z := GetChainLength (en_Blockchain en).

End Node.

Arguments ConsensusMessage : clear implicits.
Arguments EmergencyNode : clear implicits.

End emergency.

(** * Vocabulary of the properties *)

Import GoTime config reputation emergency.

Section ChainProperties.
Context {F : Type} {Fops : Float64 F}.

(** The chain link: every block after the first names its predecessor's
    hash and carries the next index. *)
Definition linked (chain : list (EmergencyBlock F)) : Prop :=
  forall (i : nat) (prev cur : EmergencyBlock F),
    chain !! i = Some prev -> chain !! S i = Some cur ->
    blk_PrevHash cur = blk_Hash prev /\ blk_Index cur = (blk_Index prev + 1)%Z.

(** The chain a node holds. *)
Definition chainOf (en : EmergencyNode F) : list (EmergencyBlock F) :=
  ebc_Chain (en_Blockchain en).

(** The shape of a genesis block. *)
Definition isGenesis (b : EmergencyBlock F) : Prop :=
  blk_Index b = 0%Z /\ blk_PrevHash b = "0"%string /\ blk_Hash b = "genesis"%string /\
  blk_Transactions b = [].

Variable sha256_hex : string -> string.
Variable json_Marshal : Z -> string -> string -> string -> string.
Variable format_RFC3339Nano : Time -> string.

(** One atomic operation on a node: a message received, a block proposed,
    a transaction added, the validator flag or the peers updated. *)
Inductive nodeStep : EmergencyNode F -> EmergencyNode F -> Prop :=
| step_receive (en : EmergencyNode F) (msg : ConsensusMessage F) (clock : nat -> Time)
    (rand_Float64 : nat -> F) (en' : EmergencyNode F) (sent : list (Send (F := F))) :
    ReceiveMessage sha256_hex json_Marshal format_RFC3339Nano en msg clock rand_Float64
      = Some (en', sent) ->
    nodeStep en en'
| step_propose (en : EmergencyNode F) (clock : nat -> Time)
    (en' : EmergencyNode F) (sent : list (Send (F := F))) :
    ProposeEmergencyBlock sha256_hex json_Marshal format_RFC3339Nano en clock = Some (en', sent) ->
    nodeStep en en'
| step_transaction (en : EmergencyNode F) (tx : EmergencyTransaction F) :
    nodeStep en (AddEmergencyTransaction en tx)
| step_status (en : EmergencyNode F) :
    nodeStep en (UpdateValidatorStatus en)
| step_peers (en : EmergencyNode F) (peers : list Peer) :
    nodeStep en (SetPeers en peers).

(** The states a node reaches from [en0]. *)
Inductive reachable (en0 : EmergencyNode F) : EmergencyNode F -> Prop :=
| reachable_start : reachable en0 en0
| reachable_step (en en' : EmergencyNode F) :
    reachable en0 en -> nodeStep en en' -> reachable en0 en'.

End ChainProperties.

(** ** The pool *)

Section PoolProperties.
Context {F : Type} {Fops : Float64 F}.

(** [notBelow a b]: the comparison of the bubble sort does not put [a]
    below [b]. *)
Definition notBelow (a b : EmergencyTransaction F) : Prop :=
  (tx_UrgencyDegree a <? tx_UrgencyDegree b)%f64 = false.

(** The transactions whose urgency the comparison does not separate from
    [u]. *)
Definition sameUrgency (u : F) (tx : EmergencyTransaction F) : bool :=
  negb (tx_UrgencyDegree tx <? u)%f64 && negb (u <? tx_UrgencyDegree tx)%f64.

(** [atLeast a b]: [a] is at least as urgent as [b]. *)
Definition atLeast (a b : EmergencyTransaction F) : Prop :=
  (tx_UrgencyDegree b <=? tx_UrgencyDegree a)%f64 = true.

(** No urgency among [txs] is NaN. *)
Definition numericUrgencies (txs : list (EmergencyTransaction F)) : Prop :=
  Forall (fun tx => isNaN (tx_UrgencyDegree tx) = false) txs.

(** Whether a transaction's identifier is among those of [txs]. *)
Definition hasIDof (txs : list (EmergencyTransaction F)) (tx : EmergencyTransaction F) : bool :=
  existsb (String.eqb (tx_ID tx)) (map tx_ID txs).

(** The invariant of the outer loop before iteration [i]: the last [i]
    positions are in their final order and nothing in them is above the
    rest. *)
Definition settled (i : nat) (s : list (EmergencyTransaction F)) : Prop :=
  exists q t : list (EmergencyTransaction F),
    s = q ++ t /\ length t = i /\ StronglySorted notBelow t /\
    Forall (fun y => Forall (notBelow y) t) q.

End PoolProperties.

(** ** The committee *)

Section CommitteeProperties.
Context {F : Type} {Fops : Float64 F}.

(** No reputation among [vs] is NaN. *)
Definition numericReputations (vs : list (Validator F)) : Prop :=
  Forall (fun v => isNaN (val_Reputation v) = false) vs.

(** [reputedAtLeast a b]: the reputation of [a] is at least that of [b]. *)
Definition reputedAtLeast (a b : Validator F) : Prop :=
  (val_Reputation b <=? val_Reputation a)%f64 = true.

End CommitteeProperties.

(** ** The urgency scorer *)

(** The factor [E] of a transaction. *)
Definition urgencyBase (tx : EmergencyTransaction R) : R :=
  if R_ltb 0 (transmissionTime tx)
  then exp (- expectedDelay tx / transmissionTime tx)
  else (1 / 10)%R.

(** ** Opinions *)

Section OpinionProperties.
Context {F : Type} {Fops : Float64 F} {Fmath : Float64Math F}.
Local Open Scope F_scope.

(** The opinion the first loop stores for an interaction. *)
Definition weighed (cfg : Config F) (now : Time) (avgCnt : F) (inter : Interaction F)
  : DirectOpinion F :=
  {| do_Opinion := {| op_T := of_int 0; op_D := of_int 0; op_I := uncertainty inter |};
     do_Weight := directWeight cfg now avgCnt inter |}.

(** The direct opinion about a subject that has one evaluator. *)
Definition soleOpinion (cfg : Config F) (now : Time) (inter : Interaction F) : DirectOpinion F :=
  let avgCnt := (of_int 0 + totalEvents inter) / of_int 1 in
  let weight := directWeight cfg now avgCnt inter in
  let errNum := of_int 0 + weight * of_int (it_NegEvents inter) in
  let errDen := of_int 0 + weight in
  fillOpinion (errorFactor cfg errNum errDen) inter (weighed cfg now avgCnt inter).

End OpinionProperties.

(** The evidence of an interaction is well formed: the counts are not
    negative and their sum is an [int]. *)
Definition wellFormed (inter : Interaction R) : Prop :=
  (0 <= it_PosEvents inter)%Z /\ (0 <= it_NegEvents inter)%Z /\
  (it_PosEvents inter + it_NegEvents inter <= GoInt.max_int)%Z.

(** A direct opinion with a weight that is not negative and components that
    are not negative and sum to at most 1. *)
Definition boundedOpinion (d : DirectOpinion R) : Prop :=
  (0 <= do_Weight d)%R /\ (0 <= op_T (do_Opinion d))%R /\ (0 <= op_D (do_Opinion d))%R /\
  (0 <= op_I (do_Opinion d))%R /\
  (op_T (do_Opinion d) + op_D (do_Opinion d) + op_I (do_Opinion d) <= 1)%R.

(** An opinion as the data model asks for it: each component in [0,1] and
    the three summing to 1. *)
Definition normalisedOpinion (o : SubjectiveOpinion R) : Prop :=
  (0 <= op_T o <= 1)%R /\ (0 <= op_D o <= 1)%R /\ (0 <= op_I o <= 1)%R /\
  (op_T o + op_D o + op_I o = 1)%R.

(** The four sums of the first loop of the fusion. *)
Definition directSums (l : list (string * DirectOpinion R)) (acc : R * R * R * R) : R * R * R * R :=
  foldl (fun '(sumW, sumTdir, sumDdir, sumIdir) '(_, d) =>
           (sumW + do_Weight d,
            sumTdir + op_T (do_Opinion d) * do_Weight d,
            sumDdir + op_D (do_Opinion d) * do_Weight d,
            sumIdir + op_I (do_Opinion d) * do_Weight d)%R)
        acc l.

(** The sum of the weights of the direct opinions about one subject. *)
Definition totalWeight (dir : gmap string (DirectOpinion R)) : R :=
  (directSums (map_to_list dir) (0, 0, 0, 0)%R).1.1.1.

(** ** Consensus *)

Section ConsensusProperties.
Context {F : Type} {Fops : Float64 F}.

(** A commit message as a node handles it: the message, the clock and the
    random draws of the handling. *)
Definition Delivery : Type := ConsensusMessage F * (nat -> Time) * (nat -> F).

Definition deliveredMessage (d : Delivery) : ConsensusMessage F := d.1.1.

(** Commit messages handled one after the other. *)
Definition handleCommits (en : EmergencyNode F) (l : list Delivery) : EmergencyNode F :=
  foldl (fun en '(msg, clock, rand_Float64) => handleCommit en msg clock rand_Float64) en l.

(** The thresholds [f + 1] and [2f + 1] for a committee of [N] validators,
    with [f = (N - 1) / 3] truncated toward zero. *)
Definition prepareQuorum (N : Z) : Z := Z.quot (N - 1) 3 + 1.
Definition commitQuorum (N : Z) : Z := 2 * Z.quot (N - 1) 3 + 1.

(** The votes recorded for one block hash. *)
Definition votesFor (votes : gmap string (gmap string bool)) (hash : string) : gmap string bool :=
  default ∅ (votes !! hash).

End ConsensusProperties.

Section PrepareProperties.
Context {F : Type} {Fops : Float64 F}.

(** Endorsements handled one after the other, each at its own reading of
    the clock, with the messages sent on the way. *)
Definition handlePrepares (en : EmergencyNode F) (l : list (ConsensusMessage F * Time))
  : EmergencyNode F * list (Send (F := F)) :=
  foldl (fun '(en, sent) '(msg, now) =>
           let '(en', more) := handlePrepare en msg now in (en', sent ++ more))
        (en, []) l.

(** The commit message a node sends for an endorsement it has handled. *)
Definition commitFor (en : EmergencyNode F) (msg : ConsensusMessage F) (now : Time)
  : ConsensusMessage F :=
  {| msg_Type := Commit;
     msg_BlockHash := msg_BlockHash msg;
     msg_Block := msg_Block msg;
     msg_From := en_ID en;
     msg_Timestamp := now |}.

End PrepareProperties.

(** ** Trajectories *)

(** The inner product of two lists of reals, up to the shorter, and the sum
    of the squares of one. *)
Fixpoint innerProduct (a b : list R) : R :=
  match a, b with
  | x :: a, y :: b => (x * y + innerProduct a b)%R
  | _, _ => 0%R
  end.

Fixpoint sumOfSquares (a : list R) : R :=
  match a with
  | x :: a => (x * x + sumOfSquares a)%R
  | [] => 0%R
  end.

(** ** The interaction log *)

Section LogProperties.
Context {F : Type} {Fops : Float64 F}.

(** The interactions of a log from [from] about [to], in the order of the
    log. *)
Definition pairLog (log : list (Interaction F)) (to from : string) : list (Interaction F) :=
  List.filter (fun inter => String.eqb (it_To inter) to && String.eqb (it_From inter) from) log.

(** The entry of a pair in the aggregated log. *)
Definition pairEntry (agg : gmap string (gmap string (Interaction F))) (to from : string)
  : option (Interaction F) :=
  agg !! to ≫= fun row => row !! from.

End LogProperties.

(** * Concrete inputs *)

(** The hexadecimal floating-point and decimal literals below are exact in
    binary64. *)

(** A validator of a committee of four that receives the three commit
    messages of its peers for one block twice over (every validator
    broadcasts a commit at each endorsement it receives from the threshold
    on, so each sends two). *)
Module DoubleCommit.

Definition cfg : Config float :=
  {| Rho1 := 0.25; Rho2 := 0.25; Rho3 := 0.5; Eta := 1; Epsilon := 1;
     Tau1 := 0.25; Tau2 := 0.25; Tau3 := 0.5; Mu := 1; Gamma := 0.5 |}%float.

Definition group : ValidatorGroup float :=
  {| vg_Validators := [ {| val_ID := "v1"; val_Reputation := 0.5%float |};
                        {| val_ID := "v2"; val_Reputation := 0.5%float |};
                        {| val_ID := "v3"; val_Reputation := 0.5%float |};
                        {| val_ID := "v4"; val_Reputation := 0.5%float |} ];
     vg_GroupSize := 4;
     vg_ActivePeriod := 10;
     vg_CurrentRound := 0;
     vg_CreatedAt := 0 |}.

Definition node0 : EmergencyNode float :=
  NewEmergencyNode "v1"
    (NewEmergencyBlockchain {| Omega := 0.5%float |} 5 3000000000 0)
    (NewReputationManager cfg) group.

Definition block1 : EmergencyBlock float :=
  {| blk_Index := 1;
     blk_Timestamp := 1;
     blk_PrevHash := "genesis";
     blk_Hash := "h1";
     blk_MerkleRoot := "";
     blk_Signature := "";
     blk_ValidatorIDs := ["v1"; "v2"; "v3"; "v4"];
     blk_Transactions := [];
     blk_TotalUrgency := 0%float |}.

Definition commit (from : string) : ConsensusMessage float :=
  {| msg_Type := Commit;
     msg_BlockHash := "h1";
     msg_Block := block1;
     msg_From := from;
     msg_Timestamp := 2 |}.

Definition senders : list string := ["v2"; "v3"; "v4"; "v2"; "v3"; "v4"].

Definition receive (en : EmergencyNode float) (from : string) : EmergencyNode float :=
  handleCommit en (commit from) (fun _ => 3) (fun _ => 0%float).

Definition node6 : EmergencyNode float := foldl receive (UpdateValidatorStatus node0) senders.

End DoubleCommit.

(** Two transactions of equal urgency: the one that entered the pool first
    arrived later and has the greater identifier. *)
Module TieBreak.

Definition late : EmergencyTransaction float :=
  {| tx_ID := "b";
     tx_VehicleID := "v1";
     tx_Data := [];
     tx_Timestamp := 10;
     tx_ProductTime := 8;
     tx_DeadlineTime := 20;
     tx_ArrivalTime := 10;
     tx_Priority := 0;
     tx_UrgencyDegree := 1%float;
     tx_Theta := 1 |}.

Definition early : EmergencyTransaction float :=
  {| tx_ID := "a";
     tx_VehicleID := "v2";
     tx_Data := [];
     tx_Timestamp := 11;
     tx_ProductTime := 3;
     tx_DeadlineTime := 15;
     tx_ArrivalTime := 5;
     tx_Priority := 0;
     tx_UrgencyDegree := 1%float;
     tx_Theta := 1 |}.

Definition pool : TransactionPool float :=
  AddTransaction (AddTransaction NewTransactionPool late) early.

End TieBreak.

(** A pool with the urgencies 0.1, 5, 2, 9, 9, 3, in the two readings of
    [float64]. *)
Module TopThree.

Definition tx {F : Type} {Fops : Float64 F} (id : string) (urgency : F) : EmergencyTransaction F :=
  {| tx_ID := id;
     tx_VehicleID := "v1";
     tx_Data := [];
     tx_Timestamp := 0;
     tx_ProductTime := 0;
     tx_DeadlineTime := 0;
     tx_ArrivalTime := 0;
     tx_Priority := 0;
     tx_UrgencyDegree := urgency;
     tx_Theta := 0 |}.

Definition pool {F : Type} {Fops : Float64 F} : TransactionPool F :=
  {| transactions := [tx "t1" (flit 0.1); tx "t2" (flit 5.0); tx "t3" (flit 2.0);
                      tx "t4" (flit 9.0); tx "t5" (flit 9.0); tx "t6" (flit 3.0)] |}.

End TopThree.

(** Two candidates without evidence, the one with the greater identifier
    listed first, and a committee of one seat. *)
Module TwoCandidates.

Definition cfg : Config R :=
  {| Rho1 := 1 / 3; Rho2 := 1 / 3; Rho3 := 1 / 3; Eta := 1; Epsilon := 1;
     Tau1 := 1 / 3; Tau2 := 1 / 3; Tau3 := 1 / 3; Mu := 1; Gamma := 1 / 2 |}%R.

Definition managers : gmap string (ReputationManager R) :=
  <["a" := NewReputationManager cfg]> (<["b" := NewReputationManager cfg]> ∅).

Definition nodeIDs : list string := ["b"; "a"].

Definition group : ValidatorGroup R := NewValidatorGroup 1 10 0.

End TwoCandidates.

(** Two transactions with the same three times and prior counts 1 and 2,
    scored with weight 0 and with the weight 0.5 of the driver. *)
Module PriorCount.

Definition tx (theta : Z) : EmergencyTransaction R :=
  {| tx_ID := "ETx";
     tx_VehicleID := "v1";
     tx_Data := [];
     tx_Timestamp := 0;
     tx_ProductTime := 0;
     tx_DeadlineTime := 10000000000;
     tx_ArrivalTime := 2000000000;
     tx_Priority := 0;
     tx_UrgencyDegree := 0%R;
     tx_Theta := theta |}.

Definition noWeight : UrgencyConfig R := {| Omega := 0%R |}.
Definition driverWeight : UrgencyConfig R := {| Omega := (1 / 2)%R |}.

End PriorCount.

(** A transaction on binary64 that took 300 ns from its production to its
    arrival and has 5 s left to its deadline, under the weight 0.5 of the
    driver. *)
Module Underflow.

Definition tx (theta : Z) : EmergencyTransaction float :=
  {| tx_ID := "ETx";
     tx_VehicleID := "v1";
     tx_Data := [];
     tx_Timestamp := 0;
     tx_ProductTime := 0;
     tx_DeadlineTime := 5000000300;
     tx_ArrivalTime := 300;
     tx_Priority := 0;
     tx_UrgencyDegree := 0%float;
     tx_Theta := theta |}.

Definition cfg : UrgencyConfig float := {| Omega := 0.5%float |}.

End Underflow.

(** Positive evidence at the instant of the evaluation, without
    trajectories, under the configuration of the specification's seed
    scenarios. *)
Module Praise.

Definition cfg : Config R :=
  {| Rho1 := 1 / 3; Rho2 := 1 / 3; Rho3 := 1 / 3; Eta := 1; Epsilon := 1;
     Tau1 := 1 / 3; Tau2 := 1 / 3; Tau3 := 1 / 3; Mu := 1; Gamma := 1 / 2 |}%R.

(** [from] reports [n] positive events about [to]. *)
Definition praise (from to : string) (n : Z) : Interaction R :=
  {| it_From := from;
     it_To := to;
     it_PosEvents := n;
     it_NegEvents := 0;
     it_Timestamp := 0;
     it_TrajUser := [];
     it_TrajProvider := [];
     it_TxType := NormalTransaction;
     it_UrgencyDegree := 0%R |}.

(** One evaluator: "A" reports one positive event about "B". *)
Definition single : ReputationManager R :=
  AddInteraction (NewReputationManager cfg) (praise "A" "B" 1).

(** Two nodes that evaluate each other: two positive events each way. *)
Definition mutual : ReputationManager R :=
  AddInteraction (AddInteraction (NewReputationManager cfg) (praise "A" "B" 2))
                 (praise "B" "A" 2).

(** The fused opinion about "B" that [ComputeReputation] scores in
    [mutual]. *)
Definition fusedAboutB : SubjectiveOpinion R :=
  let direct := computeDirectOpinions cfg (aggregateByPair mutual) 0 in
  fuseOpinions (default ∅ (direct !! "B")) (default ∅ (computeIndirectOpinions direct !! "B")).

(** The opinion each of the two holds about the other. *)
Definition halfBelief : DirectOpinion R :=
  {| do_Opinion := {| op_T := IZR 2 / (IZR 2 + 2); op_D := 0; op_I := 2 / (IZR 2 + 2) |};
     do_Weight := 2 / 3 |}%R.

End Praise.

(** "A" has evaluated "C", and "C" has evaluated "S"; "S" has evaluated
    nobody. Binary64, with a configuration whose numbers are exact. *)
Module OneWay.

Definition cfg : Config float :=
  {| Rho1 := 0.25; Rho2 := 0.25; Rho3 := 0.5; Eta := 1; Epsilon := 1;
     Tau1 := 0.25; Tau2 := 0.25; Tau3 := 0.5; Mu := 1; Gamma := 0.5 |}%float.

Definition praise (from to : string) : Interaction float :=
  {| it_From := from;
     it_To := to;
     it_PosEvents := 1;
     it_NegEvents := 0;
     it_Timestamp := 0;
     it_TrajUser := [];
     it_TrajProvider := [];
     it_TxType := NormalTransaction;
     it_UrgencyDegree := 0%float |}.

Definition log : ReputationManager float :=
  AddInteraction (AddInteraction (NewReputationManager cfg) (praise "A" "C")) (praise "C" "S").

End OneWay.

(** On binary64, 710 negative events and no positive one that "A" reports
    about "B", at the instant of the evaluation. *)
Module Blame.

Definition blame : Interaction float :=
  {| it_From := "A";
     it_To := "B";
     it_PosEvents := 0;
     it_NegEvents := 710;
     it_Timestamp := 0;
     it_TrajUser := [];
     it_TrajProvider := [];
     it_TxType := NormalTransaction;
     it_UrgencyDegree := 0%float |}.

Definition log : ReputationManager float :=
  AddInteraction (NewReputationManager OneWay.cfg) blame.

End Blame.

(** Two copies of one transaction, as a pool holds them when the same
    transaction is added twice. *)
Module Twins.

Definition twin {F : Type} {Fops : Float64 F} : EmergencyTransaction F :=
  {| tx_ID := "ETx-0-v1-0";
     tx_VehicleID := "v1";
     tx_Data := [];
     tx_Timestamp := 0;
     tx_ProductTime := 0;
     tx_DeadlineTime := 0;
     tx_ArrivalTime := 0;
     tx_Priority := 0;
     tx_UrgencyDegree := of_int 1;
     tx_Theta := 1 |}.

Definition pool {F : Type} {Fops : Float64 F} : TransactionPool F :=
  AddTransaction (AddTransaction NewTransactionPool twin) twin.

End Twins.

(** A committee with one seat and one candidate without evidence, and the
    committee once the candidate is seated. *)
Module OneSeat.

Definition managers : gmap string (ReputationManager float) :=
  {["a" := NewReputationManager OneWay.cfg]}.

Definition group : ValidatorGroup float := NewValidatorGroup 1 2 0.

Definition seated : ValidatorGroup float :=
  {| vg_Validators := [{| val_ID := "a"; val_Reputation := 0.5%float |}];
     vg_GroupSize := 1;
     vg_ActivePeriod := 2;
     vg_CurrentRound := 0;
     vg_CreatedAt := 0 |}.

End OneSeat.

(** Three listed nodes on binary64, of which "ghost" has no reputation
    manager and the other two have no evidence, and a committee of one
    seat. *)
Module Listed.

Definition managers : gmap string (ReputationManager float) :=
  <["a" := NewReputationManager OneWay.cfg]> (<["b" := NewReputationManager OneWay.cfg]> ∅).

Definition nodeIDs : list string := ["b"; "ghost"; "a"].

Definition group : ValidatorGroup float := NewValidatorGroup 1 10 0.

End Listed.

(** Two blocks with the same header whose transactions carry the same
    urgencies and identifiers that are cut differently: "ab", "c" and "a",
    "bc". *)
Module Regrouped.

Definition block (ids : string * string) : EmergencyBlock float :=
  {| blk_Index := 1;
     blk_Timestamp := 1;
     blk_PrevHash := "genesis";
     blk_Hash := "h1";
     blk_MerkleRoot := "m1";
     blk_Signature := EmptyString;
     blk_ValidatorIDs := [];
     blk_Transactions := [TopThree.tx ids.1 1%float; TopThree.tx ids.2 2%float];
     blk_TotalUrgency := 3%float |}.

Definition chain : EmergencyBlockchain float :=
  NewEmergencyBlockchain {| Omega := 0.5%float |} 5 3000000000 0.

End Regrouped.

(** A validator over the real numbers with one transaction in its pool, a
    new chain and no peers; and a node whose committee has no member. *)
Module Proposer.

Definition node : EmergencyNode R :=
  {| en_ID := "b";
     en_IsValidator := true;
     en_Blockchain :=
       AddTransactionToChain (NewEmergencyBlockchain {| Omega := (1 / 2)%R |} 5 3000000000 0)
                             (TopThree.tx "t1" 1%R);
     en_ReputationManager := NewReputationManager TwoCandidates.cfg;
     en_ValidatorGroup := TwoCandidates.group;
     en_Peers := [];
     en_prePrepareReceived := ∅;
     en_prepareVotes := ∅;
     en_commitVotes := ∅ |}.

(** The committee that the selection seats from [TwoCandidates]. *)
Definition committee : ValidatorGroup R :=
  {| vg_Validators := [{| val_ID := "b"; val_Reputation := InitialReputation |}];
     vg_GroupSize := 1;
     vg_ActivePeriod := 10;
     vg_CurrentRound := 0;
     vg_CreatedAt := 0 |}.

Definition bystander : EmergencyNode float :=
  NewEmergencyNode "x" (NewEmergencyBlockchain {| Omega := 0.5%float |} 5 3000000000 0)
                   (NewReputationManager DoubleCommit.cfg) (NewValidatorGroup 4 10 0).

End Proposer.

(** * Proof tools *)

(** [default d (Some x)] and [default d None], read from a map. *)
Ltac reduce_default := cbn [from_option Datatypes.id] in *.

(** ** The comparisons of the two readings of [float64] *)

Lemma R_ltb_true (x y : R) : R_ltb x y = true <-> (x < y)%R.
Proof. unfold R_ltb. destruct (Rlt_dec x y); split; intros; (assumption || discriminate || auto). Qed.

Lemma R_ltb_false (x y : R) : R_ltb x y = false <-> (y <= x)%R.
Proof.
  unfold R_ltb. destruct (Rlt_dec x y); split; intros; try discriminate; try lra; auto.
Qed.

Lemma R_leb_true (x y : R) : R_leb x y = true <-> (x <= y)%R.
Proof. unfold R_leb. destruct (Rle_dec x y); split; intros; (assumption || discriminate || auto). Qed.

Lemma R_leb_false (x y : R) : R_leb x y = false <-> (y < x)%R.
Proof.
  unfold R_leb. destruct (Rle_dec x y); split; intros; try discriminate; try lra; auto.
Qed.

Lemma R_eqb_true (x y : R) : R_eqb x y = true <-> x = y.
Proof. unfold R_eqb. destruct (Req_dec_T x y); split; intros; (assumption || discriminate || auto). Qed.

Lemma R_eqb_false (x y : R) : R_eqb x y = false <-> x <> y.
Proof.
  unfold R_eqb. destruct (Req_dec_T x y); split; intros; try discriminate; try contradiction; auto.
Qed.

Lemma R_flt_asym (x y : R) : (x <? y)%f64 = true -> (y <? x)%f64 = false.
Proof. cbn. rewrite R_ltb_true, R_ltb_false. lra. Qed.

Lemma R_flt_negtrans (x y z : R) :
  (x <? y)%f64 = false -> (y <? z)%f64 = false -> (x <? z)%f64 = false.
Proof. cbn. rewrite !R_ltb_false. lra. Qed.

(** No real number is NaN. *)
Lemma R_isNaN (x : R) : isNaN x = false.
Proof. unfold isNaN. cbn. rewrite (proj2 (R_eqb_true x x)) by reflexivity. reflexivity. Qed.

#[global] Instance R_order : Float64Order R.
Proof.
  split.
  - exact R_flt_asym.
  - intros x y z _. apply R_flt_negtrans.
  - intros x y _ _. cbn. destruct (R_ltb x y) eqn:Hlt; cbn [negb].
    + apply R_leb_false. apply R_ltb_true, Hlt.
    + apply R_leb_true. apply R_ltb_false, Hlt.
  - intros x y. rewrite !R_isNaN. cbn.
    destruct (R_eqb x y) eqn:Heq.
    + apply R_eqb_true in Heq. subst y.
      rewrite (proj2 (R_ltb_false x x)) by lra. reflexivity.
    + apply R_eqb_false in Heq.
      destruct (R_ltb x y) eqn:H1; [reflexivity|].
      destruct (R_ltb y x) eqn:H2; [reflexivity|].
      apply R_ltb_false in H1, H2. exfalso. apply Heq. lra.
Qed.

(** The comparisons of binary64 are those of the specification of IEEE 754
    floats: by sign, then by exponent, then by mantissa. *)
Ltac by_compare :=
  repeat match goal with
  | |- context [Z.compare ?a ?b] => destruct (Z.compare_spec a b)
  | |- context [Pos.compare_cont Eq ?a ?b] =>
      change (Pos.compare_cont Eq a b) with (Pos.compare a b)
  | |- context [Pos.compare ?a ?b] => destruct (Pos.compare_spec a b)
  end; simpl; try (intros; (reflexivity || discriminate || congruence || lia)).

Lemma SFltb_asym (a b : spec_float) : SFltb a b = true -> SFltb b a = false.
Proof.
  unfold SFltb, SFcompare.
  destruct a as [[]|[]| |[] ma ea], b as [[]|[]| |[] mb eb]; simpl;
    try (intros; (reflexivity || discriminate)); by_compare.
Qed.

Lemma SFltb_negtrans (a b c : spec_float) :
  SFeqb b b = true -> SFltb a b = false -> SFltb b c = false -> SFltb a c = false.
Proof.
  unfold SFltb, SFeqb, SFcompare.
  destruct a as [[]|[]| |[] ma ea], b as [[]|[]| |[] mb eb], c as [[]|[]| |[] mc ec]; simpl;
    try (intros; (reflexivity || discriminate)); intros _; by_compare.
Qed.

Lemma SFleb_SFltb (a b : spec_float) :
  SFeqb a a = true -> SFeqb b b = true -> SFleb b a = negb (SFltb a b).
Proof.
  unfold SFltb, SFleb, SFeqb, SFcompare.
  destruct a as [[]|[]| |[] ma ea], b as [[]|[]| |[] mb eb]; simpl;
    try (intros; (reflexivity || discriminate)); intros _ _; by_compare.
Qed.

Lemma SFeqb_SFltb (a b : spec_float) :
  SFeqb a b = SFeqb a a && SFeqb b b && negb (SFltb a b) && negb (SFltb b a).
Proof.
  unfold SFltb, SFeqb, SFcompare.
  destruct a as [[]|[]| |[] ma ea], b as [[]|[]| |[] mb eb]; simpl;
    try (intros; (reflexivity || discriminate)); by_compare.
Qed.

#[global] Instance binary64_order : Float64Order float.
Proof.
  split; unfold isNaN; cbn [flt fle feq binary64].
  - intros x y. rewrite !FloatAxioms.ltb_spec. apply SFltb_asym.
  - intros x y z Hy. apply negb_false_iff in Hy. revert Hy.
    rewrite FloatAxioms.eqb_spec, !FloatAxioms.ltb_spec. apply SFltb_negtrans.
  - intros x y Hx Hy. apply negb_false_iff in Hx, Hy. revert Hx Hy.
    rewrite !FloatAxioms.eqb_spec, FloatAxioms.leb_spec, FloatAxioms.ltb_spec.
    apply SFleb_SFltb.
  - intros x y. rewrite !negb_involutive.
    rewrite !FloatAxioms.eqb_spec, !FloatAxioms.ltb_spec. apply SFeqb_SFltb.
Qed.

(** * Block verification *)

Section BlockFacts.
Context {F : Type} {Fops : Float64 F}.
Variable sha256_hex : string -> string.
Variable json_Marshal : Z -> string -> string -> string -> string.
Variable format_RFC3339Nano : Time -> string.

Local Abbreviation VerifyBlock := (VerifyBlock sha256_hex json_Marshal format_RFC3339Nano).
Local Abbreviation CalculateHash := (CalculateHash sha256_hex json_Marshal format_RFC3339Nano).
Local Abbreviation CalculateMerkleRoot := (CalculateMerkleRoot sha256_hex).

Lemma GetLatestBlock_app (ebc : EmergencyBlockchain F) (chain : list (EmergencyBlock F))
  (b : EmergencyBlock F) :
  ebc_Chain ebc = chain ++ [b] -> GetLatestBlock ebc = Some b.
Proof.
  intros Hc. unfold GetLatestBlock. rewrite Hc, map_app. simpl.
  apply last_last.
Qed.

Lemma GetLatestBlock_None (ebc : EmergencyBlockchain F) :
  GetLatestBlock ebc = None <-> ebc_Chain ebc = [].
Proof.
  unfold GetLatestBlock. destruct (ebc_Chain ebc) as [|b chain] using rev_ind.
  - simpl. tauto.
  - rewrite map_app. simpl. rewrite last_last. split; intros Hx; [discriminate|].
    destruct chain; discriminate.
Qed.

Lemma VerifyBlock_total (ebc : EmergencyBlockchain F) (block : EmergencyBlock F) :
  ebc_Chain ebc <> [] -> is_Some (VerifyBlock ebc block).
Proof.
  intros Hne. unfold emergency.VerifyBlock.
  destruct (GetLatestBlock ebc) as [tip|] eqn:Htip.
  - repeat match goal with |- is_Some (if ?c then _ else _) => destruct c end; eauto.
  - apply GetLatestBlock_None in Htip. contradiction.
Qed.

(** C4. [VerifyBlock] accepts a block if and only if the chain has a tip and
    the five checks hold: the index is the tip's plus one (the addition of
    Go's [int]), the previous hash is the tip's hash, and the recomputed
    Merkle root, hash and total urgency equal the stored ones (the last by
    [float64]'s [==]). *)
Theorem VerifyBlock_true_iff (ebc : EmergencyBlockchain F) (block : EmergencyBlock F) :
  VerifyBlock ebc block = Some true <->
  exists tip : EmergencyBlock F,
    GetLatestBlock ebc = Some tip /\
    blk_Index block = GoInt.add (blk_Index tip) 1 /\
    blk_PrevHash block = blk_Hash tip /\
    blk_MerkleRoot block = CalculateMerkleRoot block /\
    blk_Hash block = CalculateHash block /\
    (blk_TotalUrgency block =? CalculateTotalUrgency block)%f64 = true.
Proof.
  unfold emergency.VerifyBlock. split.
  - destruct (GetLatestBlock ebc) as [tip|]; [|discriminate].
    destruct (Z.eqb_spec (blk_Index block) (GoInt.add (blk_Index tip) 1)) as [Hi|]; [|discriminate].
    destruct (String.eqb_spec (blk_PrevHash block) (blk_Hash tip)) as [Hp|]; [|discriminate].
    destruct (String.eqb_spec (blk_MerkleRoot block) (CalculateMerkleRoot block)) as [Hm|];
      [|discriminate].
    destruct (String.eqb_spec (blk_Hash block) (CalculateHash block)) as [Hh|]; [|discriminate].
    simpl. destruct (feq (blk_TotalUrgency block) (CalculateTotalUrgency block)) eqn:Hu;
      [|discriminate].
    intros _. exists tip. repeat split; assumption.
  - intros (tip & -> & Hi & Hp & Hm & Hh & Hu).
    rewrite Hi, Z.eqb_refl. simpl. rewrite Hp, String.eqb_refl. simpl.
    rewrite <- Hm, String.eqb_refl. simpl. rewrite <- Hh, String.eqb_refl. simpl.
    rewrite Hu. reflexivity.
Qed.

End BlockFacts.

(** * The node's handlers *)

Section NodeFacts.
Context {F : Type} {Fops : Float64 F}.
Variable sha256_hex : string -> string.
Variable json_Marshal : Z -> string -> string -> string -> string.
Variable format_RFC3339Nano : Time -> string.

Local Abbreviation VerifyBlock := (VerifyBlock sha256_hex json_Marshal format_RFC3339Nano).
Local Abbreviation handlePrePrepare :=
  (handlePrePrepare sha256_hex json_Marshal format_RFC3339Nano).
Local Abbreviation ReceiveMessage := (ReceiveMessage sha256_hex json_Marshal format_RFC3339Nano).
Local Abbreviation ProposeEmergencyBlock :=
  (ProposeEmergencyBlock sha256_hex json_Marshal format_RFC3339Nano).
Local Abbreviation nodeStep := (nodeStep sha256_hex json_Marshal format_RFC3339Nano).
Local Abbreviation reachable := (reachable sha256_hex json_Marshal format_RFC3339Nano).

Lemma handlePrePrepare_chain (en en' : EmergencyNode F) (msg : ConsensusMessage F) (now : Time)
  (sent : list (Send (F := F))) :
  handlePrePrepare en msg now = Some (en', sent) -> chainOf en' = chainOf en.
Proof.
  unfold emergency.handlePrePrepare.
  destruct (en_IsValidator en); simpl.
  - destruct (VerifyBlock (en_Blockchain en) (msg_Block msg)) as [[|]|];
      intros Hx; inversion Hx; reflexivity.
  - intros Hx; inversion Hx; reflexivity.
Qed.

Lemma handlePrepare_chain (en : EmergencyNode F) (msg : ConsensusMessage F) (now : Time) :
  chainOf (fst (handlePrepare en msg now)) = chainOf en.
Proof.
  unfold handlePrepare.
  destruct (en_IsValidator en); simpl; [|reflexivity].
  match goal with |- context [if ?c then _ else _] => destruct c end; reflexivity.
Qed.

Lemma recordEmergencyInteractions_chain (en : EmergencyNode F) (block : EmergencyBlock F)
  (clock : nat -> Time) (rand_Float64 : nat -> F) :
  en_Blockchain (recordEmergencyInteractions en block clock rand_Float64) = en_Blockchain en.
Proof.
  unfold recordEmergencyInteractions. destruct (en_IsValidator en); reflexivity.
Qed.

(** A commit message leaves the chain as it is below the threshold and
    appends the message's block, unverified, from the threshold on. *)
Lemma handleCommit_chain (en : EmergencyNode F) (msg : ConsensusMessage F)
  (clock : nat -> Time) (rand_Float64 : nat -> F) :
  chainOf (handleCommit en msg clock rand_Float64) =
    if (countVotes (recordVote (en_commitVotes en) (msg_BlockHash msg) (msg_From msg))
                   (msg_BlockHash msg)
        >=? GoInt.add (GoInt.mul 2 (faultBudget (GetSize (en_ValidatorGroup en)))) 1)%Z
    then chainOf en ++ [msg_Block msg]
    else chainOf en.
Proof.
  unfold handleCommit. cbn [en_commitVotes withCommitVotes en_ValidatorGroup].
  match goal with |- context [if ?c then _ else _] => destruct c end; [|reflexivity].
  unfold chainOf. cbn [en_Blockchain withCommitVotes withPrepareVotes withPrePrepareReceived].
  rewrite recordEmergencyInteractions_chain. reflexivity.
Qed.

Lemma ProposeEmergencyBlock_chain (en en' : EmergencyNode F) (clock : nat -> Time)
  (sent : list (Send (F := F))) :
  ProposeEmergencyBlock en clock = Some (en', sent) -> chainOf en' = chainOf en.
Proof.
  unfold emergency.ProposeEmergencyBlock.
  destruct (en_IsValidator en); simpl; [|intros Hx; inversion Hx; reflexivity].
  destruct (Size (ebc_TxPool (en_Blockchain en)) =? 0)%Z; [intros Hx; inversion Hx; reflexivity|].
  destruct (GetTopKTransactions _ _) as [[txs pool]|]; [|discriminate].
  destruct (length txs =? 0)%nat; [intros Hx; inversion Hx; reflexivity|].
  destruct (GetLatestBlock _) as [tip|]; [|discriminate].
  destruct (handlePrePrepare _ _ _) as [[en1 sent1]|] eqn:Hpp; [|discriminate].
  intros Hx; inversion Hx; subst. apply handlePrePrepare_chain in Hpp. exact Hpp.
Qed.

(** What one step does to the chain. *)
Lemma nodeStep_chain (en en' : EmergencyNode F) :
  nodeStep en en' ->
  chainOf en' = chainOf en \/
  exists msg : ConsensusMessage F,
    msg_Type msg = Commit /\ chainOf en' = chainOf en ++ [msg_Block msg].
Proof.
  intros Hstep. destruct Hstep as [en msg clock rnd en' sent Hrecv|en clock en' sent Hprop|en tx|en|en peers].
  - unfold emergency.ReceiveMessage in Hrecv.
    destruct (Z.eqb_spec (msg_Type msg) PrePrepare).
    { left. eapply handlePrePrepare_chain; eauto. }
    destruct (Z.eqb_spec (msg_Type msg) Prepare).
    { left. injection Hrecv as Hrecv.
      pose proof (handlePrepare_chain en msg (clock 0%nat)) as Hc.
      rewrite Hrecv in Hc. exact Hc. }
    destruct (Z.eqb_spec (msg_Type msg) Commit) as [Hty|].
    { inversion Hrecv; subst. rewrite handleCommit_chain.
      match goal with |- context [if ?c then _ else _] => destruct c end; [right|left; reflexivity].
      exists msg. split; [exact Hty|reflexivity]. }
    inversion Hrecv; subst. left; reflexivity.
  - left. eapply ProposeEmergencyBlock_chain; eauto.
  - left; reflexivity.
  - left; reflexivity.
  - left; reflexivity.
Qed.

Lemma linked_app (chain : list (EmergencyBlock F)) (tip b : EmergencyBlock F) :
  linked chain -> List.last (map Some chain) None = Some tip ->
  blk_PrevHash b = blk_Hash tip -> blk_Index b = (blk_Index tip + 1)%Z ->
  linked (chain ++ [b]).
Proof.
  intros Hl Htip Hp Hi i prev cur Hprev Hcur.
  destruct chain as [|c chain'] using rev_ind; [discriminate|]. clear IHchain'.
  rewrite map_app in Htip. simpl in Htip. rewrite last_last in Htip. inversion Htip; subst c.
  destruct (decide (S i < length (chain' ++ [tip]))%nat) as [Hlt|Hge].
  - rewrite lookup_app_l in Hprev by lia. rewrite lookup_app_l in Hcur by lia. eauto.
  - assert (S i = length (chain' ++ [tip])) as Hlen.
    { apply lookup_lt_Some in Hcur. rewrite length_app in Hcur. simpl in Hcur. lia. }
    rewrite lookup_app_r in Hcur by lia. rewrite Hlen, Nat.sub_diag in Hcur.
    inversion Hcur; subst cur.
    rewrite lookup_app_l in Hprev by lia.
    rewrite length_app in Hlen. simpl in Hlen.
    rewrite lookup_app_r in Hprev by lia.
    replace (i - length chain')%nat with 0%nat in Hprev by lia.
    inversion Hprev; subst prev. auto.
Qed.

(** C9. On an announcement, a node that is not a validator changes nothing
    and sends nothing; so does a validator whose [VerifyBlock] rejects the
    block (chain, announcements and vote tables are as before, no
    endorsement leaves); a validator whose [VerifyBlock] accepts the block
    records the announcement under the block hash and sends one [Prepare]
    to each peer that is a validator and not itself, chain and vote tables
    unchanged. *)
Theorem handlePrePrepare_announce (en : EmergencyNode F) (msg : ConsensusMessage F) (now : Time) :
  (en_IsValidator en = false -> handlePrePrepare en msg now = Some (en, [])) /\
  (en_IsValidator en = true -> VerifyBlock (en_Blockchain en) (msg_Block msg) = Some false ->
   handlePrePrepare en msg now = Some (en, [])) /\
  (en_IsValidator en = true -> VerifyBlock (en_Blockchain en) (msg_Block msg) = Some true ->
   exists en' : EmergencyNode F,
     let prepareMsg := {| msg_Type := Prepare;
                          msg_BlockHash := msg_BlockHash msg;
                          msg_Block := msg_Block msg;
                          msg_From := en_ID en;
                          msg_Timestamp := now |} in
     handlePrePrepare en msg now =
       Some (en', map (fun peer => (peer_ID peer, prepareMsg))
                      (List.filter (fun peer => negb (String.eqb (peer_ID peer) (en_ID en))
                                                && peer_IsValidator peer)
                                   (en_Peers en))) /\
     en_prePrepareReceived en' = <[msg_BlockHash msg := msg]> (en_prePrepareReceived en) /\
     en_Blockchain en' = en_Blockchain en /\
     en_prepareVotes en' = en_prepareVotes en /\
     en_commitVotes en' = en_commitVotes en /\
     en_ReputationManager en' = en_ReputationManager en).
Proof.
  unfold emergency.handlePrePrepare. repeat split.
  - intros ->. reflexivity.
  - intros -> ->. reflexivity.
  - intros -> ->. simpl.
    exists (withPrePrepareReceived en (<[msg_BlockHash msg := msg]> (en_prePrepareReceived en))).
    split; [|repeat split; reflexivity].
    f_equal. f_equal. unfold BroadcastToValidators. cbn [en_Peers en_ID withPrePrepareReceived].
    induction (en_Peers en) as [|peer peers IH]; [reflexivity|].
    simpl. rewrite IH.
    destruct (negb (String.eqb (peer_ID peer) (en_ID en)) && peer_IsValidator peer); reflexivity.
Qed.

End NodeFacts.

(** * The chain of a node *)

Section ChainFacts.
Context {F : Type} {Fops : Float64 F}.

Lemma ReceiveMessage_Commit (sha256_hex : string -> string)
  (json_Marshal : Z -> string -> string -> string -> string)
  (format_RFC3339Nano : Time -> string)
  (en : EmergencyNode F) (msg : ConsensusMessage F) (clock : nat -> Time) (rand_Float64 : nat -> F) :
  msg_Type msg = Commit ->
  ReceiveMessage sha256_hex json_Marshal format_RFC3339Nano en msg clock rand_Float64 =
    Some (handleCommit en msg clock rand_Float64, []).
Proof. intros Hty. unfold ReceiveMessage. rewrite Hty. reflexivity. Qed.

Lemma reachable_genesis (sha256_hex : string -> string)
  (json_Marshal : Z -> string -> string -> string -> string)
  (format_RFC3339Nano : Time -> string)
  (en0 en : EmergencyNode F) (g : EmergencyBlock F) (rest0 : list (EmergencyBlock F)) :
  chainOf en0 = g :: rest0 ->
  reachable sha256_hex json_Marshal format_RFC3339Nano en0 en ->
  exists rest : list (EmergencyBlock F), chainOf en = g :: rest.
Proof.
  intros H0 Hr. induction Hr as [|en en' _ [rest IH] Hstep]; [eauto|].
  apply nodeStep_chain in Hstep. destruct Hstep as [Heq|(msg & _ & Heq)]; rewrite Heq, IH.
  - eauto.
  - exists (rest ++ [msg_Block msg]). reflexivity.
Qed.

(** What a received message does to the chain: only a commit message whose
    vote reaches the threshold [2f + 1] changes it, by appending the block
    the message carries. *)
Lemma ReceiveMessage_chain (sha256_hex : string -> string)
  (json_Marshal : Z -> string -> string -> string -> string)
  (format_RFC3339Nano : Time -> string)
  (en en' : EmergencyNode F) (msg : ConsensusMessage F) (clock : nat -> Time)
  (rand_Float64 : nat -> F) (sent : list (Send (F := F))) :
  ReceiveMessage sha256_hex json_Marshal format_RFC3339Nano en msg clock rand_Float64
    = Some (en', sent) ->
  chainOf en' =
    if (msg_Type msg =? Commit)%Z &&
       (countVotes (recordVote (en_commitVotes en) (msg_BlockHash msg) (msg_From msg))
                   (msg_BlockHash msg)
        >=? GoInt.add (GoInt.mul 2 (faultBudget (GetSize (en_ValidatorGroup en)))) 1)%Z
    then chainOf en ++ [msg_Block msg]
    else chainOf en.
Proof.
  intros Hrecv. unfold emergency.ReceiveMessage in Hrecv.
  destruct (Z.eqb_spec (msg_Type msg) PrePrepare) as [Hpp|_].
  { rewrite Hpp. cbn [Z.eqb andb]. eapply handlePrePrepare_chain; eauto. }
  destruct (Z.eqb_spec (msg_Type msg) Prepare) as [Hp|_].
  { rewrite Hp. cbn [Z.eqb andb]. injection Hrecv as Hrecv.
    pose proof (handlePrepare_chain en msg (clock 0%nat)) as Hc.
    rewrite Hrecv in Hc. exact Hc. }
  destruct (Z.eqb_spec (msg_Type msg) Commit) as [Hty|_].
  { inversion Hrecv; subst. cbn [andb]. apply handleCommit_chain. }
  inversion Hrecv; subst. reflexivity.
Qed.

(** X29. The growth of a node's chain. From a new node on a new blockchain,
    every reachable chain starts with the genesis block (index 0, previous
    hash "0", hash "genesis", no transactions). A received message changes
    the chain exactly when it is a commit message whose vote, once
    recorded, brings the votes for its block hash to [2f + 1] or more, and
    then the block it carries is appended at the end, unverified; a step
    that changes the chain is such a commit; a proposal never changes the
    chain. Appending a block keeps a linked chain linked when the block
    names the tip's hash and the tip's index plus one. *)
Theorem chain_genesis_and_growth (sha256_hex : string -> string)
  (json_Marshal : Z -> string -> string -> string -> string)
  (format_RFC3339Nano : Time -> string)
  (id : string) (urgencyCfg : UrgencyConfig F) (blockSize : Z) (blockPeriod : Duration)
  (t0 : Time) (rm : ReputationManager F) (vg : ValidatorGroup F) :
  let en0 := NewEmergencyNode id (NewEmergencyBlockchain urgencyCfg blockSize blockPeriod t0) rm vg in
  isGenesis (genesisBlock (F := F) t0) /\
  linked (chainOf en0) /\
  (forall en : EmergencyNode F,
     reachable sha256_hex json_Marshal format_RFC3339Nano en0 en ->
     exists rest : list (EmergencyBlock F), chainOf en = genesisBlock t0 :: rest) /\
  (forall (en en' : EmergencyNode F) (msg : ConsensusMessage F) (clock : nat -> Time)
          (rand_Float64 : nat -> F) (sent : list (Send (F := F))),
     ReceiveMessage sha256_hex json_Marshal format_RFC3339Nano en msg clock rand_Float64
       = Some (en', sent) ->
     chainOf en' =
       if (msg_Type msg =? Commit)%Z &&
          (countVotes (recordVote (en_commitVotes en) (msg_BlockHash msg) (msg_From msg))
                      (msg_BlockHash msg)
           >=? GoInt.add (GoInt.mul 2 (faultBudget (GetSize (en_ValidatorGroup en)))) 1)%Z
       then chainOf en ++ [msg_Block msg]
       else chainOf en) /\
  (forall en en' : EmergencyNode F,
     nodeStep sha256_hex json_Marshal format_RFC3339Nano en en' ->
     chainOf en' = chainOf en \/
     exists (msg : ConsensusMessage F) (clock : nat -> Time) (rand_Float64 : nat -> F),
       msg_Type msg = Commit /\
       en' = handleCommit en msg clock rand_Float64 /\
       (countVotes (recordVote (en_commitVotes en) (msg_BlockHash msg) (msg_From msg))
                   (msg_BlockHash msg)
        >=? GoInt.add (GoInt.mul 2 (faultBudget (GetSize (en_ValidatorGroup en)))) 1)%Z = true /\
       chainOf en' = chainOf en ++ [msg_Block msg]) /\
  (forall (en en' : EmergencyNode F) (clock : nat -> Time) (sent : list (Send (F := F))),
     ProposeEmergencyBlock sha256_hex json_Marshal format_RFC3339Nano en clock = Some (en', sent) ->
     chainOf en' = chainOf en) /\
  (forall (chain : list (EmergencyBlock F)) (tip b : EmergencyBlock F),
     linked chain -> List.last (map Some chain) None = Some tip ->
     blk_PrevHash b = blk_Hash tip -> blk_Index b = (blk_Index tip + 1)%Z ->
     linked (chain ++ [b])).
Proof.
  intros en0. split; [|split; [|split; [|split; [|split; [|split]]]]].
  - repeat split; reflexivity.
  - intros i prev cur Hprev Hcur. destruct i; discriminate.
  - intros en Hr. eapply reachable_genesis; [|exact Hr]. reflexivity.
  - intros en en' msg clock rand_Float64 sent. apply ReceiveMessage_chain.
  - intros en en' Hstep.
    destruct Hstep as [en msg clock rnd en' sent Hrecv|en clock en' sent Hprop|en tx|en|en peers];
      try (left; reflexivity).
    + pose proof (ReceiveMessage_chain _ _ _ _ _ _ _ _ _ Hrecv) as Hchain.
      destruct (Z.eqb_spec (msg_Type msg) Commit) as [Hty|Hty]; [|left; exact Hchain].
      cbn [andb] in Hchain.
      destruct (countVotes _ _ >=? _)%Z eqn:Hq; [|left; exact Hchain].
      right. exists msg, clock, rnd. split; [exact Hty|]. split; [|split; [exact Hq|exact Hchain]].
      rewrite (ReceiveMessage_Commit _ _ _ _ _ _ _ Hty) in Hrecv. congruence.
    + left. eapply ProposeEmergencyBlock_chain; eauto.
  - intros en en' clock sent. apply ProposeEmergencyBlock_chain.
  - intros chain tip b. apply linked_app.
Qed.

End ChainFacts.

(** C5 on the code. A validator of a committee of four ([f = 1], threshold
    [2f + 1 = 3]), on a new node and blockchain, receives the commit
    messages of its three peers for block 1, and then the second commit
    message of each of them (a validator broadcasts Commit at every
    endorsement from the threshold [f + 1] on). After the first three the
    chain is [genesis; block 1], which is linked, and the votes for the
    block are cleared; the second three reach the threshold again, the
    block is appended once more, and the chain [genesis; block 1; block 1],
    a reachable state, is not linked. *)
Theorem double_commit_breaks_the_link :
  (forall (sha256_hex : string -> string)
          (json_Marshal : Z -> string -> string -> string -> string)
          (format_RFC3339Nano : Time -> string),
     reachable sha256_hex json_Marshal format_RFC3339Nano DoubleCommit.node0 DoubleCommit.node6) /\
  chainOf DoubleCommit.node6 =
    [genesisBlock 0; DoubleCommit.block1; DoubleCommit.block1] /\
  ~ linked (chainOf DoubleCommit.node6) /\
  (let node3 := foldl DoubleCommit.receive (UpdateValidatorStatus DoubleCommit.node0)
                      (take 3 DoubleCommit.senders) in
   chainOf node3 = [genesisBlock 0; DoubleCommit.block1] /\
   linked (chainOf node3) /\
   en_commitVotes node3 !! "h1"%string = None /\
   DoubleCommit.node6 = foldl DoubleCommit.receive node3 (drop 3 DoubleCommit.senders)).
Proof.
  assert (chainOf DoubleCommit.node6 =
            [genesisBlock 0; DoubleCommit.block1; DoubleCommit.block1]) as Hchain.
  { vm_compute. reflexivity. }
  split; [|split; [exact Hchain|split]].
  - intros sha256_hex json_Marshal format_RFC3339Nano.
    unfold DoubleCommit.node6, DoubleCommit.senders. cbn [foldl].
    repeat (eapply reachable_step;
            [|eapply step_receive; apply ReceiveMessage_Commit; reflexivity]).
    eapply reachable_step; [apply reachable_start|apply step_status].
  - rewrite Hchain. intros Hl.
    destruct (Hl 1%nat DoubleCommit.block1 DoubleCommit.block1 eq_refl eq_refl) as [_ Hi].
    discriminate Hi.
  - cbv zeta.
    assert (chainOf (foldl DoubleCommit.receive (UpdateValidatorStatus DoubleCommit.node0)
                           (take 3 DoubleCommit.senders)) =
              [genesisBlock 0; DoubleCommit.block1]) as Hthree by (vm_compute; reflexivity).
    split; [exact Hthree|]. split; [|split].
    + rewrite Hthree. intros i prev cur Hprev Hcur.
      destruct i as [|[|i]]; [|discriminate Hcur|discriminate Hcur].
      injection Hprev as <-. injection Hcur as <-. split; reflexivity.
    + vm_compute. reflexivity.
    + reflexivity.
Qed.

(** * The priority mempool *)

Section PoolFacts.
Context {F : Type} {Fops : Float64 F}.

Lemma bubblePass_perm (m : nat) (l : list (EmergencyTransaction F)) :
  Permutation (bubblePass m l) l.
Proof.
  revert l. induction m as [|m IH]; intros l; [destruct l; reflexivity|].
  destruct l as [|a [|b r]]; try reflexivity. simpl.
  destruct (tx_UrgencyDegree a <? tx_UrgencyDegree b)%f64.
  - rewrite IH. apply perm_swap.
  - rewrite IH. reflexivity.
Qed.

Lemma bubblePass_length (m : nat) (l : list (EmergencyTransaction F)) :
  length (bubblePass m l) = length l.
Proof. apply Permutation_length, bubblePass_perm. Qed.

Lemma bubbleSort_perm (l : list (EmergencyTransaction F)) : Permutation (bubbleSort l) l.
Proof.
  unfold bubbleSort. generalize (seq 0 (length l - 1)). intros idx.
  revert l. induction idx as [|i idx IH]; intros l; [reflexivity|].
  simpl. rewrite IH. apply bubblePass_perm.
Qed.

Lemma bubbleSort_length (l : list (EmergencyTransaction F)) : length (bubbleSort l) = length l.
Proof. apply Permutation_length, bubbleSort_perm. Qed.

(** The set [toRemove] of [RemoveTransactions]. *)
Lemma toRemove_lookup (txs : list (EmergencyTransaction F)) (m : gmap string bool) (id : string) :
  foldl (fun toRemove tx => <[tx_ID tx := true]> toRemove) m txs !! id =
    if existsb (String.eqb id) (map tx_ID txs) then Some true else m !! id.
Proof.
  revert m. induction txs as [|tx txs IH]; intros m; [reflexivity|].
  simpl. rewrite IH. destruct (existsb (String.eqb id) (map tx_ID txs)).
  - rewrite orb_true_r. reflexivity.
  - rewrite orb_false_r. destruct (String.eqb_spec id (tx_ID tx)) as [->|Hne].
    + apply lookup_insert_eq.
    + apply lookup_insert_ne. congruence.
Qed.

Lemma RemoveTransactions_filter (pool : TransactionPool F) (txs : list (EmergencyTransaction F)) :
  transactions (RemoveTransactions pool txs) =
    List.filter (fun tx => negb (hasIDof txs tx)) (transactions pool).
Proof.
  unfold RemoveTransactions. cbn [transactions].
  induction (transactions pool) as [|tx l IH]; [reflexivity|].
  rewrite filter_cons. simpl List.filter. rewrite <- IH. unfold hasIDof.
  rewrite toRemove_lookup, lookup_empty.
  destruct (existsb (String.eqb (tx_ID tx)) (map tx_ID txs)); simpl negb; simpl default.
  - rewrite decide_False by discriminate. reflexivity.
  - rewrite decide_True by reflexivity. reflexivity.
Qed.

Lemma hasIDof_true (txs : list (EmergencyTransaction F)) (tx : EmergencyTransaction F) :
  hasIDof txs tx = true <-> In (tx_ID tx) (map tx_ID txs).
Proof.
  unfold hasIDof. rewrite existsb_exists. split.
  - intros (id & Hin & Heq). apply String.eqb_eq in Heq. subst. exact Hin.
  - intros Hin. exists (tx_ID tx). split; [exact Hin|apply String.eqb_refl].
Qed.

Lemma filter_hasIDof_all (txs l : list (EmergencyTransaction F)) :
  (forall tx, In tx l -> In (tx_ID tx) (map tx_ID txs)) ->
  List.filter (fun tx => negb (hasIDof txs tx)) l = [].
Proof.
  induction l as [|tx l IH]; intros Hall; [reflexivity|].
  simpl. destruct (hasIDof txs tx) eqn:Hh.
  - simpl. apply IH. intros tx' Hin. apply Hall. right; exact Hin.
  - exfalso. assert (hasIDof txs tx = true) as Ht; [|congruence].
    apply hasIDof_true, Hall. left; reflexivity.
Qed.

Lemma filter_hasIDof_none (txs l : list (EmergencyTransaction F)) :
  (forall tx, In tx l -> ~ In (tx_ID tx) (map tx_ID txs)) ->
  List.filter (fun tx => negb (hasIDof txs tx)) l = l.
Proof.
  induction l as [|tx l IH]; intros Hnone; [reflexivity|].
  simpl. destruct (hasIDof txs tx) eqn:Hh.
  - exfalso. apply (Hnone tx); [left; reflexivity|]. apply hasIDof_true, Hh.
  - simpl. f_equal. apply IH. intros tx' Hin. apply Hnone. right; exact Hin.
Qed.

Lemma filter_length_perm (p : EmergencyTransaction F -> bool) (l l' : list (EmergencyTransaction F)) :
  Permutation l l' -> length (List.filter p l) = length (List.filter p l').
Proof.
  induction 1 as [|x l l' _ IH|x y l|l l' l'' _ IH1 _ IH2]; simpl.
  - reflexivity.
  - destruct (p x); simpl; congruence.
  - destruct (p x), (p y); reflexivity.
  - congruence.
Qed.

(** With identifiers that are pairwise distinct, removing a part of a
    rearrangement of the pool removes as many transactions as the part
    has. *)
Lemma remove_part_length (pool result rest : list (EmergencyTransaction F)) :
  Permutation (result ++ rest) pool ->
  NoDup (map tx_ID pool) ->
  length (List.filter (fun tx => negb (hasIDof result tx)) pool) = (length pool - length result)%nat.
Proof.
  intros Hperm Hnd.
  rewrite <- (filter_length_perm _ _ _ Hperm).
  rewrite <- (Permutation_length Hperm).
  assert (NoDup (map tx_ID result ++ map tx_ID rest)) as Hnd'.
  { rewrite <- map_app. rewrite (Permutation_map tx_ID Hperm). exact Hnd. }
  rewrite List.filter_app, filter_hasIDof_all, filter_hasIDof_none.
  - simpl. rewrite length_app. lia.
  - intros tx Hin Hin'. apply NoDup_app in Hnd'. destruct Hnd' as (_ & Hdisj & _).
    apply (Hdisj (tx_ID tx)).
    + apply list_elem_of_In. exact Hin'.
    + apply list_elem_of_In, in_map. exact Hin.
  - intros tx Hin. apply in_map. exact Hin.
Qed.

(** What [GetTopKTransactions] returns, when it returns. *)
Lemma GetTopKTransactions_Some (pool : TransactionPool F) (k : Z)
  (result : list (EmergencyTransaction F)) (pool' : TransactionPool F) :
  GetTopKTransactions pool k = Some (result, pool') ->
  exists n : nat,
    result = firstn n (bubbleSort (transactions pool)) /\
    transactions pool' = List.filter (fun tx => negb (hasIDof result tx)) (transactions pool).
Proof.
  unfold GetTopKTransactions.
  destruct (Nat.eqb_spec (length (transactions pool)) 0) as [Hlen|Hlen].
  - intros Hx; inversion Hx; subst. exists 0%nat. split; [reflexivity|].
    apply length_zero_iff_nil in Hlen. rewrite Hlen. reflexivity.
  - match goal with |- context [if (?a <? 0)%Z then _ else _] => destruct (a <? 0)%Z end;
      [discriminate|].
    intros Hx; inversion Hx; subst. eexists. split; [reflexivity|].
    apply RemoveTransactions_filter.
Qed.

(** C10. [GetTopKTransactions] leaves in the pool exactly the transactions
    whose identifier is not the identifier of a returned transaction; a pool
    that holds one identifier twice can therefore shrink by more than the
    number returned ([Twins.pool] loses two transactions for one returned);
    and when the identifiers of the pool are pairwise distinct the pool
    shrinks by exactly the number returned. *)
Theorem GetTopKTransactions_removes_by_ID :
  (forall (pool : TransactionPool F) (k : Z) (result : list (EmergencyTransaction F))
          (pool' : TransactionPool F),
     GetTopKTransactions pool k = Some (result, pool') ->
     transactions pool' =
       List.filter (fun tx => negb (hasIDof result tx)) (transactions pool)) /\
  (GetTopKTransactions Twins.pool 1 = Some ([Twins.twin], NewTransactionPool) /\
   (length (transactions (NewTransactionPool (F := F)))
    < length (transactions Twins.pool) - length [Twins.twin])%nat) /\
  (forall (pool : TransactionPool F) (k : Z) (result : list (EmergencyTransaction F))
          (pool' : TransactionPool F),
     GetTopKTransactions pool k = Some (result, pool') ->
     NoDup (map tx_ID (transactions pool)) ->
     length (transactions pool') = (length (transactions pool) - length result)%nat).
Proof.
  split; [|split].
  - intros pool k result pool' Hget.
    destruct (GetTopKTransactions_Some _ _ _ _ Hget) as (n & _ & Hpool). exact Hpool.
  - split; [|simpl; lia].
    unfold GetTopKTransactions, Twins.pool, bubbleSort. simpl.
    destruct (of_int 1 <? of_int 1)%f64; reflexivity.
  - intros pool k result pool' Hget Hnd.
    destruct (GetTopKTransactions_Some _ _ _ _ Hget) as (n & Hres & Hpool).
    rewrite Hpool. apply remove_part_length with (rest := skipn n (bubbleSort (transactions pool)));
      [|exact Hnd].
    rewrite Hres, firstn_skipn. apply bubbleSort_perm.
Qed.

End PoolFacts.

(** The bubble sort of urgencies that are not NaN, which [<] orders:
    the comparison is asymmetric and its complement is transitive. *)
Section PoolOrder.
Context {F : Type} {Fops : Float64 F} {Ford : Float64Order F}.

Lemma flt_irrefl (x : F) : (x <? x)%f64 = false.
Proof using Ford.
  destruct (x <? x)%f64 eqn:Hx; [|reflexivity]. rewrite <- Hx at 1. apply flt_asym, Hx.
Qed.

Lemma notBelow_refl (a : EmergencyTransaction F) : notBelow a a.
Proof using Ford. apply flt_irrefl. Qed.

Lemma notBelow_trans (a b c : EmergencyTransaction F) :
  isNaN (tx_UrgencyDegree b) = false -> notBelow a b -> notBelow b c -> notBelow a c.
Proof using Ford. apply flt_negtrans. Qed.

Lemma bubblePass_numeric (m : nat) (l : list (EmergencyTransaction F)) :
  numericUrgencies l -> numericUrgencies (bubblePass m l).
Proof. apply Permutation_Forall. symmetry. apply bubblePass_perm. Qed.

Lemma bubbleSort_numeric (l : list (EmergencyTransaction F)) :
  numericUrgencies l -> numericUrgencies (bubbleSort l).
Proof. apply Permutation_Forall. symmetry. apply bubbleSort_perm. Qed.

(** One pass over the first [m + 1] positions leaves at position [m] a
    transaction that none of them is below, and does not touch the
    positions after [m]. *)
Lemma bubblePass_sinks (m : nat) (l : list (EmergencyTransaction F)) :
  numericUrgencies l ->
  (m < length l)%nat ->
  exists (p : list (EmergencyTransaction F)) (x : EmergencyTransaction F),
    bubblePass m l = p ++ x :: skipn (S m) l /\
    Permutation (p ++ [x]) (firstn (S m) l) /\
    Forall (fun y => notBelow y x) (firstn (S m) l).
Proof using Ford.
  revert l. induction m as [|m IH]; intros l Hnum Hlen.
  - destruct l as [|a r]; [simpl in Hlen; lia|].
    exists [], a. simpl. repeat split; [reflexivity|].
    constructor; [apply notBelow_refl|constructor].
  - destruct l as [|a [|b r]]; try (simpl in Hlen; lia).
    apply Forall_cons in Hnum. destruct Hnum as [Ha Hnum].
    apply Forall_cons in Hnum. destruct Hnum as [Hb Hr].
    cbn [bubblePass]. destruct (tx_UrgencyDegree a <? tx_UrgencyDegree b)%f64 eqn:Hab.
    + destruct (IH (a :: r)) as (p & x & Heq & Hperm & Hall);
        [constructor; assumption|simpl in *; lia|].
      exists (b :: p), x. rewrite Heq. split; [reflexivity|]. split.
      * cbn [firstn] in *. cbn [app]. rewrite Hperm. apply perm_swap.
      * cbn [firstn] in *. inversion Hall as [|? ? Hax Hrx]; subst.
        constructor; [exact Hax|]. constructor; [|exact Hrx].
        apply notBelow_trans with a; [exact Ha| |exact Hax]. apply flt_asym, Hab.
    + destruct (IH (b :: r)) as (p & x & Heq & Hperm & Hall);
        [constructor; assumption|simpl in *; lia|].
      exists (a :: p), x. rewrite Heq. split; [reflexivity|]. split.
      * cbn [firstn] in *. cbn [app]. rewrite Hperm. reflexivity.
      * cbn [firstn] in *. inversion Hall as [|? ? Hbx Hrx]; subst.
        constructor; [|constructor; [exact Hbx|exact Hrx]].
        apply notBelow_trans with b; [exact Hb|exact Hab|exact Hbx].
Qed.

Lemma settled_pass (i : nat) (s : list (EmergencyTransaction F)) :
  numericUrgencies s ->
  (S i < length s)%nat -> settled i s ->
  settled (S i) (bubblePass (length s - i - 1) s).
Proof using Ford.
  intros Hnum Hlen (q & t & -> & Ht & Hsorted & Hqt).
  rewrite length_app in *.
  destruct (bubblePass_sinks (length q + length t - i - 1) (q ++ t) Hnum)
    as (p & x & Heq & Hperm & Hall).
  { rewrite length_app. lia. }
  replace (S (length q + length t - i - 1)) with (length q) in * by lia.
  rewrite take_app_length in Hperm, Hall. rewrite drop_app_length in Heq.
  exists p, (x :: t). rewrite Heq. split; [reflexivity|]. split; [simpl; lia|].
  assert (In x q) as Hx.
  { apply (Permutation_in _ Hperm), in_or_app. right; left; reflexivity. }
  split.
  - constructor; [exact Hsorted|].
    rewrite List.Forall_forall in Hqt. apply Hqt, Hx.
  - rewrite List.Forall_forall in *. intros y Hy.
    assert (In y q) as Hyq.
    { apply (Permutation_in _ Hperm), in_or_app. left; exact Hy. }
    constructor; [apply Hall, Hyq|]. apply Hqt, Hyq.
Qed.

Lemma settled_loop (cnt i : nat) (s : list (EmergencyTransaction F)) :
  numericUrgencies s ->
  (i + cnt = length s - 1)%nat -> settled i s ->
  settled (length s - 1)
          (foldl (fun sorted i => bubblePass (length sorted - i - 1) sorted) s (seq i cnt)).
Proof using Ford.
  revert i s. induction cnt as [|cnt IH]; intros i s Hnum Hcnt Hs.
  - simpl. replace (length s - 1)%nat with i by lia. exact Hs.
  - cbn [seq foldl].
    pose proof (settled_pass i s Hnum ltac:(lia) Hs) as Hs'.
    pose proof (bubblePass_length (length s - i - 1) s) as Hl.
    specialize (IH (S i) _ (bubblePass_numeric _ _ Hnum) ltac:(rewrite Hl; lia) Hs').
    rewrite Hl in IH. exact IH.
Qed.

Lemma bubbleSort_sorted (l : list (EmergencyTransaction F)) :
  numericUrgencies l -> StronglySorted notBelow (bubbleSort l).
Proof using Ford.
  intros Hnum. destruct l as [|a l]; [constructor|].
  pose proof (settled_loop (length (a :: l) - 1) 0 (a :: l) Hnum ltac:(lia)) as Hloop.
  fold (bubbleSort (a :: l)) in Hloop.
  destruct Hloop as (q & t & Heq & Ht & Hsorted & Hqt).
  { exists (a :: l), []. rewrite app_nil_r. repeat split; [constructor|].
    apply List.Forall_forall. intros; constructor. }
  pose proof (bubbleSort_length (a :: l)) as Hlen. rewrite Heq in *.
  rewrite length_app in Hlen. simpl in Ht, Hlen.
  destruct q as [|y [|y' q]]; simpl in Hlen; try lia.
  simpl. constructor; [exact Hsorted|]. inversion Hqt; subst. assumption.
Qed.

(** A swap exchanges two neighbours that the comparison separates, so the
    transactions of one urgency keep their order: the sort is stable. *)
Lemma bubblePass_stable (u : F) (m : nat) (l : list (EmergencyTransaction F)) :
  isNaN u = false ->
  List.filter (sameUrgency u) (bubblePass m l) = List.filter (sameUrgency u) l.
Proof using Ford.
  intros Hu. revert l. induction m as [|m IH]; intros l; [destruct l; reflexivity|].
  destruct l as [|a [|b r]]; try reflexivity. cbn [bubblePass].
  destruct (tx_UrgencyDegree a <? tx_UrgencyDegree b)%f64 eqn:Hab.
  - cbn [List.filter]. rewrite IH. cbn [List.filter].
    destruct (sameUrgency u a) eqn:Ha, (sameUrgency u b) eqn:Hb; try reflexivity.
    exfalso. unfold sameUrgency in Ha, Hb.
    apply andb_true_iff in Ha, Hb. destruct Ha as [Ha _], Hb as [_ Hb].
    apply negb_true_iff in Ha, Hb.
    rewrite (flt_negtrans _ _ _ Hu Ha Hb) in Hab. discriminate.
  - cbn [List.filter]. rewrite IH. reflexivity.
Qed.

Lemma bubbleSort_stable (u : F) (l : list (EmergencyTransaction F)) :
  isNaN u = false ->
  List.filter (sameUrgency u) (bubbleSort l) = List.filter (sameUrgency u) l.
Proof using Ford.
  intros Hu. unfold bubbleSort. generalize (seq 0 (length l - 1)). intros idx.
  revert l. induction idx as [|i idx IH]; intros l; [reflexivity|].
  simpl. rewrite IH. apply bubblePass_stable, Hu.
Qed.

(** Among urgencies that are not NaN, [==] singles out the transactions
    that [<] does not separate from [u]; no urgency is equal to NaN. *)
Lemma feq_sameUrgency (u : F) (tx : EmergencyTransaction F) :
  isNaN (tx_UrgencyDegree tx) = false ->
  (tx_UrgencyDegree tx =? u)%f64 = negb (isNaN u) && sameUrgency u tx.
Proof using Ford.
  intros Htx. rewrite feq_flt, Htx. unfold sameUrgency. cbn [negb andb].
  destruct (isNaN u); reflexivity.
Qed.

Lemma filter_feq_stable (u : F) (l l' : list (EmergencyTransaction F)) :
  numericUrgencies l -> numericUrgencies l' ->
  (isNaN u = false -> List.filter (sameUrgency u) l = List.filter (sameUrgency u) l') ->
  List.filter (fun tx => (tx_UrgencyDegree tx =? u)%f64) l =
  List.filter (fun tx => (tx_UrgencyDegree tx =? u)%f64) l'.
Proof using Ford.
  intros Hl Hl' Hsame.
  assert (forall s : list (EmergencyTransaction F),
            numericUrgencies s ->
            List.filter (fun tx => (tx_UrgencyDegree tx =? u)%f64) s =
            List.filter (fun tx => negb (isNaN u) && sameUrgency u tx) s) as Hext.
  { intros s Hs. apply List.filter_ext_in. intros tx Hin.
    apply feq_sameUrgency. unfold numericUrgencies in Hs.
    rewrite List.Forall_forall in Hs. apply Hs, Hin. }
  rewrite (Hext l Hl), (Hext l' Hl').
  destruct (isNaN u).
  - cbn [negb andb]. clear. induction l as [|x l IH]; induction l' as [|y l' IH'];
      cbn [List.filter]; auto.
  - cbn [negb andb]. apply Hsame. reflexivity.
Qed.

End PoolOrder.

(** ** Orders that imply one another *)

Lemma StronglySorted_weaken {A : Type} (R1 R2 : A -> A -> Prop) (l : list A) :
  (forall a b : A, R1 a b -> R2 a b) -> StronglySorted R1 l -> StronglySorted R2 l.
Proof.
  intros Himp Hs. induction Hs as [|a l _ IH Hall]; constructor; [exact IH|].
  eapply List.Forall_impl; [|exact Hall]. intros b. apply Himp.
Qed.

(** The same between elements that satisfy [P]. *)
Lemma StronglySorted_weaken_on {A : Type} (P : A -> Prop) (R1 R2 : A -> A -> Prop) (l : list A) :
  Forall P l -> (forall a b : A, P a -> P b -> R1 a b -> R2 a b) ->
  StronglySorted R1 l -> StronglySorted R2 l.
Proof.
  intros HP Himp Hs. induction Hs as [|a l _ IH Hall]; [constructor|].
  apply Forall_cons in HP. destruct HP as [Ha Hl].
  constructor; [apply IH, Hl|].
  rewrite List.Forall_forall in *. intros b Hb. apply Himp; auto.
Qed.

(** ** [GetTopKTransactions] *)

(** C3, as the code has it, on every reading of [float64] whose comparisons
    keep the laws of [Float64Order] (the real numbers and binary64 do). Let
    no urgency in the pool be NaN and [k >= 0]. Then the call returns:
    [result] holds [min(k, size)] transactions; [result] followed by some
    [rest] is a rearrangement of the pool in non-increasing urgency, so no
    transaction left behind is more urgent than a returned one;
    transactions of equal urgency keep the order in which they stand in the
    pool; the pool keeps the transactions whose identifier is not that of a
    returned one, and shrinks by exactly the number returned when the
    identifiers of the pool are pairwise distinct. *)
Theorem GetTopKTransactions_top_k {F : Type} {Fops : Float64 F} {Ford : Float64Order F}
  (pool : TransactionPool F) (k : Z) :
  (0 <= k)%Z ->
  numericUrgencies (transactions pool) ->
  exists (result rest : list (EmergencyTransaction F)) (pool' : TransactionPool F),
    GetTopKTransactions pool k = Some (result, pool') /\
    length result = Nat.min (Z.to_nat k) (length (transactions pool)) /\
    Permutation (result ++ rest) (transactions pool) /\
    StronglySorted atLeast (result ++ rest) /\
    (forall u : F,
       List.filter (fun tx => (tx_UrgencyDegree tx =? u)%f64) (result ++ rest) =
       List.filter (fun tx => (tx_UrgencyDegree tx =? u)%f64) (transactions pool)) /\
    transactions pool' = List.filter (fun tx => negb (hasIDof result tx)) (transactions pool) /\
    (NoDup (map tx_ID (transactions pool)) ->
     Size pool' = (Size pool - Z.of_nat (length result))%Z).
Proof.
  intros Hk Hnum.
  set (sorted := bubbleSort (transactions pool)).
  set (n := Nat.min (Z.to_nat k) (length (transactions pool))).
  assert (GetTopKTransactions pool k =
            Some (firstn n sorted, RemoveTransactions pool (firstn n sorted))) as Hget.
  { assert (length sorted = length (transactions pool)) as Hls by apply bubbleSort_length.
    unfold GetTopKTransactions. fold sorted. cbv zeta. rewrite !Hls.
    destruct (Nat.eqb_spec (length (transactions pool)) 0) as [Hlen|Hlen].
    - subst n. rewrite Hlen, Nat.min_0_r.
      apply length_zero_iff_nil in Hlen.
      unfold RemoveTransactions. rewrite Hlen. destruct pool as [txs]. simpl in *. subst txs.
      reflexivity.
    - destruct (Z.gtb_spec k (Z.of_nat (length (transactions pool)))) as [Hgt|Hle].
      + destruct (Z.ltb_spec (Z.of_nat (length (transactions pool))) 0); [lia|].
        rewrite Nat2Z.id. subst n. rewrite Nat.min_r by lia. reflexivity.
      + destruct (Z.ltb_spec k 0); [lia|].
        subst n. rewrite Nat.min_l by lia. reflexivity. }
  exists (firstn n sorted), (skipn n sorted), (RemoveTransactions pool (firstn n sorted)).
  rewrite firstn_skipn.
  assert (length (firstn n sorted) = n) as Hlen.
  { rewrite firstn_length_le; [reflexivity|]. subst sorted n. rewrite bubbleSort_length. lia. }
  assert (numericUrgencies sorted) as Hnum' by apply bubbleSort_numeric, Hnum.
  split; [exact Hget|]. split; [exact Hlen|]. split; [apply bubbleSort_perm|].
  split; [|split; [|split]].
  - apply StronglySorted_weaken_on
      with (P := fun tx => isNaN (tx_UrgencyDegree tx) = false) (R1 := notBelow);
      [exact Hnum'| |apply bubbleSort_sorted, Hnum].
    intros a b Ha Hb Hab. unfold atLeast. rewrite (fle_flt _ _ Ha Hb).
    unfold notBelow in Hab. rewrite Hab. reflexivity.
  - intros u. apply filter_feq_stable; [exact Hnum'|exact Hnum|].
    apply bubbleSort_stable.
  - apply RemoveTransactions_filter.
  - intros Hnd. unfold Size. rewrite RemoveTransactions_filter.
    rewrite (remove_part_length _ _ (skipn n sorted));
      [|rewrite firstn_skipn; apply bubbleSort_perm|exact Hnd].
    rewrite Hlen. subst n. lia.
Qed.

(** The hypotheses of [GetTopKTransactions_top_k] hold on binary64 for the
    pool with urgencies 0.1, 5, 2, 9, 9, 3 and [k = 3]. *)
Lemma GetTopKTransactions_top_k_witness :
  exists (result rest : list (EmergencyTransaction float)) (pool' : TransactionPool float),
    GetTopKTransactions TopThree.pool 3 = Some (result, pool') /\
    length result = Nat.min (Z.to_nat 3) (length (transactions (F := float) TopThree.pool)) /\
    Permutation (result ++ rest) (transactions TopThree.pool) /\
    StronglySorted atLeast (result ++ rest) /\
    (forall u : float,
       List.filter (fun tx => (tx_UrgencyDegree tx =? u)%f64) (result ++ rest) =
       List.filter (fun tx => (tx_UrgencyDegree tx =? u)%f64) (transactions TopThree.pool)) /\
    transactions pool' =
      List.filter (fun tx => negb (hasIDof result tx)) (transactions TopThree.pool) /\
    (NoDup (map tx_ID (transactions (F := float) TopThree.pool)) ->
     Size pool' = (Size (F := float) TopThree.pool - Z.of_nat (length result))%Z).
Proof.
  apply (GetTopKTransactions_top_k (F := float) TopThree.pool 3).
  - lia.
  - repeat constructor.
Defined.

(** On binary64 the same pool gives the urgencies 9, 9, 5 in this order and
    leaves three transactions. *)
Example GetTopKTransactions_top_three :
  GetTopKTransactions (F := float) TopThree.pool 3 =
    Some ([TopThree.tx "t4" 9%float; TopThree.tx "t5" 9%float; TopThree.tx "t2" 5%float],
          {| transactions := [TopThree.tx "t1" (flit 0.1); TopThree.tx "t3" 2%float;
                              TopThree.tx "t6" 3%float] |}).
Proof. vm_compute. reflexivity. Qed.

(** A NaN urgency is outside this order: no comparison with it is true, so
    the bubble sort never moves a transaction across it. With the
    urgencies 1, NaN, 2 and [k = 2] the call returns the first two and
    leaves the most urgent transaction in the pool. *)
Example nan_urgency_keeps_its_place :
  GetTopKTransactions
    {| transactions := [TopThree.tx "a" 1%float; TopThree.tx "n" nan; TopThree.tx "c" 2%float] |}
    2 =
    Some ([TopThree.tx "a" 1%float; TopThree.tx "n" nan],
          {| transactions := [TopThree.tx "c" 2%float] |}).
Proof. vm_compute. reflexivity. Qed.

(** C3, as stated, fails on the tie-break. [late] and [early] have the same
    urgency; [early] arrived earlier and has the smaller identifier, and
    [late] stands first in the pool. [GetTopKTransactions] with [k = 1]
    returns [late] and leaves [early]. *)
Lemma tie_keeps_pool_order :
  GetTopKTransactions TieBreak.pool 1 =
    Some ([TieBreak.late], {| transactions := [TieBreak.early] |}) /\
  tx_UrgencyDegree TieBreak.early = tx_UrgencyDegree TieBreak.late /\
  (tx_ArrivalTime TieBreak.early < tx_ArrivalTime TieBreak.late)%Z /\
  String.ltb (tx_ID TieBreak.early) (tx_ID TieBreak.late) = true.
Proof. repeat split; vm_compute; reflexivity. Qed.

(** * The insertion sort behind [sort.Slice] *)

Section SortFacts.
Context {A : Type}.
Variable less : A -> A -> bool.

Lemma sink_perm (x : A) (rp : list A) : Permutation (sink less x rp) (x :: rp).
Proof.
  induction rp as [|y rp IH]; [reflexivity|].
  simpl. destruct (less x y); [|reflexivity].
  rewrite IH. apply perm_swap.
Qed.

Lemma insertionSortLessFunc_perm (data : list A) :
  Permutation (insertionSortLessFunc less data) data.
Proof.
  unfold insertionSortLessFunc. rewrite <- Permutation_rev.
  enough (forall rp : list A, Permutation (foldl (fun rp x => sink less x rp) rp data) (data ++ rp))
    as Hgen by (rewrite Hgen, app_nil_r; reflexivity).
  induction data as [|x data IH]; intros rp; [reflexivity|].
  simpl. rewrite IH, sink_perm. symmetry. apply Permutation_middle.
Qed.

Hypothesis less_asym : forall x y : A, less x y = true -> less y x = false.
Hypothesis less_negtrans :
  forall x y z : A, less x y = false -> less y z = false -> less x z = false.

Lemma sink_sorted (x : A) (rp : list A) :
  StronglySorted (fun a b => less a b = false) rp ->
  StronglySorted (fun a b => less a b = false) (sink less x rp).
Proof using less_asym less_negtrans.
  induction rp as [|y rp IH]; intros Hs.
  - repeat constructor.
  - inversion Hs as [|? ? Hrp Hy]; subst. simpl. destruct (less x y) eqn:Hxy.
    + constructor; [apply IH, Hrp|].
      eapply Permutation_Forall; [symmetry; apply sink_perm|].
      constructor; [apply less_asym, Hxy|exact Hy].
    + constructor; [exact Hs|]. constructor; [exact Hxy|].
      eapply List.Forall_impl; [|exact Hy]. intros b Hb. eapply less_negtrans; eauto.
Qed.

Lemma StronglySorted_snoc (R : A -> A -> Prop) (l : list A) (x : A) :
  StronglySorted R l -> Forall (fun a => R a x) l -> StronglySorted R (l ++ [x]).
Proof.
  intros Hs. induction Hs as [|a l Hl IH Ha]; intros Hx; simpl.
  - repeat constructor.
  - inversion Hx; subst. constructor; [apply IH; assumption|].
    apply Forall_app. split; [exact Ha|]. constructor; [assumption|constructor].
Qed.

Lemma StronglySorted_rev (R : A -> A -> Prop) (l : list A) :
  StronglySorted R l -> StronglySorted (fun a b => R b a) (rev l).
Proof.
  intros Hs. induction Hs as [|a l Hl IH Ha]; simpl; [constructor|].
  apply StronglySorted_snoc; [exact IH|].
  apply Forall_rev. exact Ha.
Qed.

(** The result is ordered: no element is [less] than one before it. *)
Lemma insertionSortLessFunc_sorted (data : list A) :
  StronglySorted (fun a b => less b a = false) (insertionSortLessFunc less data).
Proof using less_asym less_negtrans.
  unfold insertionSortLessFunc. apply StronglySorted_rev.
  enough (forall rp : list A,
            StronglySorted (fun a b => less a b = false) rp ->
            StronglySorted (fun a b => less a b = false) (foldl (fun rp x => sink less x rp) rp data))
    as Hgen by (apply Hgen; constructor).
  induction data as [|x data IH]; intros rp Hrp; [exact Hrp|].
  simpl. apply IH, sink_sorted, Hrp.
Qed.

End SortFacts.

(** The same sort when the complement of [less] is transitive only through
    the elements that satisfy [ok], on a slice of such elements. *)
Section SortOn.
Context {A : Type}.
Variable less : A -> A -> bool.
Variable ok : A -> Prop.
Hypothesis less_asym : forall x y : A, less x y = true -> less y x = false.
Hypothesis less_negtrans_on :
  forall x y z : A, ok y -> less x y = false -> less y z = false -> less x z = false.

Lemma sink_sorted_on (x : A) (rp : list A) :
  Forall ok rp ->
  StronglySorted (fun a b => less a b = false) rp ->
  StronglySorted (fun a b => less a b = false) (sink less x rp).
Proof using less_asym less_negtrans_on.
  induction rp as [|y rp IH]; intros Hok Hs.
  - repeat constructor.
  - apply Forall_cons in Hok. destruct Hok as [Hy Hok].
    inversion Hs as [|? ? Hrp Hyrp]; subst. simpl. destruct (less x y) eqn:Hxy.
    + constructor; [apply IH; assumption|].
      eapply Permutation_Forall; [symmetry; apply sink_perm|].
      constructor; [apply less_asym, Hxy|exact Hyrp].
    + constructor; [exact Hs|]. constructor; [exact Hxy|].
      eapply List.Forall_impl; [|exact Hyrp]. intros b Hb.
      apply less_negtrans_on with y; assumption.
Qed.

Lemma insertionSortLessFunc_sorted_on (data : list A) :
  Forall ok data ->
  StronglySorted (fun a b => less b a = false) (insertionSortLessFunc less data).
Proof using less_asym less_negtrans_on.
  intros Hok. unfold insertionSortLessFunc. apply StronglySorted_rev.
  enough (forall rp : list A,
            Forall ok rp ->
            StronglySorted (fun a b => less a b = false) rp ->
            StronglySorted (fun a b => less a b = false) (foldl (fun rp x => sink less x rp) rp data))
    as Hgen by (apply Hgen; constructor).
  induction Hok as [|x data Hx Hdata IH]; intros rp Hrp Hs; [exact Hs|].
  simpl. apply IH.
  - eapply Permutation_Forall; [symmetry; apply sink_perm|]. constructor; assumption.
  - apply sink_sorted_on; assumption.
Qed.

End SortOn.

(** * The interaction log *)

Section AggregateFacts.
Context {F : Type} {Fops : Float64 F}.

Lemma aggregateStep_lookup_ne (agg : gmap string (gmap string (Interaction F)))
  (inter : Interaction F) (target : string) :
  it_To inter <> target -> aggregateStep agg inter !! target = agg !! target.
Proof.
  intros Hne. unfold aggregateStep.
  destruct (agg !! it_To inter) as [row|] eqn:Hrow; cbn zeta.
  - rewrite Hrow. reduce_default. destruct (row !! it_From inter);
      rewrite lookup_insert_ne by exact Hne; reflexivity.
  - rewrite lookup_insert_eq. reduce_default. rewrite lookup_empty.
    rewrite !lookup_insert_ne by exact Hne. reflexivity.
Qed.

Lemma aggregateStep_lookup_eq (agg : gmap string (gmap string (Interaction F)))
  (inter : Interaction F) :
  is_Some (aggregateStep agg inter !! it_To inter).
Proof.
  unfold aggregateStep. cbn zeta.
  match goal with |- context [match ?r !! it_From inter with _ => _ end] =>
    destruct (r !! it_From inter) end; rewrite lookup_insert_eq; eauto.
Qed.

Lemma aggregate_lookup_None (log : list (Interaction F))
  (agg : gmap string (gmap string (Interaction F))) (target : string) :
  foldl aggregateStep agg log !! target = None <->
  agg !! target = None /\ Forall (fun inter => it_To inter <> target) log.
Proof.
  revert agg. induction log as [|inter log IH]; intros agg; simpl.
  - split; [intros Hn; split; [exact Hn|constructor]|tauto].
  - rewrite IH. destruct (decide (it_To inter = target)) as [<-|Hne].
    + destruct (aggregateStep_lookup_eq agg inter) as [row Hrow]. rewrite Hrow. split.
      * intros [Hx _]. discriminate.
      * intros [_ Hall]. inversion Hall; subst. contradiction.
    + rewrite aggregateStep_lookup_ne by exact Hne. split.
      * intros [Hn Hall]. split; [exact Hn|]. constructor; assumption.
      * intros [Hn Hall]. inversion Hall; subst. tauto.
Qed.

(** A node is a key of the aggregate exactly when the log holds an
    interaction towards it. *)
Lemma aggregateByPair_lookup_None (rm : ReputationManager F) (target : string) :
  aggregateByPair rm !! target = None <->
  Forall (fun inter => it_To inter <> target) (rm_interactions rm).
Proof.
  unfold aggregateByPair. rewrite aggregate_lookup_None, lookup_empty. tauto.
Qed.

Lemma ComputeReputation_no_inbound {Fmath : Float64Math F} (rm : ReputationManager F)
  (target : string) (now : Time) :
  Forall (fun inter => it_To inter <> target) (rm_interactions rm) ->
  ComputeReputation rm target now = InitialReputation.
Proof.
  intros Hall. unfold ComputeReputation.
  rewrite (proj2 (aggregateByPair_lookup_None rm target) Hall). reflexivity.
Qed.

Lemma ComputeReputation_inbound {Fmath : Float64Math F} (rm : ReputationManager F)
  (target : string) (now : Time) :
  Exists (fun inter => it_To inter = target) (rm_interactions rm) ->
  ComputeReputation rm target now =
    let direct := computeDirectOpinions (rm_cfg rm) (aggregateByPair rm) now in
    let indirect := computeIndirectOpinions direct in
    let final := fuseOpinions (default ∅ (direct !! target)) (default ∅ (indirect !! target)) in
    (op_T final + Gamma (rm_cfg rm) * op_I final)%f64.
Proof.
  intros Hex. unfold ComputeReputation.
  destruct (aggregateByPair rm !! target) eqn:Hagg; [reflexivity|].
  apply aggregateByPair_lookup_None in Hagg.
  apply List.Exists_exists in Hex. destruct Hex as (inter & Hin & Hto).
  rewrite List.Forall_forall in Hagg. apply list_elem_of_In in Hin.
  exfalso. eapply Hagg; eauto. apply list_elem_of_In. exact Hin.
Qed.

End AggregateFacts.

(** * The validator committee *)

Section CommitteeFacts.
Context {F : Type} {Fops : Float64 F} {Fmath : Float64Math F}.

(** The candidates of a selection: the listed nodes that have a reputation
    manager, in the order of the list, each with the reputation its own
    manager computes for it. *)
Lemma nodeReputations_omap (nodeIDs : list string)
  (reputationManagers : gmap string (ReputationManager F)) (now : Time) :
  nodeReputations nodeIDs reputationManagers now =
    omap (fun nodeID =>
            (fun rm => {| val_ID := nodeID; val_Reputation := ComputeReputation rm nodeID now |})
              <$> reputationManagers !! nodeID)
         nodeIDs.
Proof.
  unfold nodeReputations.
  enough (forall acc : list (Validator F),
            foldl (fun nodeReputation nodeID =>
                     match reputationManagers !! nodeID with
                     | Some rm =>
                         nodeReputation ++
                           [{| val_ID := nodeID;
                               val_Reputation := ComputeReputation rm nodeID now |}]
                     | None => nodeReputation
                     end) acc nodeIDs =
            acc ++ omap (fun nodeID =>
                           (fun rm => {| val_ID := nodeID;
                                         val_Reputation := ComputeReputation rm nodeID now |})
                             <$> reputationManagers !! nodeID) nodeIDs) as Hgen by apply (Hgen []).
  induction nodeIDs as [|nodeID nodeIDs IH]; intros acc; simpl.
  - rewrite app_nil_r. reflexivity.
  - rewrite IH. destruct (reputationManagers !! nodeID); simpl.
    + rewrite <- app_assoc. reflexivity.
    + reflexivity.
Qed.

Lemma NeedRefresh_true (vg : ValidatorGroup F) :
  NeedRefresh vg = true <->
  (vg_ActivePeriod vg <= vg_CurrentRound vg)%Z \/ vg_Validators vg = [].
Proof.
  unfold NeedRefresh, IsActive. rewrite orb_true_iff, negb_true_iff, Z.ltb_ge, Nat.eqb_eq.
  rewrite length_zero_iff_nil. reflexivity.
Qed.

End CommitteeFacts.

Lemma byReputation_asym (x y : Validator R) :
  byReputation x y = true -> byReputation y x = false.
Proof. apply R_flt_asym. Qed.

Lemma byReputation_negtrans (x y z : Validator R) :
  byReputation x y = false -> byReputation y z = false -> byReputation x z = false.
Proof. intros Hxy Hyz. exact (R_flt_negtrans _ _ _ Hyz Hxy). Qed.

Section CommitteeOrder.
Context {F : Type} {Fops : Float64 F} {Ford : Float64Order F}.

Lemma byReputation_asymmetric (x y : Validator F) :
  byReputation x y = true -> byReputation y x = false.
Proof using Ford. apply flt_asym. Qed.

Lemma byReputation_negtransitive (x y z : Validator F) :
  isNaN (val_Reputation y) = false ->
  byReputation x y = false -> byReputation y z = false -> byReputation x z = false.
Proof using Ford. intros Hy Hxy Hyz. exact (flt_negtrans _ _ _ Hy Hyz Hxy). Qed.

(** The insertion sort orders candidates whose reputations are not NaN. *)
Lemma insertionSortLessFunc_byReputation (l : list (Validator F)) :
  numericReputations l ->
  Permutation (insertionSortLessFunc byReputation l) l /\
  StronglySorted (fun a b => byReputation b a = false) (insertionSortLessFunc byReputation l).
Proof using Ford.
  intros Hl. split; [apply insertionSortLessFunc_perm|].
  apply insertionSortLessFunc_sorted_on with (ok := fun v => isNaN (val_Reputation v) = false);
    [exact byReputation_asymmetric|exact byReputation_negtransitive|exact Hl].
Qed.

End CommitteeOrder.

(** C6, as the code has it, on every reading of [float64] whose comparisons
    keep the laws of [Float64Order] (the real numbers and binary64 do). Let
    no candidate's reputation be NaN, let [sort.Slice] return, for a slice
    without a NaN reputation, a rearrangement in which no element is [less]
    than one before it, and let the group size be non-negative. After
    [SelectValidators] the members are the first [min(N, number of
    candidates)] of the candidates (the listed nodes that have a reputation
    manager) in non-increasing reputation, so that no candidate left out has
    a higher reputation than a member; the order among equal reputations is
    the sort's, not the identifiers'. The round counter is 0, and
    [NeedRefresh] is then false exactly when the committee is not empty and
    the active period is positive. Before the selection [NeedRefresh] is
    true exactly when [CurrentRound >= ActivePeriod] or the member list is
    empty. *)
Theorem SelectValidators_top_N {F : Type} {Fops : Float64 F} {Fmath : Float64Math F}
  {Ford : Float64Order F}
  (sort_Slice : forall A : Type, (A -> A -> bool) -> list A -> list A)
  (vg : ValidatorGroup F) (nodeIDs : list string)
  (reputationManagers : gmap string (ReputationManager F)) (now : Time) :
  (forall l : list (Validator F),
     numericReputations l ->
     Permutation (sort_Slice _ byReputation l) l /\
     StronglySorted (fun a b => byReputation b a = false) (sort_Slice _ byReputation l)) ->
  numericReputations (nodeReputations nodeIDs reputationManagers now) ->
  (0 <= vg_GroupSize vg)%Z ->
  let candidates := nodeReputations nodeIDs reputationManagers now in
  exists (vg' : ValidatorGroup F) (rest : list (Validator F)),
    SelectValidators sort_Slice vg nodeIDs reputationManagers now = Some vg' /\
    candidates =
      omap (fun nodeID =>
              (fun rm => {| val_ID := nodeID; val_Reputation := ComputeReputation rm nodeID now |})
                <$> reputationManagers !! nodeID)
           nodeIDs /\
    Permutation (vg_Validators vg' ++ rest) candidates /\
    length (vg_Validators vg') = Nat.min (Z.to_nat (vg_GroupSize vg)) (length candidates) /\
    StronglySorted reputedAtLeast (vg_Validators vg' ++ rest) /\
    vg_CurrentRound vg' = 0%Z /\
    (NeedRefresh vg' = false <-> vg_Validators vg' <> [] /\ (0 < vg_ActivePeriod vg)%Z) /\
    (NeedRefresh vg = true <->
     (vg_ActivePeriod vg <= vg_CurrentRound vg)%Z \/ vg_Validators vg = []).
Proof.
  intros Hsort Hnum HN candidates.
  destruct (Hsort candidates Hnum) as [Hperm Hsorted].
  set (sorted := sort_Slice (Validator F) byReputation candidates) in *.
  assert (length sorted = length candidates) as Hlen by (apply Permutation_length, Hperm).
  assert (StronglySorted reputedAtLeast sorted) as Hdesc.
  { apply StronglySorted_weaken_on
      with (P := fun v => isNaN (val_Reputation v) = false)
           (R1 := fun a b => byReputation b a = false);
      [|intros a b Ha Hb Hab|exact Hsorted].
    - eapply Permutation_Forall; [symmetry; exact Hperm|exact Hnum].
    - unfold reputedAtLeast. rewrite (fle_flt _ _ Ha Hb).
      unfold byReputation in Hab. rewrite Hab. reflexivity. }
  assert (forall members : list (Validator F),
            NeedRefresh {| vg_Validators := members; vg_GroupSize := vg_GroupSize vg;
                           vg_ActivePeriod := vg_ActivePeriod vg; vg_CurrentRound := 0;
                           vg_CreatedAt := now |} = false <->
            members <> [] /\ (0 < vg_ActivePeriod vg)%Z) as Hfresh.
  { intros members. unfold NeedRefresh, IsActive. cbn [vg_Validators vg_CurrentRound vg_ActivePeriod].
    rewrite orb_false_iff, negb_false_iff, Z.ltb_lt, Nat.eqb_neq.
    rewrite <- length_zero_iff_nil. tauto. }
  unfold SelectValidators. fold candidates. fold sorted.
  destruct (Z.ltb_spec (Z.of_nat (length sorted)) (vg_GroupSize vg)) as [Hfew|Hmany].
  - eexists. exists []. split; [reflexivity|]. cbn [vg_Validators vg_CurrentRound].
    rewrite app_nil_r. split; [apply nodeReputations_omap|]. split; [exact Hperm|].
    split; [lia|]. split; [exact Hdesc|]. split; [reflexivity|].
    split; [apply Hfresh|apply NeedRefresh_true].
  - destruct (Z.ltb_spec (vg_GroupSize vg) 0) as [|_]; [lia|].
    eexists. exists (skipn (Z.to_nat (vg_GroupSize vg)) sorted). split; [reflexivity|].
    cbn [vg_Validators vg_CurrentRound]. rewrite firstn_skipn.
    split; [apply nodeReputations_omap|]. split; [exact Hperm|].
    split; [rewrite firstn_length_le; lia|]. split; [exact Hdesc|]. split; [reflexivity|].
    split; [apply Hfresh|apply NeedRefresh_true].
Qed.

(** The hypotheses of [SelectValidators_top_N] hold on binary64 for the
    library's insertion sort, the candidates "b" and "a" of [Listed] and a
    committee of one seat. *)
Lemma SelectValidators_top_N_witness :
  let candidates :=
    nodeReputations (Fmath := binary64_math (fun x => x) (fun x _ => x))
      Listed.nodeIDs Listed.managers 0%Z in
  exists (vg' : ValidatorGroup float) (rest : list (Validator float)),
    SelectValidators (Fmath := binary64_math (fun x => x) (fun x _ => x))
      (@insertionSortLessFunc) Listed.group Listed.nodeIDs Listed.managers 0%Z = Some vg' /\
    candidates =
      omap (fun nodeID =>
              (fun rm => {| val_ID := nodeID;
                            val_Reputation :=
                              ComputeReputation (Fmath := binary64_math (fun x => x) (fun x _ => x))
                                                rm nodeID 0%Z |})
                <$> Listed.managers !! nodeID)
           Listed.nodeIDs /\
    Permutation (vg_Validators vg' ++ rest) candidates /\
    length (vg_Validators vg') =
      Nat.min (Z.to_nat (vg_GroupSize Listed.group)) (length candidates) /\
    StronglySorted reputedAtLeast (vg_Validators vg' ++ rest) /\
    vg_CurrentRound vg' = 0%Z /\
    (NeedRefresh vg' = false <->
     vg_Validators vg' <> [] /\ (0 < vg_ActivePeriod Listed.group)%Z) /\
    (NeedRefresh Listed.group = true <->
     (vg_ActivePeriod Listed.group <= vg_CurrentRound Listed.group)%Z \/
     vg_Validators Listed.group = []).
Proof.
  apply (SelectValidators_top_N (Fmath := binary64_math (fun x => x) (fun x _ => x))
           (@insertionSortLessFunc) Listed.group Listed.nodeIDs Listed.managers 0%Z).
  - intros l. apply insertionSortLessFunc_byReputation.
  - apply (bool_decide_unpack _). vm_compute. exact I.
  - vm_compute. discriminate.
Defined.

(** A NaN reputation is outside this order: no comparison with it is true,
    so the insertion sort never moves a candidate across it. With the
    reputations 0.5, NaN and 0.75 in this order and two seats, the
    candidate with the highest reputation is left out. *)
Example nan_reputation_keeps_its_place :
  firstn 2 (insertionSortLessFunc byReputation
              [{| val_ID := "a"; val_Reputation := 0.5%float |};
               {| val_ID := "C"; val_Reputation := nan |};
               {| val_ID := "b"; val_Reputation := 0.75%float |}]) =
    [{| val_ID := "a"; val_Reputation := 0.5%float |};
     {| val_ID := "C"; val_Reputation := nan |}].
Proof. vm_compute. reflexivity. Qed.

(** C6, as stated, fails on the tie-break. Candidates "b" and "a" have no
    evidence, hence the same reputation 0.5; "b" is listed first and the
    committee has one seat. With the insertion sort that [sort.Slice] runs on
    a slice of two, the committee is "b", not "a". *)
Lemma tie_keeps_candidate_order :
  SelectValidators (@insertionSortLessFunc) TwoCandidates.group TwoCandidates.nodeIDs
    TwoCandidates.managers 0%Z =
    Some {| vg_Validators := [{| val_ID := "b"; val_Reputation := InitialReputation |}];
            vg_GroupSize := 1;
            vg_ActivePeriod := 10;
            vg_CurrentRound := 0;
            vg_CreatedAt := 0 |} /\
  ComputeReputation (NewReputationManager TwoCandidates.cfg) "a" 0%Z =
    ComputeReputation (NewReputationManager TwoCandidates.cfg) "b" 0%Z /\
  String.ltb "a" "b" = true.
Proof.
  split; [|split; reflexivity].
  unfold SelectValidators. rewrite nodeReputations_omap.
  cbn [omap list_omap TwoCandidates.nodeIDs].
  unfold TwoCandidates.managers.
  rewrite lookup_insert_ne by discriminate. rewrite lookup_insert_eq.
  rewrite lookup_insert_eq. cbn [fmap option_fmap option_map].
  rewrite !ComputeReputation_no_inbound by constructor.
  unfold insertionSortLessFunc. cbn [foldl sink].
  replace (byReputation _ _) with false; [reflexivity|].
  symmetry. apply R_ltb_false. cbn. lra.
Qed.

(** * The urgency scorer *)

Lemma Q2R_tenth : Q2R 0.1 = (1 / 10)%R.
Proof. unfold Q2R. simpl. lra. Qed.

Lemma urgencyBase_pos (tx : EmergencyTransaction R) : (0 < urgencyBase tx)%R.
Proof. unfold urgencyBase. destruct (R_ltb 0 (transmissionTime tx)); [apply exp_pos|lra]. Qed.

Lemma CalculateUrgencyDegree_formula (tx : EmergencyTransaction R) (cfg : UrgencyConfig R) :
  tx_UrgencyDegree (CalculateUrgencyDegree tx cfg) =
    (urgencyBase tx * exp (Omega cfg * IZR (tx_Theta tx)))%R.
Proof.
  unfold CalculateUrgencyDegree, urgencyBase. cbn. rewrite Q2R_tenth. reflexivity.
Qed.

(** On binary64 zero times a number that is neither negative, infinite nor
    NaN is zero. *)
Lemma binary64_zero_times (y : float) :
  (0 <=? y)%float = true -> (y <? infinity)%float = true -> (0 * y =? 0)%float = true.
Proof.
  rewrite FloatAxioms.leb_spec, FloatAxioms.ltb_spec, FloatAxioms.eqb_spec, FloatAxioms.mul_spec.
  change (Prim2SF 0) with (S754_zero false).
  change (Prim2SF infinity) with (S754_infinity false).
  destruct (Prim2SF y) as [[]|[]| |[] m e]; cbn; intros; try discriminate; reflexivity.
Qed.

Section UrgencyUnderflow.

(** The platform's [math.Exp] and [math.Pow]; of [math.Exp] only the
    underflow is used: [Exp(x) = 0] below -746. *)
Variable go_exp : float -> float.
Variable go_pow : float -> float -> float.
Hypothesis go_exp_underflow : forall x : float, (x <? -746)%float = true -> go_exp x = 0%float.

(** With 300 ns of transmission and 5 s to the deadline the factor [E] is
    [Exp(-16666666.67) = 0], and the urgency is zero for every prior count
    whose own factor is a number. *)
Lemma CalculateUrgencyDegree_underflow (theta : Z) :
  let w := go_exp (Omega Underflow.cfg * of_int theta)%f64 in
  (0 <=? w)%float = true -> (w <? infinity)%float = true ->
  (tx_UrgencyDegree
     (CalculateUrgencyDegree (Fmath := binary64_math go_exp go_pow)
        (Underflow.tx theta) Underflow.cfg) =? 0)%float = true.
Proof using go_exp_underflow.
  intros w Hlo Hhi. unfold CalculateUrgencyDegree. cbn [withUrgencyDegree tx_UrgencyDegree].
  replace (transmissionTime (Underflow.tx theta) >? of_int 0)%f64 with true
    by (vm_compute; reflexivity).
  cbn [fexp binary64_math].
  rewrite go_exp_underflow by (vm_compute; reflexivity).
  apply binary64_zero_times; assumption.
Qed.

End UrgencyUnderflow.

(** C7, as the code has it. On every reading of [float64] the urgency is
    the product [E * Exp(Omega * theta)] with [E = Exp(-Tc / dTR)] when
    [dTR > 0] and [E = 0.1] otherwise, where [Tc] and [dTR] are the seconds
    of [td - ta] and [ta - tp]. In real arithmetic the urgency is positive
    for any weight; with the three times fixed and a weight [Omega > 0] a
    greater prior count gives a strictly greater urgency; and with [dTR]
    fixed and positive and the prior count fixed a greater [Tc] gives a
    strictly smaller urgency, for any weight. On binary64 the product is
    rounded and the strict order and the positivity can be lost: with
    [dTR] of 300 ns and [Tc] of 5 s, [Exp] underflows and the urgency is 0
    for every prior count whose factor [Exp(Omega * theta)] is a number. *)
Theorem CalculateUrgencyDegree_monotone :
  (forall (F : Type) (Fops : Float64 F) (Fmath : Float64Math F)
          (tx : EmergencyTransaction F) (cfg : UrgencyConfig F),
     tx_UrgencyDegree (CalculateUrgencyDegree tx cfg) =
       ((if transmissionTime tx >? of_int 0
         then fexp (- expectedDelay tx / transmissionTime tx)
         else flit 0.1) * fexp (Omega cfg * of_int (tx_Theta tx)))%f64) /\
  (forall (cfg : UrgencyConfig R) (tx : EmergencyTransaction R),
     (0 < tx_UrgencyDegree (CalculateUrgencyDegree tx cfg))%R) /\
  (forall (cfg : UrgencyConfig R) (tx1 tx2 : EmergencyTransaction R),
     (0 < Omega cfg)%R ->
     tx_ProductTime tx1 = tx_ProductTime tx2 ->
     tx_ArrivalTime tx1 = tx_ArrivalTime tx2 ->
     tx_DeadlineTime tx1 = tx_DeadlineTime tx2 ->
     (tx_Theta tx1 < tx_Theta tx2)%Z ->
     (tx_UrgencyDegree (CalculateUrgencyDegree tx1 cfg)
      < tx_UrgencyDegree (CalculateUrgencyDegree tx2 cfg))%R) /\
  (forall (cfg : UrgencyConfig R) (tx1 tx2 : EmergencyTransaction R),
     transmissionTime tx1 = transmissionTime tx2 ->
     (0 < transmissionTime tx1)%R ->
     tx_Theta tx1 = tx_Theta tx2 ->
     (expectedDelay tx1 < expectedDelay tx2)%R ->
     (tx_UrgencyDegree (CalculateUrgencyDegree tx2 cfg)
      < tx_UrgencyDegree (CalculateUrgencyDegree tx1 cfg))%R) /\
  (forall (go_exp : float -> float) (go_pow : float -> float -> float),
     (forall x : float, (x <? -746)%float = true -> go_exp x = 0%float) ->
     forall theta : Z,
       let w := go_exp (Omega Underflow.cfg * of_int theta)%f64 in
       (0 <=? w)%float = true -> (w <? infinity)%float = true ->
       (tx_UrgencyDegree
          (CalculateUrgencyDegree (Fmath := binary64_math go_exp go_pow)
             (Underflow.tx theta) Underflow.cfg) =? 0)%float = true).
Proof.
  split; [|split; [|split; [|split]]].
  - intros F Fops Fmath tx cfg. reflexivity.
  - intros cfg tx. rewrite CalculateUrgencyDegree_formula.
    apply Rmult_lt_0_compat; [apply urgencyBase_pos|apply exp_pos].
  - intros cfg tx1 tx2 Homega Hp Ha Hd Htheta. rewrite !CalculateUrgencyDegree_formula.
    assert (urgencyBase tx1 = urgencyBase tx2) as ->.
    { unfold urgencyBase, transmissionTime, expectedDelay. rewrite Hp, Ha, Hd. reflexivity. }
    apply Rmult_lt_compat_l; [apply urgencyBase_pos|].
    apply exp_increasing, Rmult_lt_compat_l; [exact Homega|]. apply IZR_lt, Htheta.
  - intros cfg tx1 tx2 Hdt Hpos Htheta Hdelay. rewrite !CalculateUrgencyDegree_formula.
    rewrite Htheta. apply Rmult_lt_compat_r; [apply exp_pos|].
    unfold urgencyBase. rewrite <- Hdt.
    rewrite (proj2 (R_ltb_true 0 (transmissionTime tx1)) Hpos).
    apply exp_increasing. unfold Rdiv. apply Rmult_lt_compat_r.
    + apply Rinv_0_lt_compat, Hpos.
    + lra.
  - intros go_exp go_pow Hunder theta. apply CalculateUrgencyDegree_underflow, Hunder.
Qed.

(** The hypotheses on the prior count hold for the counts 1 and 2 under the
    weight 0.5 of the driver. *)
Lemma CalculateUrgencyDegree_monotone_witness :
  (tx_UrgencyDegree (CalculateUrgencyDegree (PriorCount.tx 1) PriorCount.driverWeight)
   < tx_UrgencyDegree (CalculateUrgencyDegree (PriorCount.tx 2) PriorCount.driverWeight))%R.
Proof.
  apply (proj1 (proj2 (proj2 CalculateUrgencyDegree_monotone)) PriorCount.driverWeight);
    [cbn; lra|reflexivity|reflexivity|reflexivity|cbn; lia].
Defined.

(** C7, as stated, fails without a sign on the weight. With [Omega = 0] the
    prior counts 1 and 2, at the same three times, give the same urgency. *)
Lemma zero_weight_ignores_the_prior_count :
  tx_ProductTime (PriorCount.tx 1) = tx_ProductTime (PriorCount.tx 2) /\
  tx_ArrivalTime (PriorCount.tx 1) = tx_ArrivalTime (PriorCount.tx 2) /\
  tx_DeadlineTime (PriorCount.tx 1) = tx_DeadlineTime (PriorCount.tx 2) /\
  (tx_Theta (PriorCount.tx 1) < tx_Theta (PriorCount.tx 2))%Z /\
  ~ (tx_UrgencyDegree (CalculateUrgencyDegree (PriorCount.tx 1) PriorCount.noWeight)
     < tx_UrgencyDegree (CalculateUrgencyDegree (PriorCount.tx 2) PriorCount.noWeight))%R.
Proof.
  repeat split; try reflexivity.
  rewrite !CalculateUrgencyDegree_formula.
  replace (urgencyBase (PriorCount.tx 2)) with (urgencyBase (PriorCount.tx 1)) by reflexivity.
  cbn [Omega PriorCount.noWeight]. rewrite !Rmult_0_l. lra.
Qed.

(** * Loops over maps *)

(** A loop that stores [f i x] under every key [i] of a list of entries
    with distinct keys. *)
Lemma foldl_insert_lookup {A B : Type} (f : string -> A -> B) (l : list (string * A))
  (d0 : gmap string B) (k : string) :
  NoDup l.*1 ->
  foldl (fun d '(i, x) => <[i := f i x]> d) d0 l !! k =
    match (list_to_map l : gmap string A) !! k with
    | Some x => Some (f k x)
    | None => d0 !! k
    end.
Proof.
  revert d0. induction l as [|[i x] l IH]; intros d0 Hnd; [reflexivity|].
  change (((i, x) :: l).*1) with (i :: l.*1) in Hnd.
  apply NoDup_cons in Hnd. destruct Hnd as [Hi Hnd].
  cbn [foldl]. rewrite IH by exact Hnd.
  change (list_to_map ((i, x) :: l) : gmap string A) with (<[i := x]> (list_to_map l : gmap string A)).
  destruct (decide (i = k)) as [->|Hne].
  - rewrite !lookup_insert_eq.
    rewrite (not_elem_of_list_to_map_1 _ _ Hi). reflexivity.
  - rewrite !(lookup_insert_ne _ i k) by exact Hne. reflexivity.
Qed.

Lemma foldl_insert_map_to_list {A B : Type} (f : string -> A -> B) (m : gmap string A)
  (k : string) :
  foldl (fun d '(i, x) => <[i := f i x]> d) (∅ : gmap string B) (map_to_list m) !! k =
    f k <$> m !! k.
Proof.
  rewrite foldl_insert_lookup by apply NoDup_fst_map_to_list.
  rewrite list_to_map_to_list. destruct (m !! k); reflexivity.
Qed.

Section EngineFacts.
Context {F : Type} {Fops : Float64 F} {Fmath : Float64Math F}.

(** The search returns the same paths with any fuel that covers its depth:
    a path of [n] nodes needs [hopCount + 3 - n] calls at most, and the
    search from a source starts with [hopCount + 2] for a path of one
    node. *)
Lemma dfs_fuel (direct : gmap string (gmap string (DirectOpinion F))) (target : string)
  (n m : nat) (path : list string) :
  (hopCount + 2 - length path < n)%nat -> (hopCount + 2 - length path < m)%nat ->
  dfs direct target n path = dfs direct target m path.
Proof.
  revert m path. induction n as [|n IH]; intros m path Hn Hm; [lia|].
  destruct m as [|m]; [lia|]. cbn [dfs].
  destruct (hopCount <? length path - 1)%nat eqn:Hlong; [reflexivity|].
  destruct (String.eqb (List.last path EmptyString) target && (1 <? length path)%nat);
    [reflexivity|].
  apply Nat.ltb_ge in Hlong. unfold hopCount in *.
  apply flat_map_ext. intros [next d].
  destruct (contains path next); [reflexivity|].
  apply IH; rewrite length_app; simpl; lia.
Qed.

Lemma dfs_from_source (direct : gmap string (gmap string (DirectOpinion F)))
  (target source : string) (extra : nat) :
  dfs direct target (hopCount + 2 + extra) [source] = dfs direct target (hopCount + 2) [source].
Proof. apply dfs_fuel; simpl; unfold hopCount; lia. Qed.

Lemma computeDirectOpinions_lookup (cfg : Config F)
  (agg : gmap string (gmap string (Interaction F))) (now : Time) (to : string) :
  computeDirectOpinions cfg agg now !! to = directOpinionsOf cfg now <$> agg !! to.
Proof.
  unfold computeDirectOpinions.
  apply (foldl_insert_map_to_list (fun _ fromMap => directOpinionsOf cfg now fromMap)).
Qed.

Lemma computeDirectOpinions_fmap (cfg : Config F)
  (agg : gmap string (gmap string (Interaction F))) (now : Time) :
  computeDirectOpinions cfg agg now = directOpinionsOf cfg now <$> agg.
Proof. apply map_eq. intros to. rewrite computeDirectOpinions_lookup, lookup_fmap. reflexivity. Qed.

Lemma computeIndirectOpinions_lookup (direct : gmap string (gmap string (DirectOpinion F))) (target : string) :
  computeIndirectOpinions direct !! target =
    (fun _ => indirectOpinionsOf direct target) <$> direct !! target.
Proof.
  unfold computeIndirectOpinions.
  apply (foldl_insert_map_to_list (fun target _ => indirectOpinionsOf direct target)).
Qed.

Lemma weighOpinions_fold_tmp (cfg : Config F) (now : Time) (avgCnt : F)
  (l : list (string * Interaction F)) (tmp : gmap string (DirectOpinion F)) (errNum errDen : F) :
  (foldl (fun '(tmp, errNum, errDen) '(from, inter) =>
            let weight := directWeight cfg now avgCnt inter in
            let Ii := uncertainty inter in
            let d := {| do_Opinion := {| op_T := of_int 0; op_D := of_int 0; op_I := Ii |};
                        do_Weight := weight |} in
            (<[from := d]> tmp,
             (errNum + weight * of_int (it_NegEvents inter))%f64,
             (errDen + weight)%f64))
         (tmp, errNum, errDen) l).1.1 =
  foldl (fun d '(i, x) => <[i := weighed cfg now avgCnt x]> d) tmp l.
Proof.
  revert tmp errNum errDen. induction l as [|[i x] l IH]; intros tmp errNum errDen; [reflexivity|].
  cbn [foldl]. apply IH.
Qed.

Lemma weighOpinions_tmp (cfg : Config F) (now : Time) (fromMap : gmap string (Interaction F))
  (from : string) :
  (weighOpinions cfg now fromMap).1.1 !! from =
    weighed cfg now (averageCount fromMap) <$> fromMap !! from.
Proof.
  unfold weighOpinions.
  rewrite <- (foldl_insert_map_to_list (fun _ inter => weighed cfg now (averageCount fromMap) inter)).
  apply (f_equal (fun m : gmap string (DirectOpinion F) => m !! from)).
  apply weighOpinions_fold_tmp.
Qed.

(** The opinion the second loop stores for an evaluator. *)
Lemma directOpinionsOf_lookup (cfg : Config F) (now : Time)
  (fromMap : gmap string (Interaction F)) (from : string) :
  directOpinionsOf cfg now fromMap !! from =
    (fun inter =>
       fillOpinion (errorFactor cfg (weighOpinions cfg now fromMap).1.2
                                   (weighOpinions cfg now fromMap).2)
                   inter (weighed cfg now (averageCount fromMap) inter))
      <$> fromMap !! from.
Proof.
  unfold directOpinionsOf.
  pose proof (weighOpinions_tmp cfg now fromMap from) as Htmp.
  destruct (weighOpinions cfg now fromMap) as [[tmp errNum] errDen]. cbn [fst snd] in *.
  rewrite (foldl_insert_map_to_list
             (fun from inter =>
                fillOpinion (errorFactor cfg errNum errDen) inter (default zeroDirect (tmp !! from)))).
  rewrite Htmp. destruct (fromMap !! from); reflexivity.
Qed.

(** The two outcomes of the second loop for an evaluator: belief and
    disbelief are filled in when the guard [sumEvt > 0] passes and stay 0
    otherwise; the uncertainty is that of the first loop. *)
Lemma directOpinion_shape (cfg : Config F) (agg : gmap string (gmap string (Interaction F)))
  (now : Time) (to from : string) (d : DirectOpinion F) :
  default ∅ (computeDirectOpinions cfg agg now !! to) !! from = Some d ->
  exists (fromMap : gmap string (Interaction F)) (inter : Interaction F),
    agg !! to = Some fromMap /\ fromMap !! from = Some inter /\
    let theta := errorFactor cfg (weighOpinions cfg now fromMap).1.2
                                 (weighOpinions cfg now fromMap).2 in
    let alpha := ((flit 1 - theta) * of_int (it_PosEvents inter))%f64 in
    let beta := (theta * of_int (it_NegEvents inter))%f64 in
    let Ii := uncertainty inter in
    op_I (do_Opinion d) = Ii /\
    if (alpha + beta >? of_int 0)%f64
    then op_T (do_Opinion d) = ((flit 1 - Ii) * alpha / (alpha + beta))%f64 /\
         op_D (do_Opinion d) = ((flit 1 - Ii) * beta / (alpha + beta))%f64
    else op_T (do_Opinion d) = of_int 0 /\ op_D (do_Opinion d) = of_int 0.
Proof.
  rewrite computeDirectOpinions_lookup.
  destruct (agg !! to) as [fromMap|] eqn:Hagg; cbn [fmap option_fmap option_map];
    reduce_default; [|rewrite lookup_empty; discriminate].
  rewrite directOpinionsOf_lookup.
  destruct (fromMap !! from) as [inter|] eqn:Hinter; [|discriminate].
  cbn [fmap option_fmap option_map]. intros Hd. injection Hd as <-.
  exists fromMap, inter. split; [reflexivity|]. split; [exact Hinter|]. cbv zeta.
  unfold fillOpinion. cbv zeta.
  match goal with |- context [if ?g then _ else _] => destruct g end;
    cbn [do_Opinion weighed op_I op_T op_D]; repeat split; reflexivity.
Qed.

(** With no indirect opinion the fusion is the direct aggregate. *)
Lemma fuseOpinions_no_indirect (dir : gmap string (DirectOpinion F)) :
  fuseOpinions dir ∅ = directAggregate dir.
Proof. reflexivity. Qed.

End EngineFacts.

(** * Direct opinions over the real numbers *)

Lemma wrap_in_range (z : Z) : GoInt.in_range z -> GoInt.wrap z = z.
Proof.
  unfold GoInt.in_range, GoInt.wrap, GoInt.min_int, GoInt.max_int. intros Hz.
  rewrite Z.mod_small; lia.
Qed.

(** Literals of the packages as real numbers. *)
Lemma flit_R (q : Q) : flit (F := R) q = (IZR (Qnum q) / IZR (Zpos (Qden q)))%R.
Proof. reflexivity. Qed.

Ltac literals :=
  cbn [of_int flit fadd fsub fmul fdiv fneg flt fle feq fsqrt fexp fpow
       R_float64 R_float64_math] in *;
  unfold Q2R in *; cbn [Qnum Qden] in *; rewrite ?Rinv_1, ?Rmult_1_r in *.

Lemma Rdiv_nonneg (a b : R) : (0 <= a)%R -> (0 < b)%R -> (0 <= a / b)%R.
Proof.
  intros Ha Hb. unfold Rdiv. apply Rmult_le_pos; [exact Ha|].
  left. apply Rinv_0_lt_compat, Hb.
Qed.

Lemma Rdiv_le_one (a b : R) : (0 < b)%R -> (a <= b)%R -> (a / b <= 1)%R.
Proof.
  intros Hb Hab. replace 1%R with (b / b)%R by (field; lra).
  unfold Rdiv. apply Rmult_le_compat_r; [|exact Hab].
  left. apply Rinv_0_lt_compat, Hb.
Qed.

Lemma Rdiv_lt_one (a b : R) : (0 < b)%R -> (a < b)%R -> (a / b < 1)%R.
Proof.
  intros Hb Hab. replace 1%R with (b / b)%R by (field; lra).
  unfold Rdiv. apply Rmult_lt_compat_r; [|exact Hab].
  apply Rinv_0_lt_compat, Hb.
Qed.

Section DirectOpinionFacts.

Lemma totalEvents_R (inter : Interaction R) :
  wellFormed inter ->
  totalEvents inter = IZR (it_PosEvents inter + it_NegEvents inter) /\
  (0 <= totalEvents inter)%R.
Proof.
  intros (Hp & Hn & Hmax). unfold totalEvents, GoInt.add.
  rewrite wrap_in_range by (unfold GoInt.in_range, GoInt.min_int; lia).
  split; [reflexivity|]. apply IZR_le. lia.
Qed.

Lemma uncertainty_R (inter : Interaction R) :
  wellFormed inter ->
  uncertainty inter = (2 / (2 + IZR (it_PosEvents inter + it_NegEvents inter)))%R /\
  (0 < uncertainty inter <= 1)%R.
Proof.
  intros Hwf. destruct (totalEvents_R inter Hwf) as [Heq Hpos].
  unfold uncertainty. rewrite Heq in *. literals.
  set (n := IZR (it_PosEvents inter + it_NegEvents inter)) in *.
  split; [field; lra|]. split.
  - apply Rdiv_lt_0_compat; lra.
  - apply Rdiv_le_one; lra.
Qed.

Lemma errorFactor_range (cfg : Config R) (errNum errDen : R) :
  (0 <= Mu cfg <= 1)%R -> (0 <= errorFactor cfg errNum errDen <= 1)%R.
Proof.
  intros Hmu. unfold errorFactor. cbn [feq fdiv fadd fexp R_float64 R_float64_math].
  literals. destruct (negb (R_eqb errDen 0)); [|lra].
  pose proof (exp_pos (errNum / errDen)) as He.
  split.
  - apply Rdiv_nonneg; lra.
  - apply Rdiv_le_one; lra.
Qed.

Lemma errorFactor_strict (cfg : Config R) (errNum errDen : R) :
  (0 < Mu cfg <= 1)%R -> errDen <> 0%R -> (0 < errorFactor cfg errNum errDen < 1)%R.
Proof.
  intros Hmu Hden. unfold errorFactor. cbn [feq fdiv fadd fexp R_float64 R_float64_math].
  literals. rewrite (proj2 (R_eqb_false errDen 0)) by exact Hden. cbn [negb].
  pose proof (exp_pos (errNum / errDen)) as He.
  split.
  - apply Rdiv_lt_0_compat; lra.
  - apply Rdiv_lt_one; lra.
Qed.

(** Belief, disbelief and uncertainty after the second loop: never
    negative, and at most 1 in sum. *)
Lemma fillOpinion_bounds (theta : R) (inter : Interaction R) (d : DirectOpinion R) :
  (0 <= theta <= 1)%R -> wellFormed inter ->
  op_T (do_Opinion d) = 0%R -> op_D (do_Opinion d) = 0%R ->
  (0 <= op_I (do_Opinion d) <= 1)%R ->
  let o := do_Opinion (fillOpinion theta inter d) in
  (0 <= op_T o)%R /\ (0 <= op_D o)%R /\ op_I o = op_I (do_Opinion d) /\
  (op_T o + op_D o + op_I o <= 1)%R /\
  do_Weight (fillOpinion theta inter d) = do_Weight d.
Proof.
  intros Hth (Hp & Hn & _) HT HD HI. unfold fillOpinion. literals.
  cbn [flt fadd fsub fmul fdiv R_float64].
  apply IZR_le in Hp, Hn.
  set (alpha := ((1 - theta) * IZR (it_PosEvents inter))%R).
  set (beta := (theta * IZR (it_NegEvents inter))%R).
  assert (0 <= alpha)%R as Ha by (subst alpha; apply Rmult_le_pos; lra).
  assert (0 <= beta)%R as Hb by (subst beta; apply Rmult_le_pos; lra).
  destruct (R_ltb 0 (alpha + beta)) eqn:Hs; cbn [do_Opinion do_Weight op_T op_D op_I].
  - apply R_ltb_true in Hs.
    assert (0 < / (alpha + beta))%R as Hinv by (apply Rinv_0_lt_compat; exact Hs).
    split; [|split; [|split; [reflexivity|split; [|reflexivity]]]].
    + unfold Rdiv. repeat apply Rmult_le_pos; lra.
    + unfold Rdiv. repeat apply Rmult_le_pos; lra.
    + replace ((1 - op_I (do_Opinion d)) * alpha / (alpha + beta) +
               (1 - op_I (do_Opinion d)) * beta / (alpha + beta))%R
        with (1 - op_I (do_Opinion d))%R by (field; lra).
      lra.
  - rewrite HT, HD. repeat split; lra.
Qed.

(** With an error factor strictly between 0 and 1 the three components
    sum to 1. *)
Lemma fillOpinion_normalised (theta : R) (inter : Interaction R) (d : DirectOpinion R) :
  (0 < theta < 1)%R -> wellFormed inter ->
  op_T (do_Opinion d) = 0%R -> op_D (do_Opinion d) = 0%R ->
  op_I (do_Opinion d) = uncertainty inter ->
  let o := do_Opinion (fillOpinion theta inter d) in
  (op_T o + op_D o + op_I o = 1)%R.
Proof.
  intros Hth Hwf HT HD HI.
  destruct (uncertainty_R inter Hwf) as [Hu _]. destruct Hwf as (Hp & Hn & Hmax).
  unfold fillOpinion. literals. cbn [flt fadd fsub fmul fdiv R_float64].
  pose proof (IZR_le _ _ Hp) as Hp'. pose proof (IZR_le _ _ Hn) as Hn'.
  set (alpha := ((1 - theta) * IZR (it_PosEvents inter))%R).
  set (beta := (theta * IZR (it_NegEvents inter))%R).
  assert (0 <= alpha)%R as Ha by (subst alpha; apply Rmult_le_pos; lra).
  assert (0 <= beta)%R as Hb by (subst beta; apply Rmult_le_pos; lra).
  destruct (R_ltb 0 (alpha + beta)) eqn:Hs; cbn [do_Opinion do_Weight op_T op_D op_I].
  - apply R_ltb_true in Hs. field. lra.
  - apply R_ltb_false in Hs. rewrite HT, HD, HI, Hu.
    assert (alpha = 0)%R as Ha0 by lra. assert (beta = 0)%R as Hb0 by lra.
    subst alpha beta.
    apply Rmult_integral in Ha0, Hb0.
    destruct Ha0 as [|Ha0]; [lra|]. destruct Hb0 as [|Hb0]; [lra|].
    rewrite plus_IZR, Ha0, Hb0. field.
Qed.

End DirectOpinionFacts.

(** * Subjects with one evaluator, and two nodes that evaluate each other *)

Section SoleEvaluator.
Context {F : Type} {Fops : Float64 F} {Fmath : Float64Math F}.
Local Open Scope F_scope.

Lemma directOpinionsOf_singleton (cfg : Config F) (now : Time) (from : string)
  (inter : Interaction F) :
  directOpinionsOf cfg now {[from := inter]} = {[from := soleOpinion cfg now inter]}.
Proof.
  unfold directOpinionsOf, weighOpinions, averageCount.
  rewrite map_size_singleton, map_to_list_singleton. cbn [foldl].
  rewrite lookup_insert_eq. reflexivity.
Qed.

(** The indirect opinions about "B" when "A" and "B" have evaluated each
    other: the one path from "A" carries the direct opinion of "A" about
    "B". *)
Lemma indirectOpinionsOf_mutual (dAB dBA : DirectOpinion F) :
  indirectOpinionsOf (<["A" := {["B" := dBA]}]> (<["B" := {["A" := dAB]}]> ∅)) "B" =
    let o := do_Opinion dAB in
    let T := flit 1.0 * op_T o in
    let D := flit 1.0 * op_D o in
    let I_ := flit 0.0 + flit 0.0 + flit 1.0 * op_I o in
    let w := flit 1.0 * do_Weight dAB in
    let sumW := of_int 0 + w in
    let agg := {| op_T := of_int 0 + T * w; op_D := of_int 0 + D * w; op_I := of_int 0 + I_ * w |} in
    if sumW >? of_int 0
    then {["A" := {| op_T := op_T agg / sumW; op_D := op_D agg / sumW; op_I := op_I agg / sumW |}]}
    else {["A" := agg]}.
Proof. vm_compute. reflexivity. Qed.

(** A subject that is the only key of the opinion graph has no indirect
    opinion. *)
Lemma indirectOpinionsOf_alone (target : string) (row : gmap string (DirectOpinion F)) :
  indirectOpinionsOf {[target := row]} target = ∅.
Proof.
  unfold indirectOpinionsOf. rewrite map_to_list_singleton. cbn [map fst foldl].
  unfold indirectFrom. rewrite String.eqb_refl. reflexivity.
Qed.

(** The fusion of one direct and one indirect opinion. *)
Lemma fuseOpinions_singletons (k k' : string) (d : DirectOpinion F) (o : SubjectiveOpinion F) :
  fuseOpinions {[k := d]} {[k' := o]} =
    let sumW := of_int 0 + do_Weight d in
    let dir := if sumW >? of_int 0
               then {| op_T := (of_int 0 + op_T (do_Opinion d) * do_Weight d) / sumW;
                       op_D := (of_int 0 + op_D (do_Opinion d) * do_Weight d) / sumW;
                       op_I := (of_int 0 + op_I (do_Opinion d) * do_Weight d) / sumW |}
               else {| op_T := flit 0.0; op_D := flit 0.0; op_I := flit 0.0 |} in
    let ind := {| op_T := (of_int 0 + op_T o) / of_int 1;
                  op_D := (of_int 0 + op_D o) / of_int 1;
                  op_I := (of_int 0 + op_I o) / of_int 1 |} in
    let k := fusionDenominator dir ind in
    {| op_T := (op_T dir * op_I ind + op_T ind * op_I dir) / k;
       op_D := (op_D dir * op_I ind + op_D ind * op_I dir) / k;
       op_I := (op_I dir * op_I ind) / k |}.
Proof.
  unfold fuseOpinions, directAggregate, indirectAggregate.
  rewrite !map_size_singleton, !map_to_list_singleton.
  cbn [foldl Nat.eqb Nat.ltb Nat.leb Z.of_nat Pos.of_succ_nat]. reflexivity.
Qed.

Lemma directAggregate_singleton (k : string) (d : DirectOpinion F) :
  directAggregate {[k := d]} =
    let sumW := of_int 0 + do_Weight d in
    if sumW >? of_int 0
    then {| op_T := (of_int 0 + op_T (do_Opinion d) * do_Weight d) / sumW;
            op_D := (of_int 0 + op_D (do_Opinion d) * do_Weight d) / sumW;
            op_I := (of_int 0 + op_I (do_Opinion d) * do_Weight d) / sumW |}
    else {| op_T := flit 0.0; op_D := flit 0.0; op_I := flit 0.0 |}.
Proof.
  unfold directAggregate. rewrite map_to_list_singleton. cbn [foldl]. reflexivity.
Qed.

End SoleEvaluator.

(** ** The seed configuration over the real numbers *)

Lemma Sub_same (t : Time) : Sub t t = 0%Z.
Proof.
  unfold Sub. rewrite Z.sub_diag. reflexivity.
Qed.

Lemma timeFactor_at_once (cfg : Config R) (now : Time) (inter : Interaction R) :
  it_Timestamp inter = now -> timeFactor cfg now inter = Eta cfg.
Proof.
  intros <-. unfold timeFactor, Seconds. rewrite Sub_same.
  change (Z.quot 0 Second) with 0%Z. change (Z.rem 0 Second) with 0%Z. literals.
  rewrite (proj2 (R_leb_true _ _)) by lra. reflexivity.
Qed.

Lemma computeTrajectorySimilarity_empty (cfg : Config R) :
  computeTrajectorySimilarity cfg [] [] = 0%R.
Proof.
  unfold computeTrajectorySimilarity, cosineSimilarity.
  cbn [length Nat.min firstn map seq foldl]. literals.
  rewrite (proj2 (R_eqb_true 0 0)) by reflexivity. cbn [orb]. lra.
Qed.

Lemma directWeight_praise (from to : string) (n : Z) (avgCnt : R) :
  GoInt.in_range n ->
  directWeight Praise.cfg 0%Z avgCnt (Praise.praise from to n) =
    ((1 / 3 * (IZR n / avgCnt) + 1 / 3 * 1 + 1 / 3 * 0) * 1)%R.
Proof.
  intros Hn. unfold directWeight.
  rewrite timeFactor_at_once by reflexivity.
  cbn [Praise.praise it_TrajUser it_TrajProvider it_TxType it_UrgencyDegree].
  rewrite computeTrajectorySimilarity_empty.
  unfold totalEvents, GoInt.add. cbn [Praise.praise it_PosEvents it_NegEvents].
  rewrite Z.add_0_r, wrap_in_range by exact Hn.
  unfold CalculateTransactionWeight, NormalTxWeight. cbn [Z.eqb NormalTransaction].
  literals. cbn [Praise.cfg Rho1 Rho2 Rho3 Eta]. f_equal. lra.
Qed.

(** The opinion of the only evaluator of a subject, for [n >= 1] positive
    events: belief [n / (n + 2)], no disbelief, uncertainty [2 / (n + 2)],
    weight [2 / 3]. *)
Lemma totalEvents_praise (from to : string) (n : Z) :
  GoInt.in_range n -> totalEvents (Praise.praise from to n) = IZR n.
Proof.
  intros Hr. unfold totalEvents, GoInt.add. cbn [Praise.praise it_PosEvents it_NegEvents].
  rewrite Z.add_0_r, wrap_in_range by exact Hr. reflexivity.
Qed.

Lemma soleOpinion_praise (from to : string) (n : Z) :
  (1 <= n <= GoInt.max_int)%Z ->
  soleOpinion Praise.cfg 0%Z (Praise.praise from to n) =
    {| do_Opinion := {| op_T := IZR n / (IZR n + 2); op_D := 0; op_I := 2 / (IZR n + 2) |};
       do_Weight := 2 / 3 |}%R.
Proof.
  intros Hn. assert (GoInt.in_range n) as Hr by (unfold GoInt.in_range, GoInt.min_int; lia).
  assert (1 <= IZR n)%R as Hn1 by (apply IZR_le; lia).
  assert (directWeight Praise.cfg 0%Z
            ((of_int 0 + totalEvents (Praise.praise from to n)) / of_int 1)%f64
            (Praise.praise from to n) = (2 / 3)%R) as Hw.
  { rewrite directWeight_praise, totalEvents_praise by exact Hr. literals. field. lra. }
  unfold soleOpinion, weighed, uncertainty. rewrite Hw, totalEvents_praise by exact Hr.
  unfold errorFactor. cbn [Praise.praise it_NegEvents Praise.cfg Mu]. literals.
  rewrite (proj2 (R_eqb_false (0 + 2 / 3) 0)) by lra. cbn [negb].
  replace ((0 + 2 / 3 * 0) / (0 + 2 / 3))%R with 0%R by (field; lra).
  rewrite exp_0.
  unfold fillOpinion. cbn [Praise.praise it_PosEvents it_NegEvents do_Opinion do_Weight op_T op_D op_I].
  literals.
  rewrite (proj2 (R_ltb_true 0 _)) by lra.
  f_equal. f_equal; field; lra.
Qed.

(** ** Two nodes that evaluate each other *)

Lemma aggregateByPair_mutual :
  aggregateByPair Praise.mutual =
    <["A" := {["B" := Praise.praise "B" "A" 2]}]>
      (<["B" := {["A" := Praise.praise "A" "B" 2]}]> ∅).
Proof. vm_compute. reflexivity. Qed.

Lemma computeDirectOpinions_mutual :
  computeDirectOpinions Praise.cfg (aggregateByPair Praise.mutual) 0%Z =
    <["A" := {["B" := Praise.halfBelief]}]> (<["B" := {["A" := Praise.halfBelief]}]> ∅).
Proof.
  rewrite aggregateByPair_mutual, computeDirectOpinions_fmap.
  rewrite !fmap_insert, fmap_empty, !directOpinionsOf_singleton.
  rewrite !soleOpinion_praise by (vm_compute; split; discriminate). reflexivity.
Qed.

Lemma indirectOpinions_mutual :
  computeIndirectOpinions
    (computeDirectOpinions Praise.cfg (aggregateByPair Praise.mutual) 0%Z) !! "B"%string =
    Some {["A"%string := {| op_T := 1 / 2; op_D := 0; op_I := 1 / 2 |}%R]}.
Proof.
  rewrite computeIndirectOpinions_lookup, computeDirectOpinions_mutual.
  rewrite lookup_insert_ne by discriminate. rewrite lookup_insert_eq. cbn [fmap option_fmap option_map].
  rewrite indirectOpinionsOf_mutual. cbv zeta.
  cbn [Praise.halfBelief do_Opinion do_Weight op_T op_D op_I]. literals.
  rewrite (proj2 (R_ltb_true 0 _)) by lra.
  f_equal. f_equal. f_equal; field.
Qed.

(** The fused opinion about "B": belief 1, no disbelief, uncertainty 1/2. *)
Lemma fuseOpinions_mutual :
  let direct := computeDirectOpinions Praise.cfg (aggregateByPair Praise.mutual) 0%Z in
  fuseOpinions (default ∅ (direct !! "B"%string))
               (default ∅ (computeIndirectOpinions direct !! "B"%string)) =
    {| op_T := 1; op_D := 0; op_I := 1 / 2 |}%R.
Proof.
  cbv zeta. rewrite indirectOpinions_mutual, computeDirectOpinions_mutual.
  rewrite lookup_insert_ne by discriminate. rewrite lookup_insert_eq. reduce_default.
  rewrite fuseOpinions_singletons. cbv zeta.
  cbn [Praise.halfBelief do_Opinion do_Weight op_T op_D op_I]. literals.
  rewrite (proj2 (R_ltb_true 0 _)) by lra.
  unfold fusionDenominator. cbn [op_T op_D op_I]. literals.
  f_equal; field.
Qed.

Lemma ComputeReputation_mutual : ComputeReputation Praise.mutual "B" 0%Z = (5 / 4)%R.
Proof.
  rewrite ComputeReputation_inbound.
  - cbv zeta. change (rm_cfg Praise.mutual) with Praise.cfg.
    rewrite fuseOpinions_mutual. cbn [op_T op_I Praise.cfg Gamma]. literals. lra.
  - apply List.Exists_exists. exists (Praise.praise "A" "B" 2). split; [|reflexivity].
    left. reflexivity.
Qed.

(** * The direct aggregate over the real numbers *)

Lemma directAggregate_sums (dir : gmap string (DirectOpinion R)) :
  directAggregate dir =
    let '(sumW, sumTdir, sumDdir, sumIdir) := directSums (map_to_list dir) (0, 0, 0, 0)%R in
    if R_ltb 0 sumW
    then {| op_T := sumTdir / sumW; op_D := sumDdir / sumW; op_I := sumIdir / sumW |}%R
    else {| op_T := Q2R 0.0; op_D := Q2R 0.0; op_I := Q2R 0.0 |}.
Proof. reflexivity. Qed.

Lemma directSums_bounded (l : list (string * DirectOpinion R)) (sW sT sD sI : R) :
  List.Forall (fun p => boundedOpinion p.2) l ->
  (0 <= sT)%R -> (0 <= sD)%R -> (0 <= sI)%R -> (sT + sD + sI <= sW)%R ->
  let '(sW', sT', sD', sI') := directSums l (sW, sT, sD, sI) in
  (0 <= sT')%R /\ (0 <= sD')%R /\ (0 <= sI')%R /\ (sT' + sD' + sI' <= sW')%R.
Proof.
  revert sW sT sD sI. induction l as [|[k d] l IH]; intros sW sT sD sI Hall HT HD HI Hsum.
  - simpl. auto.
  - inversion Hall as [|? ? (Hw & Ht & Hd & Hi & Hle) Hall']; subst. cbn [snd] in *.
    unfold directSums. cbn [foldl]. apply IH; try exact Hall'.
    + pose proof (Rmult_le_pos _ _ Ht Hw). lra.
    + pose proof (Rmult_le_pos _ _ Hd Hw). lra.
    + pose proof (Rmult_le_pos _ _ Hi Hw). lra.
    + assert ((op_T (do_Opinion d) + op_D (do_Opinion d) + op_I (do_Opinion d)) * do_Weight d
              <= 1 * do_Weight d)%R by (apply Rmult_le_compat_r; assumption).
      lra.
Qed.

Lemma directSums_normalised (l : list (string * DirectOpinion R)) (sW sT sD sI : R) :
  List.Forall (fun p => (op_T (do_Opinion p.2) + op_D (do_Opinion p.2) + op_I (do_Opinion p.2)
                         = 1)%R) l ->
  (sT + sD + sI = sW)%R ->
  let '(sW', sT', sD', sI') := directSums l (sW, sT, sD, sI) in
  (sT' + sD' + sI' = sW')%R.
Proof.
  revert sW sT sD sI. induction l as [|[k d] l IH]; intros sW sT sD sI Hall Hsum.
  - simpl. auto.
  - inversion Hall as [|? ? Hone Hall']; subst. cbn [snd] in *.
    unfold directSums. cbn [foldl]. apply IH; [exact Hall'|].
    assert ((op_T (do_Opinion d) + op_D (do_Opinion d) + op_I (do_Opinion d)) * do_Weight d
            = 1 * do_Weight d)%R by (rewrite Hone; reflexivity).
    lra.
Qed.

Lemma entries_Forall {A : Type} (P : A -> Prop) (m : gmap string A) :
  (forall (k : string) (x : A), m !! k = Some x -> P x) ->
  List.Forall (fun p => P p.2) (map_to_list m).
Proof.
  intros Hm. apply List.Forall_forall. intros [k x] Hin.
  apply list_elem_of_In, elem_of_map_to_list in Hin. exact (Hm k x Hin).
Qed.

(** The aggregate of bounded opinions is bounded. *)
Lemma directAggregate_bounded (dir : gmap string (DirectOpinion R)) :
  (forall (from : string) (d : DirectOpinion R), dir !! from = Some d -> boundedOpinion d) ->
  (0 <= op_T (directAggregate dir))%R /\ (0 <= op_D (directAggregate dir))%R /\
  (0 <= op_I (directAggregate dir))%R /\
  (op_T (directAggregate dir) + op_D (directAggregate dir) + op_I (directAggregate dir) <= 1)%R.
Proof.
  intros Hdir. rewrite directAggregate_sums.
  pose proof (directSums_bounded (map_to_list dir) 0 0 0 0
                (entries_Forall boundedOpinion dir Hdir)
                ltac:(lra) ltac:(lra) ltac:(lra) ltac:(lra)) as Hs.
  destruct (directSums (map_to_list dir) (0, 0, 0, 0)%R) as [[[sW sT] sD] sI].
  destruct Hs as (HT & HD & HI & Hsum).
  destruct (R_ltb 0 sW) eqn:Hpos; cbn [op_T op_D op_I].
  - apply R_ltb_true in Hpos.
    repeat split; try (apply Rdiv_nonneg; assumption).
    replace (sT / sW + sD / sW + sI / sW)%R with ((sT + sD + sI) / sW)%R by (field; lra).
    apply Rdiv_le_one; assumption.
  - unfold Q2R. cbn [Qnum Qden]. lra.
Qed.

(** The aggregate of bounded opinions that sum to 1, with a positive total
    weight, is normalised. *)
Lemma directAggregate_normalised (dir : gmap string (DirectOpinion R)) :
  (forall (from : string) (d : DirectOpinion R),
     dir !! from = Some d ->
     boundedOpinion d /\
     (op_T (do_Opinion d) + op_D (do_Opinion d) + op_I (do_Opinion d) = 1)%R) ->
  (0 < totalWeight dir)%R ->
  normalisedOpinion (directAggregate dir).
Proof.
  intros Hdir Hw.
  pose proof (directAggregate_bounded dir (fun k d Hk => proj1 (Hdir k d Hk)))
    as (HT & HD & HI & Hle).
  assert (op_T (directAggregate dir) + op_D (directAggregate dir) + op_I (directAggregate dir)
          = 1)%R as Hone.
  { rewrite directAggregate_sums. unfold totalWeight in Hw.
    pose proof (directSums_normalised (map_to_list dir) 0 0 0 0
                  (entries_Forall (fun d => _ = 1%R) dir (fun k d Hk => proj2 (Hdir k d Hk)))
                  ltac:(lra)) as Hs.
    destruct (directSums (map_to_list dir) (0, 0, 0, 0)%R) as [[[sW sT] sD] sI].
    cbn [fst] in Hw. rewrite (proj2 (R_ltb_true 0 sW) Hw). cbn [op_T op_D op_I].
    replace (sT / sW + sD / sW + sI / sW)%R with ((sT + sD + sI) / sW)%R by (field; lra).
    rewrite Hs. field. lra. }
  unfold normalisedOpinion. repeat split; lra.
Qed.

(** * The reputation score and the opinions behind it *)

Lemma weighed_T (cfg : Config R) (now : Time) (avgCnt : R) (inter : Interaction R) :
  op_T (do_Opinion (weighed cfg now avgCnt inter)) = 0%R.
Proof. reflexivity. Qed.

Lemma weighed_D (cfg : Config R) (now : Time) (avgCnt : R) (inter : Interaction R) :
  op_D (do_Opinion (weighed cfg now avgCnt inter)) = 0%R.
Proof. reflexivity. Qed.

(** The opinion of one evaluator, as the two loops of
    [computeDirectOpinions] leave it. *)
Lemma directOpinion_bounded (cfg : Config R) (now : Time)
  (fromMap : gmap string (Interaction R)) (from : string) (d : DirectOpinion R) :
  (0 <= Mu cfg <= 1)%R ->
  (forall (from : string) (inter : Interaction R),
     fromMap !! from = Some inter -> wellFormed inter) ->
  directOpinionsOf cfg now fromMap !! from = Some d ->
  (0 <= do_Weight d)%R ->
  boundedOpinion d.
Proof.
  intros Hmu Hwf Hd Hw. rewrite directOpinionsOf_lookup in Hd.
  destruct (fromMap !! from) as [inter|] eqn:Hinter; [|discriminate].
  cbn [fmap option_fmap option_map] in Hd. injection Hd as <-.
  destruct (uncertainty_R inter (Hwf _ _ Hinter)) as [_ Hu].
  destruct (fillOpinion_bounds
              (errorFactor cfg (weighOpinions cfg now fromMap).1.2 (weighOpinions cfg now fromMap).2)
              inter (weighed cfg now (averageCount fromMap) inter)
              (errorFactor_range _ _ _ Hmu) (Hwf _ _ Hinter)
              (weighed_T _ _ _ _) (weighed_D _ _ _ _))
    as (HT & HD & HI & Hsum & HW).
  { cbn [weighed do_Opinion op_I]. lra. }
  unfold boundedOpinion. rewrite HW in Hw. rewrite HI in *. cbn [weighed do_Opinion op_I] in *.
  repeat split; try assumption; lra.
Qed.

Lemma directOpinion_normalised (cfg : Config R) (now : Time)
  (fromMap : gmap string (Interaction R)) (from : string) (d : DirectOpinion R) :
  (0 < Mu cfg <= 1)%R ->
  (forall (from : string) (inter : Interaction R),
     fromMap !! from = Some inter -> wellFormed inter) ->
  (weighOpinions cfg now fromMap).2 <> 0%R ->
  directOpinionsOf cfg now fromMap !! from = Some d ->
  normalisedOpinion (do_Opinion d).
Proof.
  intros Hmu Hwf Hden Hd. pose proof Hd as Hd'. rewrite directOpinionsOf_lookup in Hd.
  destruct (fromMap !! from) as [inter|] eqn:Hinter; [|discriminate].
  cbn [fmap option_fmap option_map] in Hd. injection Hd as <-.
  destruct (uncertainty_R inter (Hwf _ _ Hinter)) as [_ Hu].
  pose proof (errorFactor_strict cfg (weighOpinions cfg now fromMap).1.2 _ Hmu Hden) as Hth.
  destruct (fillOpinion_bounds _ inter (weighed cfg now (averageCount fromMap) inter)
              ltac:(split; left; apply Hth) (Hwf _ _ Hinter)
              (weighed_T _ _ _ _) (weighed_D _ _ _ _))
    as (HT & HD & HI & Hsum & _).
  { cbn [weighed do_Opinion op_I]. lra. }
  pose proof (fillOpinion_normalised _ inter (weighed cfg now (averageCount fromMap) inter)
                Hth (Hwf _ _ Hinter) (weighed_T _ _ _ _) (weighed_D _ _ _ _) eq_refl) as Hone.
  cbv zeta in *. rewrite HI in *. cbn [weighed do_Opinion op_I] in *.
  unfold normalisedOpinion. repeat split; lra.
Qed.

(** C1, as the code has it (real arithmetic). A target without inbound
    interaction gets exactly 0.5. A target with inbound interactions gets a
    score in [0,1] when no indirect opinion about it exists, under the
    conditions the specification puts on the inputs: [Gamma] and [Mu] in
    [0,1], counts that are not negative (and whose sum is an [int]), an
    average count that is not zero, and direct weights that are not
    negative. With indirect opinions the consensus formula can take the score above 1. *)
Theorem ComputeReputation_range (rm : ReputationManager R) (target : string) (now : Time) :
  (Forall (fun inter => it_To inter <> target) (rm_interactions rm) ->
   ComputeReputation rm target now = (1 / 2)%R) /\
  (forall fromMap : gmap string (Interaction R),
     aggregateByPair rm !! target = Some fromMap ->
     (0 <= Gamma (rm_cfg rm) <= 1)%R ->
     (0 <= Mu (rm_cfg rm) <= 1)%R ->
     (forall (from : string) (inter : Interaction R),
        fromMap !! from = Some inter -> wellFormed inter) ->
     averageCount fromMap <> 0%R ->
     (forall (from : string) (d : DirectOpinion R),
        directOpinionsOf (rm_cfg rm) now fromMap !! from = Some d -> (0 <= do_Weight d)%R) ->
     indirectOpinionsOf (computeDirectOpinions (rm_cfg rm) (aggregateByPair rm) now) target = ∅ ->
     (0 <= ComputeReputation rm target now <= 1)%R).
Proof.
  split.
  - intros Hnone. rewrite ComputeReputation_no_inbound by exact Hnone.
    unfold InitialReputation. literals. lra.
  - intros fromMap Hagg Hgamma Hmu Hwf _ Hweights Hind.
    unfold ComputeReputation. rewrite Hagg.
    rewrite computeIndirectOpinions_lookup, computeDirectOpinions_lookup, Hagg.
    cbn [fmap option_fmap option_map]. reduce_default.
    rewrite Hind, fuseOpinions_no_indirect.
    destruct (directAggregate_bounded (directOpinionsOf (rm_cfg rm) now fromMap))
      as (HT & HD & HI & Hsum).
    { intros from d Hd. eapply directOpinion_bounded; eauto. }
    literals.
    pose proof (Rmult_le_pos _ _ (proj1 Hgamma) HI) as Hlow.
    assert (Gamma (rm_cfg rm) * op_I (directAggregate (directOpinionsOf (rm_cfg rm) now fromMap))
            <= 1 * op_I (directAggregate (directOpinionsOf (rm_cfg rm) now fromMap)))%R as Hup
      by (apply Rmult_le_compat_r; lra).
    lra.
Qed.

(** ** One evaluator *)

Lemma aggregateByPair_single :
  aggregateByPair Praise.single = {["B"%string := {["A"%string := Praise.praise "A" "B" 1]}]}.
Proof. vm_compute. reflexivity. Qed.

Lemma computeDirectOpinions_single :
  computeDirectOpinions Praise.cfg (aggregateByPair Praise.single) 0%Z =
    {["B"%string := {["A"%string := soleOpinion Praise.cfg 0%Z (Praise.praise "A" "B" 1)]}]}.
Proof.
  rewrite aggregateByPair_single, computeDirectOpinions_fmap.
  rewrite map_fmap_singleton, directOpinionsOf_singleton. reflexivity.
Qed.

Lemma wellFormed_praise (from to : string) (n : Z) :
  (0 <= n <= GoInt.max_int)%Z -> wellFormed (Praise.praise from to n).
Proof. intros Hn. unfold wellFormed. cbn [Praise.praise it_PosEvents it_NegEvents]. lia. Qed.

Lemma averageCount_singleton (from : string) (inter : Interaction R) :
  averageCount {[from := inter]} = ((0 + totalEvents inter) / 1)%R.
Proof.
  unfold averageCount. rewrite map_size_singleton, map_to_list_singleton. reflexivity.
Qed.

(** The hypotheses of [ComputeReputation_range] hold for the log with the
    single interaction of "A" about "B". *)
Lemma ComputeReputation_range_witness :
  (0 <= ComputeReputation Praise.single "B" 0%Z <= 1)%R.
Proof.
  apply (proj2 (ComputeReputation_range Praise.single "B" 0%Z)
           {["A"%string := Praise.praise "A" "B" 1]}).
  - rewrite aggregateByPair_single. apply lookup_singleton_eq.
  - cbn. lra.
  - cbn. lra.
  - intros from inter Hinter. apply lookup_singleton_Some in Hinter. destruct Hinter as [_ <-].
    apply wellFormed_praise. vm_compute. split; discriminate.
  - rewrite averageCount_singleton, totalEvents_praise by (vm_compute; split; discriminate). lra.
  - intros from d Hd. change (rm_cfg Praise.single) with Praise.cfg in Hd.
    rewrite directOpinionsOf_singleton, soleOpinion_praise in Hd
      by (vm_compute; split; discriminate).
    apply lookup_singleton_Some in Hd. destruct Hd as [_ <-]. cbn [do_Weight]. lra.
  - change (rm_cfg Praise.single) with Praise.cfg.
    rewrite computeDirectOpinions_single. apply indirectOpinionsOf_alone.
Defined.

(** The first seed scenario of the specification: one positive event gives
    the score 2/3. *)
Example ComputeReputation_single : ComputeReputation Praise.single "B" 0%Z = (2 / 3)%R.
Proof.
  unfold ComputeReputation. rewrite aggregateByPair_single at 1. rewrite lookup_singleton_eq.
  change (rm_cfg Praise.single) with Praise.cfg.
  rewrite computeIndirectOpinions_lookup, computeDirectOpinions_single, lookup_singleton_eq.
  cbn [fmap option_fmap option_map]. reduce_default.
  rewrite indirectOpinionsOf_alone, fuseOpinions_no_indirect, directAggregate_singleton.
  rewrite soleOpinion_praise by (vm_compute; split; discriminate).
  cbv zeta. cbn [do_Opinion do_Weight op_T op_D op_I]. literals.
  rewrite (proj2 (R_ltb_true 0 _)) by lra. cbn [op_T op_I Praise.cfg Gamma]. field.
Qed.

(** C1, as stated, fails. "A" and "B" report two positive events about each
    other: "B" has an inbound interaction and its score is 5/4. *)
Lemma mutual_praise_exceeds_one :
  Exists (fun inter => it_To inter = "B"%string) (rm_interactions Praise.mutual) /\
  ComputeReputation Praise.mutual "B" 0%Z = (5 / 4)%R /\
  ~ (0 <= ComputeReputation Praise.mutual "B" 0%Z <= 1)%R.
Proof.
  split; [|split].
  - apply List.Exists_exists. exists (Praise.praise "A" "B" 2). split; [|reflexivity].
    left. reflexivity.
  - apply ComputeReputation_mutual.
  - rewrite ComputeReputation_mutual. lra.
Qed.

Section ExponentialOverflow.

(** The platform's [math.Exp] and [math.Pow]; of [math.Exp] only the
    overflow is used: [Exp(x) = +Inf] above 709.8125. *)
Variable go_exp : float -> float.
Variable go_pow : float -> float -> float.
Hypothesis go_exp_overflow :
  forall x : float, (709.8125 <? x)%float = true -> go_exp x = infinity.

(** With 710 negative events and no positive one the error ratio is 710,
    [Exp] overflows, the error factor is [Mu / +Inf = 0], the guard
    [sumEvt > 0] fails and belief and disbelief stay 0. *)
Lemma directOpinion_overflow :
  let direct := computeDirectOpinions (Fmath := binary64_math go_exp go_pow)
                  OneWay.cfg (aggregateByPair Blame.log) 0%Z in
  default ∅ (direct !! "B"%string) !! "A"%string =
    Some {| do_Opinion := {| op_T := 0; op_D := 0; op_I := 2 / 712 |};
            do_Weight := 0.5 |}%float.
Proof using go_exp_overflow.
  cbv zeta. vm_compute.
  rewrite (go_exp_overflow 710%float eq_refl). vm_compute. reflexivity.
Qed.

End ExponentialOverflow.

(** C8, as the code has it. On every reading of [float64] a direct opinion
    keeps the uncertainty [2 / (2 + n)] of its evidence and has belief
    [(1 - I) * alpha / (alpha + beta)] and disbelief
    [(1 - I) * beta / (alpha + beta)], with [alpha = (1 - theta) * pos] and
    [beta = theta * neg], when the guard [alpha + beta > 0] passes, and
    belief and disbelief 0 otherwise. In real arithmetic, let [fromMap]
    hold the evidence about a subject, with well-formed counts, an average
    count that is not zero, an error-factor scale [Mu] in (0,1] and direct
    weights that do not sum to zero: then every direct opinion about the
    subject has components in [0,1] that sum to 1; and the fused opinion,
    when there is no indirect opinion, is the direct aggregate, which has
    components in [0,1] that sum to 1 when the weights are not negative and
    their sum is positive. On binary64 the guard can fail where it passes
    in real arithmetic: for 710 negative events and no positive one [Exp]
    overflows, the error factor is 0 and the opinion is (0, 0, 2/712). The
    consensus formula with indirect opinions does not normalise. *)
Theorem opinions_normalised :
  (forall (F : Type) (Fops : Float64 F) (Fmath : Float64Math F) (cfg : Config F)
          (agg : gmap string (gmap string (Interaction F))) (now : Time)
          (to from : string) (d : DirectOpinion F),
     default ∅ (computeDirectOpinions cfg agg now !! to) !! from = Some d ->
     exists (fromMap : gmap string (Interaction F)) (inter : Interaction F),
       agg !! to = Some fromMap /\ fromMap !! from = Some inter /\
       let theta := errorFactor cfg (weighOpinions cfg now fromMap).1.2
                                    (weighOpinions cfg now fromMap).2 in
       let alpha := ((flit 1 - theta) * of_int (it_PosEvents inter))%f64 in
       let beta := (theta * of_int (it_NegEvents inter))%f64 in
       let Ii := uncertainty inter in
       op_I (do_Opinion d) = Ii /\
       if (alpha + beta >? of_int 0)%f64
       then op_T (do_Opinion d) = ((flit 1 - Ii) * alpha / (alpha + beta))%f64 /\
            op_D (do_Opinion d) = ((flit 1 - Ii) * beta / (alpha + beta))%f64
       else op_T (do_Opinion d) = of_int 0 /\ op_D (do_Opinion d) = of_int 0) /\
  (forall (cfg : Config R) (agg : gmap string (gmap string (Interaction R)))
          (now : Time) (to : string) (fromMap : gmap string (Interaction R)),
     agg !! to = Some fromMap ->
     (0 < Mu cfg <= 1)%R ->
     (forall (from : string) (inter : Interaction R),
        fromMap !! from = Some inter -> wellFormed inter) ->
     averageCount fromMap <> 0%R ->
     (weighOpinions cfg now fromMap).2 <> 0%R ->
     let dir := default ∅ (computeDirectOpinions cfg agg now !! to) in
     (forall (from : string) (d : DirectOpinion R),
        dir !! from = Some d -> normalisedOpinion (do_Opinion d)) /\
     fuseOpinions dir ∅ = directAggregate dir /\
     ((forall (from : string) (d : DirectOpinion R),
         dir !! from = Some d -> (0 <= do_Weight d)%R) ->
      (0 < totalWeight dir)%R ->
      normalisedOpinion (fuseOpinions dir ∅))) /\
  (forall (go_exp : float -> float) (go_pow : float -> float -> float),
     (forall x : float, (709.8125 <? x)%float = true -> go_exp x = infinity) ->
     let direct := computeDirectOpinions (Fmath := binary64_math go_exp go_pow)
                     OneWay.cfg (aggregateByPair Blame.log) 0%Z in
     default ∅ (direct !! "B"%string) !! "A"%string =
       Some {| do_Opinion := {| op_T := 0; op_D := 0; op_I := 2 / 712 |};
               do_Weight := 0.5 |}%float).
Proof.
  split; [|split].
  - intros F Fops Fmath cfg agg now to from d. apply directOpinion_shape.
  - intros cfg agg now to fromMap Hagg Hmu Hwf _ Hden dir.
    assert (dir = directOpinionsOf cfg now fromMap) as ->.
    { subst dir. rewrite computeDirectOpinions_lookup, Hagg. reflexivity. }
    split; [|split].
    + intros from d Hd. eapply directOpinion_normalised; eauto.
    + apply fuseOpinions_no_indirect.
    + intros Hweights Htotal. rewrite fuseOpinions_no_indirect.
      apply directAggregate_normalised; [|exact Htotal].
      intros from d Hd. split.
      * eapply directOpinion_bounded; eauto. lra.
      * eapply directOpinion_normalised; eauto.
  - intros go_exp go_pow Hover. apply directOpinion_overflow, Hover.
Qed.

Lemma weighOpinions_singleton_den (cfg : Config R) (now : Time) (from : string)
  (inter : Interaction R) :
  (weighOpinions cfg now {[from := inter]}).2 =
    (0 + directWeight cfg now ((0 + totalEvents inter) / 1) inter)%R.
Proof.
  unfold weighOpinions. rewrite averageCount_singleton, map_to_list_singleton. reflexivity.
Qed.

(** The hypotheses of the reading in real arithmetic hold for the log with
    the single interaction of "A" about "B". *)
Lemma opinions_normalised_witness :
  let dir := default ∅ (computeDirectOpinions Praise.cfg (aggregateByPair Praise.single) 0%Z
                          !! "B"%string) in
  (forall (from : string) (d : DirectOpinion R),
     dir !! from = Some d -> normalisedOpinion (do_Opinion d)) /\
  fuseOpinions dir ∅ = directAggregate dir /\
  ((forall (from : string) (d : DirectOpinion R), dir !! from = Some d -> (0 <= do_Weight d)%R) ->
   (0 < totalWeight dir)%R ->
   normalisedOpinion (fuseOpinions dir ∅)).
Proof.
  apply (proj1 (proj2 opinions_normalised) Praise.cfg (aggregateByPair Praise.single) 0%Z "B"
           {["A"%string := Praise.praise "A" "B" 1]}).
  - rewrite aggregateByPair_single. apply lookup_singleton_eq.
  - cbn. lra.
  - intros from inter Hinter. apply lookup_singleton_Some in Hinter. destruct Hinter as [_ <-].
    apply wellFormed_praise. vm_compute. split; discriminate.
  - rewrite averageCount_singleton, totalEvents_praise by (vm_compute; split; discriminate). lra.
  - rewrite weighOpinions_singleton_den, directWeight_praise, totalEvents_praise
      by (vm_compute; split; discriminate).
    intros Hzero. field_simplify in Hzero; lra.
Defined.

(** C8, as stated, fails for the fused opinion. For two nodes that report
    two positive events about each other the fused opinion about "B" is
    belief 1, disbelief 0, uncertainty 1/2: the components sum to 3/2. *)
Lemma fused_opinion_not_normalised :
  Praise.fusedAboutB = {| op_T := 1; op_D := 0; op_I := 1 / 2 |}%R /\
  ~ normalisedOpinion Praise.fusedAboutB.
Proof.
  assert (Praise.fusedAboutB = {| op_T := 1; op_D := 0; op_I := 1 / 2 |}%R) as Heq
    by apply fuseOpinions_mutual.
  split; [exact Heq|]. rewrite Heq. unfold normalisedOpinion. cbn [op_T op_D op_I]. lra.
Qed.

(** * The fusion on binary64 *)

Section MachineArithmetic.

(** The platform's [math.Exp] and [math.Pow]; of [math.Exp] only
    [Exp(0) = 1] is used. *)
Variable go_exp : float -> float.
Variable go_pow : float -> float -> float.
Hypothesis go_exp_zero : go_exp 0%float = 1%float.

(** C2 on the code. In [OneWay.log] the target "C" has the inbound
    interaction of "A", and one indirect source, "S" (a path from "S" to "C"
    exists because "C" evaluated "S"; its only edge has no direct opinion, so
    the path carries the zero opinion with weight zero). The denominator [k]
    of the fusion is 0: every component of the fused opinion is NaN and so
    is the score, although the direct aggregate and the score it would give
    are numbers. *)
Theorem ComputeReputation_zero_denominator :
  let direct :=
    computeDirectOpinions (Fmath := binary64_math go_exp go_pow)
      OneWay.cfg (aggregateByPair OneWay.log) 0%Z in
  let dir := default ∅ (direct !! "C"%string) in
  let ind := default ∅ (computeIndirectOpinions direct !! "C"%string) in
  size ind = 1%nat /\
  fusionDenominator (directAggregate dir) (indirectAggregate ind) = 0%float /\
  PrimFloat.is_nan (op_T (fuseOpinions dir ind)) = true /\
  PrimFloat.is_nan (op_D (fuseOpinions dir ind)) = true /\
  PrimFloat.is_nan (op_I (fuseOpinions dir ind)) = true /\
  PrimFloat.is_nan
    (ComputeReputation (Fmath := binary64_math go_exp go_pow) OneWay.log "C" 0%Z) = true /\
  PrimFloat.is_nan
    (op_T (directAggregate dir) + Gamma OneWay.cfg * op_I (directAggregate dir))%f64 = false.
Proof using go_exp_zero.
  cbv zeta. repeat split; vm_compute; rewrite ?go_exp_zero; vm_compute; reflexivity.
Qed.

End MachineArithmetic.

(** The hypothesis of [ComputeReputation_zero_denominator] holds for the
    first-order exponential [1 + x]. *)
Lemma ComputeReputation_zero_denominator_witness :
  PrimFloat.is_nan
    (ComputeReputation
       (Fmath := binary64_math (fun x => (1 + x)%float) (fun x _ => x))
       OneWay.log "C" 0%Z) = true.
Proof.
  apply (ComputeReputation_zero_denominator (fun x => (1 + x)%float) (fun x _ => x)).
  vm_compute. reflexivity.
Defined.

(** * Further properties of the packages *)

(** ** The weight of a transaction type *)

(** X1. [CalculateTransactionWeight] over the real numbers: an interaction that
    is not of emergency type weighs 1, whatever its urgency; an emergency
    interaction weighs [3 * (1 + 0.8 * urgency)] capped at 8, so never more
    than 8, at least 3 for a non-negative urgency, and no less for a higher
    urgency. Nothing bounds the weight from below for a negative
    urgency. *)
Theorem CalculateTransactionWeight_bounds (txType : TransactionType) (u u' : R) :
  (txType <> reputation.EmergencyTransaction ->
   CalculateTransactionWeight txType u = 1%R) /\
  CalculateTransactionWeight reputation.EmergencyTransaction u =
    Rmin (3 * (1 + 8 / 10 * u)) 8 /\
  (CalculateTransactionWeight txType u <= 8)%R /\
  (0 <= u -> 3 <= CalculateTransactionWeight reputation.EmergencyTransaction u)%R /\
  (u <= u' -> CalculateTransactionWeight txType u <= CalculateTransactionWeight txType u')%R.
Proof.
  assert (forall v : R,
            CalculateTransactionWeight reputation.EmergencyTransaction v =
              Rmin (3 * (1 + 8 / 10 * v)) 8) as Hem.
  { intros v. unfold CalculateTransactionWeight, EmergencyTxBaseWeight, UrgencyImpactFactor,
      MaxWeightMultiplier. cbn [Z.eqb Pos.eqb reputation.EmergencyTransaction NormalTransaction].
    literals. unfold Rmin.
    destruct (R_ltb _ _) eqn:Hlt; [apply R_ltb_true in Hlt|apply R_ltb_false in Hlt];
      destruct (Rle_dec _ _); lra. }
  assert (forall v : R,
            txType <> reputation.EmergencyTransaction ->
            CalculateTransactionWeight txType v = 1%R) as Hno.
  { intros v Hne. unfold CalculateTransactionWeight, NormalTxWeight.
    destruct (txType =? NormalTransaction)%Z; [literals; lra|].
    destruct (Z.eqb_spec txType reputation.EmergencyTransaction) as [Heq|_]; [contradiction|].
    literals. lra. }
  split; [apply Hno|]. split; [apply Hem|].
  destruct (Z.eq_dec txType reputation.EmergencyTransaction) as [->|Hne].
  - rewrite !Hem. unfold Rmin. repeat split; intros; repeat destruct (Rle_dec _ _); lra.
  - rewrite !Hno by exact Hne. repeat split; intros; try lra.
    rewrite Hem. unfold Rmin. destruct (Rle_dec _ _); lra.
Qed.

(** ** Trajectory similarity over the real numbers *)

Lemma cosine_sums (a' b' pre_a pre_b : list R) (num sa : R) :
  length pre_a = length pre_b -> (length a' <= length b')%nat ->
  foldl (fun '(num, sa) i =>
           let ai := nth i (pre_a ++ a') (of_int 0) in
           let bi := nth i (pre_b ++ b') (of_int 0) in
           ((num + ai * bi)%f64, (sa + ai * ai)%f64))
        (num, sa) (seq (length pre_a) (length a')) =
    ((num + innerProduct a' b')%R, (sa + sumOfSquares a')%R).
Proof.
  revert b' pre_a pre_b num sa. induction a' as [|x a' IH]; intros b' pre_a pre_b num sa Hpre Hlen.
  - cbn. f_equal; lra.
  - destruct b' as [|y b']; [cbn in Hlen; lia|].
    cbn [length seq foldl]. rewrite nth_middle. rewrite Hpre at 1. rewrite nth_middle.
    specialize (IH b' (pre_a ++ [x]) (pre_b ++ [y])).
    rewrite <- !app_assoc in IH. cbn [app] in IH.
    rewrite length_app in IH. cbn [length] in IH. rewrite Nat.add_1_r in IH.
    rewrite IH.
    + cbn [innerProduct sumOfSquares]. literals. f_equal; lra.
    + rewrite !length_app. cbn [length]. lia.
    + cbn [length] in Hlen. lia.
Qed.

Lemma squares_sum (b : list R) (sb : R) :
  foldl (fun sb v => (sb + v * v)%f64) sb b = (sb + sumOfSquares b)%R.
Proof.
  revert sb. induction b as [|y b IH]; intros sb; cbn [foldl sumOfSquares]; [lra|].
  rewrite IH. literals. lra.
Qed.

Lemma cosineSimilarity_R (a b : list R) :
  (length a <= length b)%nat ->
  cosineSimilarity a b =
    if R_eqb (sumOfSquares a) 0 || R_eqb (sumOfSquares b) 0 then 0%R
    else (innerProduct a b / (R_sqrt.sqrt (sumOfSquares a) * R_sqrt.sqrt (sumOfSquares b)))%R.
Proof.
  intros Hlen. unfold cosineSimilarity.
  rewrite (cosine_sums a b [] [] (of_int 0) (of_int 0) eq_refl Hlen), squares_sum.
  literals. rewrite !Rplus_0_l. reflexivity.
Qed.

Lemma sumOfSquares_nonneg (a : list R) : (0 <= sumOfSquares a)%R.
Proof. induction a as [|x a IH]; cbn; [lra|nra]. Qed.

Lemma innerProduct_comm (a b : list R) : innerProduct a b = innerProduct b a.
Proof.
  revert b. induction a as [|x a IH]; intros [|y b]; cbn; try reflexivity. rewrite IH. lra.
Qed.

Lemma innerProduct_self (a : list R) : innerProduct a a = sumOfSquares a.
Proof. induction a as [|x a IH]; cbn; [reflexivity|]. rewrite IH. reflexivity. Qed.

(** Cauchy's inequality for the two sums. *)
Lemma innerProduct_squared (a b : list R) :
  (innerProduct a b * innerProduct a b <= sumOfSquares a * sumOfSquares b)%R.
Proof.
  revert b. induction a as [|x a IH]; intros b.
  - cbn. pose proof (sumOfSquares_nonneg b). nra.
  - destruct b as [|y b].
    + cbn. pose proof (sumOfSquares_nonneg a). nra.
    + cbn [innerProduct sumOfSquares]. specialize (IH b).
      pose proof (sumOfSquares_nonneg a) as HA. pose proof (sumOfSquares_nonneg b) as HB.
      set (d := innerProduct a b) in *. set (A := sumOfSquares a) in *.
      set (B := sumOfSquares b) in *. clearbody d A B.
      assert (2 * (x * y * d) <= x * x * B + A * (y * y))%R as Hmix.
      { assert (0 <= x * x)%R as Hxx by nra. assert (0 <= y * y)%R as Hyy by nra.
        assert (0 <= x * x * B + A * (y * y))%R as Hp
          by (apply Rplus_le_le_0_compat; apply Rmult_le_pos; assumption).
        assert ((2 * (x * y * d)) * (2 * (x * y * d)) <=
                (x * x * B + A * (y * y)) * (x * x * B + A * (y * y)))%R as Hsq.
        { assert (0 <= (x * x * B - A * (y * y)) * (x * x * B - A * (y * y)))%R
            by apply Rle_0_sqr.
          assert (0 <= (x * y) * (x * y))%R as Hxy by nra.
          assert ((x * y) * (x * y) * (d * d) <= (x * y) * (x * y) * (A * B))%R
            by (apply Rmult_le_compat_l; assumption).
          nra. }
        destruct (Rle_dec (2 * (x * y * d)) (x * x * B + A * (y * y))) as [Hle|Hgt];
          [exact Hle|]. exfalso. nra. }
      nra.
Qed.

Lemma cosineSimilarity_abs (a b : list R) :
  (length a <= length b)%nat -> (-1 <= cosineSimilarity a b <= 1)%R.
Proof.
  intros Hlen. rewrite (cosineSimilarity_R a b Hlen).
  destruct (R_eqb (sumOfSquares a) 0) eqn:Ha; [cbn [orb]; lra|].
  destruct (R_eqb (sumOfSquares b) 0) eqn:Hb; [cbn [orb]; lra|]. cbn [orb].
  apply R_eqb_false in Ha, Hb.
  pose proof (sumOfSquares_nonneg a) as HA. pose proof (sumOfSquares_nonneg b) as HB.
  pose proof (innerProduct_squared a b) as Hcs.
  set (n := innerProduct a b) in *. set (A := sumOfSquares a) in *.
  set (B := sumOfSquares b) in *.
  rewrite <- sqrt_mult by assumption.
  assert (0 < R_sqrt.sqrt (A * B))%R as Hpos by (apply sqrt_lt_R0; nra).
  assert (R_sqrt.sqrt (A * B) * R_sqrt.sqrt (A * B) = A * B)%R as Hss
    by (apply sqrt_sqrt; apply Rmult_le_pos; assumption).
  set (s := R_sqrt.sqrt (A * B)) in *. clearbody s n A B.
  assert (- s <= n <= s)%R as [Hlo Hhi] by (split; nra).
  split.
  - apply Rmult_le_reg_r with (r := s); [exact Hpos|].
    unfold Rdiv. rewrite Rmult_assoc, Rinv_l by lra. lra.
  - apply Rmult_le_reg_r with (r := s); [exact Hpos|].
    unfold Rdiv. rewrite Rmult_assoc, Rinv_l by lra. lra.
Qed.

(** X2. [cosineSimilarity] over the real numbers, for a first list that is not
    longer than the second (otherwise the code reads past the end of the
    second): the result lies in [-1, 1]; it is 0 when either list has only
    zeros or is empty; lists of the same length give the same result in
    either order, and a list that is not all zeros has similarity 1 with
    itself. *)
Theorem cosineSimilarity_range (a b : list R) :
  (length a <= length b)%nat ->
  (-1 <= cosineSimilarity a b <= 1)%R /\
  (sumOfSquares a = 0%R \/ sumOfSquares b = 0%R -> cosineSimilarity a b = 0%R) /\
  (length a = length b -> cosineSimilarity a b = cosineSimilarity b a) /\
  (sumOfSquares a <> 0%R -> cosineSimilarity a a = 1%R).
Proof.
  intros Hlen. split; [apply cosineSimilarity_abs, Hlen|]. split; [|split].
  - intros Hzero. rewrite (cosineSimilarity_R a b Hlen).
    destruct Hzero as [-> | ->].
    + rewrite (proj2 (R_eqb_true 0 0)) by reflexivity. reflexivity.
    + rewrite (proj2 (R_eqb_true 0 0)) by reflexivity. rewrite orb_true_r. reflexivity.
  - intros Heq. rewrite (cosineSimilarity_R a b), (cosineSimilarity_R b a) by lia.
    rewrite orb_comm, innerProduct_comm, Rmult_comm. reflexivity.
  - intros Hne. rewrite (cosineSimilarity_R a a) by lia.
    rewrite (proj2 (R_eqb_false _ _) Hne). cbn [orb].
    rewrite innerProduct_self, sqrt_sqrt by apply sumOfSquares_nonneg.
    unfold Rdiv. apply Rinv_r. exact Hne.
Qed.

(** The hypotheses of [cosineSimilarity_range] hold for two unit vectors at a right angle. *)
Lemma cosineSimilarity_range_witness :
  (-1 <= cosineSimilarity [1; 0]%R [0; 1]%R <= 1)%R /\
  (sumOfSquares [1; 0]%R = 0%R \/ sumOfSquares [0; 1]%R = 0%R ->
   cosineSimilarity [1; 0]%R [0; 1]%R = 0%R) /\
  (length [1; 0]%R = length [0; 1]%R ->
   cosineSimilarity [1; 0]%R [0; 1]%R = cosineSimilarity [0; 1]%R [1; 0]%R) /\
  (sumOfSquares [1; 0]%R <> 0%R -> cosineSimilarity [1; 0]%R [1; 0]%R = 1%R).
Proof.
  apply (cosineSimilarity_range [1; 0]%R [0; 1]%R). cbn. lia.
Defined.

(** X3. [computeTrajectorySimilarity] over the real numbers, for weights that
    are not negative: the similarity of two trajectories lies between
    [-(tau1 + tau2 + tau3)] and [tau1 + tau2 + tau3], whatever their
    lengths; and it can be negative: a point with speed, direction and
    acceleration 1 against a point with speed, direction and acceleration
    -1 has the similarity [-(tau1 + tau2 + tau3)], the lower bound. *)
Theorem computeTrajectorySimilarity_range (cfg : Config R) (user prov : list (Vector R)) :
  (0 <= Tau1 cfg)%R -> (0 <= Tau2 cfg)%R -> (0 <= Tau3 cfg)%R ->
  (- (Tau1 cfg + Tau2 cfg + Tau3 cfg) <= computeTrajectorySimilarity cfg user prov
   <= Tau1 cfg + Tau2 cfg + Tau3 cfg)%R /\
  computeTrajectorySimilarity cfg
    [{| v_Speed := 1%R; v_Direction := 1%R; v_Acceleration := 1%R |}]
    [{| v_Speed := (-1)%R; v_Direction := (-1)%R; v_Acceleration := (-1)%R |}] =
    (- (Tau1 cfg + Tau2 cfg + Tau3 cfg))%R /\
  ((0 < Tau1 cfg + Tau2 cfg + Tau3 cfg)%R ->
   (computeTrajectorySimilarity cfg
      [{| v_Speed := 1%R; v_Direction := 1%R; v_Acceleration := 1%R |}]
      [{| v_Speed := (-1)%R; v_Direction := (-1)%R; v_Acceleration := (-1)%R |}] < 0)%R).
Proof.
  intros H1 H2 H3.
  assert (computeTrajectorySimilarity cfg
            [{| v_Speed := 1%R; v_Direction := 1%R; v_Acceleration := 1%R |}]
            [{| v_Speed := (-1)%R; v_Direction := (-1)%R; v_Acceleration := (-1)%R |}] =
            (- (Tau1 cfg + Tau2 cfg + Tau3 cfg))%R) as Hopposite.
  { unfold computeTrajectorySimilarity. cbn [length Nat.min firstn map v_Speed v_Direction v_Acceleration].
    rewrite (cosineSimilarity_R [1%R] [(-1)%R]) by (cbn; lia).
    cbn [sumOfSquares innerProduct].
    rewrite (proj2 (R_eqb_false (1 * 1 + 0) 0)) by lra.
    rewrite (proj2 (R_eqb_false (-1 * -1 + 0) 0)) by lra. cbn [orb].
    replace (1 * 1 + 0)%R with 1%R by lra. replace (-1 * -1 + 0)%R with 1%R by lra.
    rewrite sqrt_1. literals. lra. }
  split; [|split; [exact Hopposite|rewrite Hopposite; lra]].
  unfold computeTrajectorySimilarity.
  set (n := Nat.min (length user) (length prov)).
  assert (forall f g : Vector R -> R,
            (length (map f (firstn n user)) <= length (map g (firstn n prov)))%nat) as Hlen.
  { intros f g. rewrite !length_map, !length_firstn. unfold n. lia. }
  pose proof (cosineSimilarity_abs _ _ (Hlen v_Speed v_Speed)) as Hs.
  pose proof (cosineSimilarity_abs _ _ (Hlen v_Direction v_Direction)) as Hd.
  pose proof (cosineSimilarity_abs _ _ (Hlen v_Acceleration v_Acceleration)) as Ha.
  literals. nra.
Qed.

(** The hypotheses of [computeTrajectorySimilarity_range] hold for the seed weights and two trajectories of one point; the opposite points have the similarity -1 there. *)
Lemma computeTrajectorySimilarity_range_witness :
  (- (Tau1 Praise.cfg + Tau2 Praise.cfg + Tau3 Praise.cfg)
   <= computeTrajectorySimilarity Praise.cfg
        [{| v_Speed := 1; v_Direction := 0; v_Acceleration := 1 |}]
        [{| v_Speed := 2; v_Direction := 1; v_Acceleration := -1 |}]
   <= Tau1 Praise.cfg + Tau2 Praise.cfg + Tau3 Praise.cfg)%R /\
  computeTrajectorySimilarity Praise.cfg
    [{| v_Speed := 1%R; v_Direction := 1%R; v_Acceleration := 1%R |}]
    [{| v_Speed := (-1)%R; v_Direction := (-1)%R; v_Acceleration := (-1)%R |}] =
    (- (Tau1 Praise.cfg + Tau2 Praise.cfg + Tau3 Praise.cfg))%R /\
  ((0 < Tau1 Praise.cfg + Tau2 Praise.cfg + Tau3 Praise.cfg)%R ->
   (computeTrajectorySimilarity Praise.cfg
      [{| v_Speed := 1%R; v_Direction := 1%R; v_Acceleration := 1%R |}]
      [{| v_Speed := (-1)%R; v_Direction := (-1)%R; v_Acceleration := (-1)%R |}] < 0)%R).
Proof.
  apply (computeTrajectorySimilarity_range Praise.cfg); cbn; lra.
Defined.

(** ** The time factor over the real numbers *)

Lemma Seconds_R (d : Duration) : Seconds (F := R) d = (IZR d / 1000000000)%R.
Proof.
  unfold Seconds. literals.
  pose proof (Z.quot_rem' d Second) as Hd. unfold Second in *.
  rewrite Hd at 3. rewrite plus_IZR, mult_IZR. lra.
Qed.

(** X4. [TIM] by the age of an interaction, for positive [eta] and [epsilon]:
    an interaction stamped at [now] or later gets exactly [eta]; one that
    is less than a second old gets more than [eta]; one that is a second
    old gets [eta]; an older one gets less, and more than 0. *)
Theorem timeFactor_by_age (cfg : Config R) (now : Time) (inter : Interaction R) :
  (0 < Eta cfg)%R -> (0 < Epsilon cfg)%R ->
  let age := Sub now (it_Timestamp inter) in
  ((age <= 0)%Z -> timeFactor cfg now inter = Eta cfg) /\
  ((0 < age < Second)%Z -> (Eta cfg < timeFactor cfg now inter)%R) /\
  (age = Second -> timeFactor cfg now inter = Eta cfg) /\
  ((Second < age)%Z -> (0 < timeFactor cfg now inter < Eta cfg)%R).
Proof.
  intros Heta Heps age. unfold timeFactor. fold age. rewrite Seconds_R. literals.
  assert (forall x : R, (0 < x)%R ->
            R_leb (x / 1000000000) 0 = false) as Hpos.
  { intros x Hx. apply R_leb_false. apply Rdiv_lt_0_compat; lra. }
  unfold Second. split; [|split; [|split]].
  - intros Hage. apply IZR_le in Hage.
    rewrite (proj2 (R_leb_true _ _)); [reflexivity|].
    apply Rmult_le_reg_r with (r := 1000000000%R); [lra|].
    unfold Rdiv. rewrite Rmult_assoc, Rinv_l by lra. lra.
  - intros [H0 H1]. apply IZR_lt in H0, H1. rewrite Hpos by exact H0.
    assert (0 < IZR age / 1000000000 < 1)%R as [Hd0 Hd1].
    { split; [apply Rdiv_lt_0_compat; lra|]. apply Rdiv_lt_one; lra. }
    unfold Rpower.
    assert (ln (IZR age / 1000000000) < 0)%R as Hln
      by (rewrite <- ln_1; apply ln_increasing; assumption).
    assert (1 < exp (- Epsilon cfg * ln (IZR age / 1000000000)))%R as Hexp
      by (rewrite <- exp_0; apply exp_increasing; nra).
    nra.
  - intros Hage. rewrite Hage.
    rewrite Hpos by lra.
    replace (1000000000 / 1000000000)%R with 1%R by lra.
    unfold Rpower. rewrite ln_1, Rmult_0_r, exp_0. lra.
  - intros H1. apply IZR_lt in H1. rewrite Hpos by lra.
    assert (1 < IZR age / 1000000000)%R as Hd1.
    { apply Rmult_lt_reg_r with (r := 1000000000%R); [lra|].
      unfold Rdiv. rewrite Rmult_assoc, Rinv_l by lra. lra. }
    unfold Rpower.
    assert (0 < ln (IZR age / 1000000000))%R as Hln
      by (rewrite <- ln_1; apply ln_increasing; lra).
    assert (exp (- Epsilon cfg * ln (IZR age / 1000000000)) < 1)%R as Hexp
      by (rewrite <- exp_0; apply exp_increasing; nra).
    pose proof (exp_pos (- Epsilon cfg * ln (IZR age / 1000000000))) as Hexp0.
    split; nra.
Qed.

(** The hypotheses of [timeFactor_by_age] hold for the seed configuration and an interaction that is half a second old. *)
Lemma timeFactor_by_age_witness :
  let age := Sub 500000000%Z (it_Timestamp (Praise.praise "A" "B" 1)) in
  ((age <= 0)%Z -> timeFactor Praise.cfg 500000000%Z (Praise.praise "A" "B" 1) = Eta Praise.cfg) /\
  ((0 < age < Second)%Z ->
   (Eta Praise.cfg < timeFactor Praise.cfg 500000000%Z (Praise.praise "A" "B" 1))%R) /\
  (age = Second -> timeFactor Praise.cfg 500000000%Z (Praise.praise "A" "B" 1) = Eta Praise.cfg) /\
  ((Second < age)%Z ->
   (0 < timeFactor Praise.cfg 500000000%Z (Praise.praise "A" "B" 1) < Eta Praise.cfg)%R).
Proof.
  apply (timeFactor_by_age Praise.cfg 500000000%Z (Praise.praise "A" "B" 1)); cbn; lra.
Defined.

(** ** What the aggregated log holds for a pair *)

Section PairFacts.
Context {F : Type} {Fops : Float64 F}.

Lemma aggregateStep_pair (agg : gmap string (gmap string (Interaction F)))
  (inter : Interaction F) (to from : string) :
  pairEntry (aggregateStep agg inter) to from =
    if String.eqb (it_To inter) to && String.eqb (it_From inter) from then
      match pairEntry agg to from with
      | None => Some inter
      | Some exist_ =>
          let later := After (it_Timestamp inter) (it_Timestamp exist_) in
          Some {| it_From := it_From exist_;
                  it_To := it_To exist_;
                  it_PosEvents := GoInt.add (it_PosEvents exist_) (it_PosEvents inter);
                  it_NegEvents := GoInt.add (it_NegEvents exist_) (it_NegEvents inter);
                  it_Timestamp := if later then it_Timestamp inter else it_Timestamp exist_;
                  it_TrajUser := if later then it_TrajUser inter else it_TrajUser exist_;
                  it_TrajProvider :=
                    if later then it_TrajProvider inter else it_TrajProvider exist_;
                  it_TxType := it_TxType exist_;
                  it_UrgencyDegree := it_UrgencyDegree exist_ |}
      end
    else pairEntry agg to from.
Proof.
  unfold pairEntry.
  destruct (String.eqb_spec (it_To inter) to) as [<-|Hto]; cbn [andb].
  - unfold aggregateStep.
    destruct (agg !! it_To inter) as [row|] eqn:Hrow; cbn zeta.
    + rewrite Hrow. reduce_default. cbn [mbind option_bind].
      destruct (String.eqb_spec (it_From inter) from) as [<-|Hfrom].
      * destruct (row !! it_From inter) as [exist_|] eqn:Hex;
          rewrite lookup_insert_eq; cbn [mbind option_bind]; rewrite lookup_insert_eq;
          reflexivity.
      * destruct (row !! it_From inter) as [exist_|] eqn:Hex;
          rewrite lookup_insert_eq; cbn [mbind option_bind];
          rewrite lookup_insert_ne by exact Hfrom; reflexivity.
    + rewrite lookup_insert_eq. reduce_default. rewrite lookup_empty.
      rewrite insert_insert_eq, lookup_insert_eq. cbn [mbind option_bind].
      destruct (String.eqb_spec (it_From inter) from) as [<-|Hfrom].
      * apply lookup_insert_eq.
      * rewrite lookup_insert_ne by exact Hfrom. apply lookup_empty.
  - rewrite aggregateStep_lookup_ne by exact Hto. reflexivity.
Qed.

Lemma aggregate_pair_more (log : list (Interaction F))
  (agg : gmap string (gmap string (Interaction F))) (to from : string)
  (exist_ : Interaction F) :
  pairEntry agg to from = Some exist_ ->
  exists entry : Interaction F,
    pairEntry (foldl aggregateStep agg log) to from = Some entry /\
    it_To entry = it_To exist_ /\ it_From entry = it_From exist_ /\
    it_TxType entry = it_TxType exist_ /\
    it_UrgencyDegree entry = it_UrgencyDegree exist_ /\
    it_PosEvents entry =
      foldl (fun n inter => GoInt.add n (it_PosEvents inter)) (it_PosEvents exist_)
            (pairLog log to from) /\
    it_NegEvents entry =
      foldl (fun n inter => GoInt.add n (it_NegEvents inter)) (it_NegEvents exist_)
            (pairLog log to from) /\
    it_Timestamp entry =
      foldl (fun t inter => Z.max t (it_Timestamp inter)) (it_Timestamp exist_)
            (pairLog log to from).
Proof.
  revert agg exist_. induction log as [|inter log IH]; intros agg exist_ Hex.
  - exists exist_. cbn. repeat split. exact Hex.
  - cbn [foldl]. unfold pairLog. cbn [List.filter]. fold (pairLog log to from).
    pose proof (aggregateStep_pair agg inter to from) as Hstep. rewrite Hex in Hstep.
    destruct (String.eqb (it_To inter) to && String.eqb (it_From inter) from) eqn:Hm.
    + cbv zeta in Hstep. destruct (IH _ _ Hstep) as (entry & He & H1 & H2 & H3 & H4 & H5 & H6 & H7).
      exists entry. cbn [it_To it_From it_TxType it_UrgencyDegree it_PosEvents it_NegEvents
                         it_Timestamp] in *.
      split; [exact He|]. repeat split; try assumption.
      rewrite H7. cbn [foldl]. f_equal. unfold After.
      destruct (Z.ltb_spec (it_Timestamp exist_) (it_Timestamp inter)); lia.
    + destruct (IH _ _ Hstep) as (entry & He & Hrest). exists entry. split; assumption.
Qed.

Lemma wrap_add_wrap (a b : Z) : GoInt.wrap (GoInt.wrap a + b) = GoInt.wrap (a + b).
Proof.
  unfold GoInt.wrap. f_equal.
  replace ((a + 2 ^ 63) mod 2 ^ 64 - 2 ^ 63 + b + 2 ^ 63)%Z
    with ((a + 2 ^ 63) mod 2 ^ 64 + b)%Z by lia.
  rewrite Zplus_mod_idemp_l. f_equal. lia.
Qed.

Lemma wrapped_sum (f : Interaction F -> Z) (l : list (Interaction F)) (n : Z) :
  GoInt.wrap (foldl (fun n inter => GoInt.add n (f inter)) n l) =
    GoInt.wrap (n + foldr Z.add 0%Z (map f l)).
Proof.
  revert n. induction l as [|inter l IH]; intros n; cbn [foldl map foldr].
  - f_equal. lia.
  - rewrite IH. unfold GoInt.add. rewrite wrap_add_wrap. f_equal. lia.
Qed.

Lemma aggregate_pair_first (to from : string) (log : list (Interaction F))
  (agg : gmap string (gmap string (Interaction F))) :
  pairEntry agg to from = None ->
  match pairLog log to from with
  | [] => pairEntry (foldl aggregateStep agg log) to from = None
  | first :: rest =>
      exists entry : Interaction F,
        pairEntry (foldl aggregateStep agg log) to from = Some entry /\
        it_To entry = it_To first /\ it_From entry = it_From first /\
        it_TxType entry = it_TxType first /\
        it_UrgencyDegree entry = it_UrgencyDegree first /\
        it_PosEvents entry =
          foldl (fun n inter => GoInt.add n (it_PosEvents inter)) (it_PosEvents first) rest /\
        it_NegEvents entry =
          foldl (fun n inter => GoInt.add n (it_NegEvents inter)) (it_NegEvents first) rest /\
        it_Timestamp entry =
          foldl (fun t inter => Z.max t (it_Timestamp inter)) (it_Timestamp first) rest
  end.
Proof.
  revert agg. induction log as [|inter log IH]; intros agg Hnone; [exact Hnone|].
  cbn [foldl]. unfold pairLog. cbn [List.filter]. fold (pairLog log to from).
  pose proof (aggregateStep_pair agg inter to from) as Hstep. rewrite Hnone in Hstep.
  destruct (String.eqb (it_To inter) to && String.eqb (it_From inter) from) eqn:Hm.
  - apply (aggregate_pair_more log _ to from inter Hstep).
  - apply IH. exact Hstep.
Qed.

Lemma aggregateByPair_entry (rm : ReputationManager F) (inter : Interaction F) :
  In inter (rm_interactions rm) ->
  is_Some (pairEntry (aggregateByPair rm) (it_To inter) (it_From inter)).
Proof.
  intros Hin. unfold aggregateByPair.
  pose proof (aggregate_pair_first (it_To inter) (it_From inter) (rm_interactions rm) ∅ eq_refl)
    as Hgen.
  destruct (pairLog (rm_interactions rm) (it_To inter) (it_From inter)) as [|first rest] eqn:Hpl.
  - exfalso. assert (In inter (pairLog (rm_interactions rm) (it_To inter) (it_From inter))) as Hx.
    { unfold pairLog. apply List.filter_In. split; [exact Hin|].
      rewrite !String.eqb_refl. reflexivity. }
    rewrite Hpl in Hx. exact Hx.
  - destruct Hgen as (entry & He & _). rewrite He. eauto.
Qed.

(** X5. What [aggregateByPair] holds for a pair of nodes. There is an entry
    exactly when the log has an interaction from [from] about [to]. The
    entry carries the two names, the type and the urgency of the first such
    interaction (those of later ones are dropped), the latest of their time
    stamps, and as counts the sums of their counts in the arithmetic of
    [int], which is the true sum reduced to the range of [int]. *)
Theorem aggregateByPair_pair (rm : ReputationManager F) (to from : string) :
  match pairLog (rm_interactions rm) to from with
  | [] => pairEntry (aggregateByPair rm) to from = None
  | first :: rest =>
      exists entry : Interaction F,
        pairEntry (aggregateByPair rm) to from = Some entry /\
        it_To entry = to /\ it_From entry = from /\
        it_TxType entry = it_TxType first /\
        it_UrgencyDegree entry = it_UrgencyDegree first /\
        it_Timestamp entry =
          foldl (fun t inter => Z.max t (it_Timestamp inter)) (it_Timestamp first) rest /\
        GoInt.wrap (it_PosEvents entry) =
          GoInt.wrap (foldr Z.add 0%Z (map it_PosEvents (first :: rest))) /\
        GoInt.wrap (it_NegEvents entry) =
          GoInt.wrap (foldr Z.add 0%Z (map it_NegEvents (first :: rest))) /\
        (rest <> [] -> GoInt.in_range (it_PosEvents entry) /\ GoInt.in_range (it_NegEvents entry))
  end.
Proof.
  unfold aggregateByPair.
  pose proof (aggregate_pair_first to from (rm_interactions rm) ∅ eq_refl) as Hgen.
  destruct (pairLog (rm_interactions rm) to from) as [|first rest] eqn:Hpl; [exact Hgen|].
  destruct Hgen as (entry & He & H1 & H2 & H3 & H4 & H5 & H6 & H7).
  assert (In first (pairLog (rm_interactions rm) to from)) as Hin by (rewrite Hpl; left; reflexivity).
  unfold pairLog in Hin. apply List.filter_In in Hin. destruct Hin as [_ Hm].
  apply andb_true_iff in Hm. destruct Hm as [Hto Hfrom].
  apply String.eqb_eq in Hto, Hfrom.
  exists entry. split; [exact He|]. split; [congruence|]. split; [congruence|].
  split; [exact H3|]. split; [exact H4|]. split; [exact H7|].
  split; [|split].
  - rewrite H5, wrapped_sum. reflexivity.
  - rewrite H6, wrapped_sum. reflexivity.
  - intros Hrest. rewrite H5, H6.
    assert (forall (f : Interaction F -> Z) (n : Z),
              GoInt.in_range (foldl (fun n inter => GoInt.add n (f inter)) n rest)) as Hr.
    { intros f n. destruct rest as [|r rest'] using rev_ind; [contradiction|].
      rewrite foldl_app. cbn [foldl]. unfold GoInt.add, GoInt.wrap, GoInt.in_range,
        GoInt.min_int, GoInt.max_int.
      match goal with |- context [(?x mod 2 ^ 64)%Z] =>
        pose proof (Z.mod_pos_bound x (2 ^ 64) eq_refl) end. lia. }
    split; apply Hr.
Qed.

End PairFacts.

(** ** The sources of indirect opinions *)

Section SourceFacts.
Context {F : Type} {Fops : Float64 F} {Fmath : Float64Math F}.

Lemma dfs_one_edge (direct : gmap string (gmap string (DirectOpinion F)))
  (target source : string) (row : gmap string (DirectOpinion F)) :
  source <> target -> direct !! source = Some row -> is_Some (row !! target) ->
  In [source; target] (dfs direct target (hopCount + 2) [source]).
Proof.
  intros Hne Hrow [d Hd]. change (hopCount + 2)%nat with 4%nat. cbn [dfs List.last length].
  change (hopCount <? 1 - 1)%nat with false. cbn iota.
  rewrite (proj2 (String.eqb_neq source target) Hne). cbn [andb].
  rewrite Hrow. reduce_default. apply in_flat_map. exists (target, d). split.
  - apply list_elem_of_In, elem_of_map_to_list, Hd.
  - unfold contains. cbn [existsb]. rewrite (proj2 (String.eqb_neq source target) Hne).
    cbn [orb app dfs List.last length]. change (hopCount <? 2 - 1)%nat with false. cbn iota.
    rewrite String.eqb_refl. cbn. left. reflexivity.
Qed.

Lemma accumulate_lookup (direct : gmap string (gmap string (DirectOpinion F)))
  (source : string) (paths : list (list string))
  (row : gmap string (SubjectiveOpinion F)) (sumW : F) :
  let result :=
    foldl (fun '(row, sumW) path =>
             let '(T, D, I_, w) := discountPath direct path in
             let agg := default zeroOpinion (row !! source) in
             let agg := {| op_T := (op_T agg + T * w)%f64;
                           op_D := (op_D agg + D * w)%f64;
                           op_I := (op_I agg + I_ * w)%f64 |} in
             (<[source := agg]> row, (sumW + w)%f64))
          (row, sumW) paths in
  (forall other : string, other <> source -> result.1 !! other = row !! other) /\
  (paths <> [] \/ is_Some (row !! source) -> is_Some (result.1 !! source)).
Proof.
  revert row sumW. induction paths as [|path paths IH]; intros row sumW result.
  - cbn. split; [reflexivity|]. intros [Hx|Hs]; [contradiction|exact Hs].
  - unfold result. cbn [foldl].
    destruct (discountPath direct path) as [[[T D] I_] w].
    match goal with |- context [foldl ?f (?r, ?w') paths] =>
      destruct (IH r w') as [Hother Hown] end.
    split.
    + intros other Hne. rewrite Hother by exact Hne. apply lookup_insert_ne. congruence.
    + intros _. apply Hown. right. rewrite lookup_insert_eq. eauto.
Qed.

Lemma indirectFrom_lookup (direct : gmap string (gmap string (DirectOpinion F)))
  (target : string) (row : gmap string (SubjectiveOpinion F)) (source : string) :
  (forall key : string,
     is_Some (row !! key) -> is_Some (indirectFrom direct target row source !! key)) /\
  (source <> target -> dfs direct target (hopCount + 2) [source] <> [] ->
   is_Some (indirectFrom direct target row source !! source)).
Proof.
  unfold indirectFrom.
  destruct (String.eqb_spec source target) as [Heq|Hne]; [split; [auto|contradiction]|].
  unfold accumulatePaths.
  pose proof (accumulate_lookup direct source (dfs direct target (hopCount + 2) [source])
                row (of_int 0)) as Hacc.
  cbv zeta in Hacc.
  destruct (foldl _ (row, of_int 0) (dfs direct target (hopCount + 2) [source]))
    as [row' sumW] eqn:Hfold.
  cbn [fst] in Hacc. destruct Hacc as [Hother Hown].
  assert (forall key : string, is_Some (row !! key) -> is_Some (row' !! key)) as Hkeep.
  { intros key Hk. destruct (decide (key = source)) as [->|Hks].
    - apply Hown. right. exact Hk.
    - rewrite Hother by exact Hks. exact Hk. }
  destruct (sumW >? of_int 0)%f64.
  - split.
    + intros key Hk. destruct (decide (key = source)) as [->|Hks].
      * rewrite lookup_insert_eq. eauto.
      * rewrite lookup_insert_ne by congruence. apply Hkeep, Hk.
    + intros _ _. rewrite lookup_insert_eq. eauto.
  - split; [exact Hkeep|]. intros _ Hpaths. apply Hown. left. exact Hpaths.
Qed.

Lemma indirectOpinions_keep (direct : gmap string (gmap string (DirectOpinion F)))
  (target : string) (sources : list string) (row : gmap string (SubjectiveOpinion F))
  (key : string) :
  is_Some (row !! key) ->
  is_Some (foldl (indirectFrom direct target) row sources !! key).
Proof.
  revert row. induction sources as [|s sources IH]; intros row Hk; [exact Hk|].
  cbn [foldl]. apply IH. apply (indirectFrom_lookup direct target row s), Hk.
Qed.

Lemma indirectOpinions_source (direct : gmap string (gmap string (DirectOpinion F)))
  (target source : string) (sources : list string) (row : gmap string (SubjectiveOpinion F)) :
  In source sources -> source <> target ->
  dfs direct target (hopCount + 2) [source] <> [] ->
  is_Some (foldl (indirectFrom direct target) row sources !! source).
Proof.
  revert row. induction sources as [|s sources IH]; intros row Hin Hne Hpaths; [destruct Hin|].
  cbn [foldl]. destruct Hin as [->|Hin].
  - apply indirectOpinions_keep. apply (indirectFrom_lookup direct target row source); assumption.
  - apply IH; assumption.
Qed.

(** X7. Every node that the target has itself evaluated counts as a source of
    indirect opinions about the target, through the path of one edge from
    that node to the target: when the log holds an interaction from the
    target about another node and one about the target, the indirect
    opinions about the target have an entry for that other node, so that
    the fusion takes its consensus branch. *)
Theorem evaluated_nodes_are_indirect_sources (rm : ReputationManager F)
  (target other : string) (now : Time) :
  other <> target ->
  (exists inter : Interaction F,
     In inter (rm_interactions rm) /\ it_From inter = target /\ it_To inter = other) ->
  (exists inter : Interaction F, In inter (rm_interactions rm) /\ it_To inter = target) ->
  let direct := computeDirectOpinions (rm_cfg rm) (aggregateByPair rm) now in
  exists ind : gmap string (SubjectiveOpinion F),
    computeIndirectOpinions direct !! target = Some ind /\
    is_Some (ind !! other) /\ size ind <> 0%nat.
Proof.
  intros Hne (out & Hout & Hfrom & Hto) (inb & Hinb & Hinto) direct.
  pose proof (aggregateByPair_entry rm out Hout) as Hentry. rewrite Hfrom, Hto in Hentry.
  pose proof (aggregateByPair_entry rm inb Hinb) as Hentry'. rewrite Hinto in Hentry'.
  unfold pairEntry in Hentry, Hentry'.
  destruct (aggregateByPair rm !! other) as [fromMap|] eqn:Hagg;
    [|destruct Hentry; discriminate].
  destruct (aggregateByPair rm !! target) as [fromMap'|] eqn:Hagg';
    [|destruct Hentry'; discriminate].
  cbn [mbind option_bind] in Hentry.
  assert (direct !! other = Some (directOpinionsOf (rm_cfg rm) now fromMap)) as Hrow
    by (unfold direct; rewrite computeDirectOpinions_lookup, Hagg; reflexivity).
  assert (is_Some (direct !! target)) as Htarget
    by (unfold direct; rewrite computeDirectOpinions_lookup, Hagg'; cbn; eauto).
  assert (is_Some (directOpinionsOf (rm_cfg rm) now fromMap !! target)) as Hedge.
  { rewrite directOpinionsOf_lookup. destruct Hentry as [e He]. rewrite He. cbn. eauto. }
  exists (indirectOpinionsOf direct target).
  rewrite computeIndirectOpinions_lookup. destruct Htarget as [row' Hrow']. rewrite Hrow'.
  split; [reflexivity|].
  assert (is_Some (indirectOpinionsOf direct target !! other)) as Hsome.
  { unfold indirectOpinionsOf. apply indirectOpinions_source; [|exact Hne|].
    - apply in_map_iff. exists (other, directOpinionsOf (rm_cfg rm) now fromMap).
      split; [reflexivity|]. apply list_elem_of_In, elem_of_map_to_list, Hrow.
    - intros Hnil. pose proof (dfs_one_edge direct target other _ Hne Hrow Hedge) as Hin.
      rewrite Hnil in Hin. exact Hin. }
  split; [exact Hsome|]. intros Hsize. apply map_size_empty_iff in Hsize.
  rewrite Hsize, lookup_empty in Hsome. destruct Hsome; discriminate.
Qed.

End SourceFacts.

(** The hypotheses of [evaluated_nodes_are_indirect_sources] hold for two nodes that evaluate each other. *)
Lemma evaluated_nodes_are_indirect_sources_witness :
  let direct := computeDirectOpinions (rm_cfg Praise.mutual) (aggregateByPair Praise.mutual) 0%Z in
  exists ind : gmap string (SubjectiveOpinion R),
    computeIndirectOpinions direct !! "B"%string = Some ind /\
    is_Some (ind !! "A"%string) /\ size ind <> 0%nat.
Proof.
  apply (evaluated_nodes_are_indirect_sources Praise.mutual "B" "A" 0%Z).
  - discriminate.
  - exists (Praise.praise "B" "A" 2). split; [right; left; reflexivity|split; reflexivity].
  - exists (Praise.praise "A" "B" 2). split; [left; reflexivity|reflexivity].
Defined.

Section DirectPairs.
Context {F : Type} {Fops : Float64 F} {Fmath : Float64Math F}.

(** X6. The direct opinions are those of the pairs of the log: there is a
    direct opinion of [from] about [to] exactly when the log holds an
    interaction from [from] about [to]. No pair is left out, not even that
    of a node with itself. *)
Theorem computeDirectOpinions_pairs (rm : ReputationManager F) (now : Time) (to from : string) :
  is_Some (computeDirectOpinions (rm_cfg rm) (aggregateByPair rm) now !! to
             ≫= fun row => row !! from) <->
  exists inter : Interaction F,
    In inter (rm_interactions rm) /\ it_To inter = to /\ it_From inter = from.
Proof.
  rewrite computeDirectOpinions_lookup.
  assert (is_Some ((directOpinionsOf (rm_cfg rm) now <$> aggregateByPair rm !! to)
                     ≫= fun row => row !! from) <->
          is_Some (pairEntry (aggregateByPair rm) to from)) as ->.
  { unfold pairEntry. destruct (aggregateByPair rm !! to) as [fromMap|]; cbn.
    - rewrite directOpinionsOf_lookup. destruct (fromMap !! from); cbn; split; intros [x Hx];
        try discriminate; eauto.
    - split; intros [x Hx]; discriminate. }
  split.
  - intros Hsome. unfold aggregateByPair in Hsome.
    pose proof (aggregate_pair_first to from (rm_interactions rm) ∅ eq_refl) as Hgen.
    destruct (pairLog (rm_interactions rm) to from) as [|first rest] eqn:Hpl.
    + rewrite Hgen in Hsome. destruct Hsome; discriminate.
    + assert (In first (pairLog (rm_interactions rm) to from)) as Hin
        by (rewrite Hpl; left; reflexivity).
      unfold pairLog in Hin. apply List.filter_In in Hin. destruct Hin as [Hin Hm].
      apply andb_true_iff in Hm. destruct Hm as [Hto Hfrom].
      apply String.eqb_eq in Hto, Hfrom. exists first. repeat split; assumption.
  - intros (inter & Hin & <- & <-). apply aggregateByPair_entry, Hin.
Qed.

End DirectPairs.

(** ** A subject with a single evaluation *)

Lemma aggregateByPair_one {F : Type} (cfg : Config F) (inter : Interaction F) :
  aggregateByPair {| rm_cfg := cfg; rm_interactions := [inter] |} =
    {[it_To inter := {[it_From inter := inter]}]}.
Proof.
  unfold aggregateByPair. cbn [rm_interactions foldl]. unfold aggregateStep.
  rewrite lookup_empty. cbn zeta. rewrite lookup_insert_eq. reduce_default.
  rewrite lookup_empty, insert_insert_eq. reflexivity.
Qed.

(** X8. The reputation that a single evaluation gives (real arithmetic). When
    the log holds one interaction, with [p >= 1] positive events and no
    negative one, and [Mu < 2], the reputation of its subject is
    [1 - (1 - Gamma) * 2 / (p + 2)] if the direct weight of the interaction
    is positive, whatever that weight is, and 0 if the weight is zero or
    negative. *)
Theorem ComputeReputation_one_evaluation (cfg : Config R) (inter : Interaction R) (now : Time) :
  it_NegEvents inter = 0%Z -> (1 <= it_PosEvents inter <= GoInt.max_int)%Z ->
  (Mu cfg < 2)%R ->
  ComputeReputation {| rm_cfg := cfg; rm_interactions := [inter] |} (it_To inter) now =
    if R_ltb 0 (directWeight cfg now (IZR (it_PosEvents inter)) inter)
    then (1 - (1 - Gamma cfg) * 2 / (IZR (it_PosEvents inter) + 2))%R
    else 0%R.
Proof.
  intros Hneg Hpos Hmu.
  assert (1 <= IZR (it_PosEvents inter))%R as Hp by (apply IZR_le; lia).
  assert (totalEvents inter = IZR (it_PosEvents inter)) as Htot.
  { unfold totalEvents, GoInt.add. rewrite Hneg, Z.add_0_r, wrap_in_range; [reflexivity|].
    unfold GoInt.in_range, GoInt.min_int. lia. }
  unfold ComputeReputation. rewrite aggregateByPair_one. rewrite lookup_singleton_eq.
  cbn [rm_cfg].
  rewrite computeIndirectOpinions_lookup, computeDirectOpinions_fmap, map_fmap_singleton,
    directOpinionsOf_singleton, lookup_singleton_eq.
  cbn [fmap option_fmap option_map]. reduce_default.
  rewrite indirectOpinionsOf_alone, fuseOpinions_no_indirect, directAggregate_singleton.
  unfold soleOpinion, weighed, uncertainty, errorFactor, fillOpinion.
  rewrite Htot, Hneg. cbn [do_Opinion do_Weight op_T op_D op_I]. literals.
  replace ((0 + IZR (it_PosEvents inter)) / 1)%R with (IZR (it_PosEvents inter)) by lra.
  set (p := IZR (it_PosEvents inter)) in *.
  set (w := directWeight cfg now p inter). clearbody w.
  rewrite !Rmult_0_r, !Rplus_0_l, !Rplus_0_r.
  destruct (R_ltb 0 w) eqn:Hw; [apply R_ltb_true in Hw|apply R_ltb_false in Hw].
  - rewrite (proj2 (R_eqb_false w 0)) by lra. cbn [negb].
    replace (0 / w)%R with 0%R by (field; lra). rewrite exp_0.
    assert (0 < (1 - Mu cfg / (1 + 1)) * p)%R as Halpha by nra.
    rewrite (proj2 (R_ltb_true 0 _) Halpha).
    cbn [do_Opinion do_Weight op_T op_D op_I]. rewrite (proj2 (R_ltb_true 0 w) Hw).
    cbn [op_T op_I]. field. repeat split; lra.
  - match goal with |- context [R_ltb 0 (?x * p)] => destruct (R_ltb 0 (x * p)) end;
      cbn [do_Opinion do_Weight op_T op_D op_I]; rewrite (proj2 (R_ltb_false 0 w) Hw);
      cbn [op_T op_I]; lra.
Qed.

(** The hypotheses of [ComputeReputation_one_evaluation] hold for the seed
    configuration and one positive event. *)
Lemma ComputeReputation_one_evaluation_witness :
  ComputeReputation {| rm_cfg := Praise.cfg; rm_interactions := [Praise.praise "A" "B" 1] |}
                    (it_To (Praise.praise "A" "B" 1)) 0%Z =
    if R_ltb 0 (directWeight Praise.cfg 0%Z (IZR (it_PosEvents (Praise.praise "A" "B" 1)))
                             (Praise.praise "A" "B" 1))
    then (1 - (1 - Gamma Praise.cfg) * 2 / (IZR (it_PosEvents (Praise.praise "A" "B" 1)) + 2))%R
    else 0%R.
Proof.
  apply (ComputeReputation_one_evaluation Praise.cfg (Praise.praise "A" "B" 1) 0%Z).
  - reflexivity.
  - vm_compute. split; discriminate.
  - cbn. lra.
Defined.

(** ** The pool: panics, draining and removal *)

Section PoolEdges.
Context {F : Type} {Fops : Float64 F}.

Lemma filter_keeps_all (l : list (EmergencyTransaction F)) :
  List.filter (fun tx => negb (hasIDof [] tx)) l = l.
Proof. apply filter_hasIDof_none. intros tx _ []. Qed.

(** X9. [GetTopKTransactions] panics exactly when the pool is not empty and [k]
    is negative. On an empty pool it returns no transaction for every [k],
    and for [k = 0] it returns none and removes none. *)
Theorem GetTopKTransactions_panics_iff (pool : TransactionPool F) (k : Z) :
  (GetTopKTransactions pool k = None <-> transactions pool <> [] /\ (k < 0)%Z) /\
  (transactions pool = [] -> GetTopKTransactions pool k = Some ([], pool)) /\
  (k = 0%Z ->
   exists pool' : TransactionPool F,
     GetTopKTransactions pool k = Some ([], pool') /\ transactions pool' = transactions pool).
Proof.
  unfold GetTopKTransactions.
  destruct (Nat.eqb_spec (length (transactions pool)) 0) as [Hlen|Hlen].
  - apply length_zero_iff_nil in Hlen. split; [|split].
    + split; [discriminate|]. intros [Hne _]. contradiction.
    + reflexivity.
    + intros _. exists pool. split; reflexivity.
  - assert (transactions pool <> []) as Hne by (intros Hx; rewrite Hx in Hlen; apply Hlen; reflexivity).
    cbv zeta. rewrite bubbleSort_length.
    destruct (k >? Z.of_nat (length (transactions pool)))%Z eqn:Hk.
    + apply Z.gtb_lt in Hk.
      destruct (Z.ltb_spec (Z.of_nat (length (transactions pool))) 0) as [Hx|_]; [lia|].
      split; [split; [discriminate|lia]|]. split; [contradiction|lia].
    + rewrite Z.gtb_ltb in Hk. apply Z.ltb_ge in Hk.
      destruct (Z.ltb_spec k 0) as [Hneg|Hpos].
      * split; [split; [intros _; split; assumption|reflexivity]|]. split; [contradiction|lia].
      * split; [split; [discriminate|lia]|]. split; [contradiction|].
        intros ->. eexists. split; [reflexivity|].
        cbn [Z.to_nat firstn]. rewrite RemoveTransactions_filter. apply filter_keeps_all.
Qed.

(** X10. Asking for at least as many transactions as the pool holds drains it:
    the result is the whole pool, rearranged, and the pool is left empty,
    whatever the urgencies and the identifiers. *)
Theorem GetTopKTransactions_drains (pool : TransactionPool F) (k : Z) :
  (Z.of_nat (length (transactions pool)) <= k)%Z ->
  exists (result : list (EmergencyTransaction F)) (pool' : TransactionPool F),
    GetTopKTransactions pool k = Some (result, pool') /\
    Permutation result (transactions pool) /\ transactions pool' = [].
Proof.
  intros Hk. unfold GetTopKTransactions.
  destruct (Nat.eqb_spec (length (transactions pool)) 0) as [Hlen|Hlen].
  - apply length_zero_iff_nil in Hlen. exists [], pool. rewrite Hlen. repeat split. constructor.
  - cbv zeta. rewrite bubbleSort_length.
    set (n := length (transactions pool)) in *.
    assert ((if (k >? Z.of_nat n)%Z then Z.of_nat n else k) = Z.of_nat n) as ->.
    { destruct (k >? Z.of_nat n)%Z eqn:Hgt; [reflexivity|].
      rewrite Z.gtb_ltb in Hgt. apply Z.ltb_ge in Hgt. lia. }
    destruct (Z.ltb_spec (Z.of_nat n) 0) as [Hx|_]; [lia|].
    rewrite Nat2Z.id.
    assert (firstn n (bubbleSort (transactions pool)) = bubbleSort (transactions pool)) as ->.
    { apply firstn_all2. rewrite bubbleSort_length. unfold n. lia. }
    eexists _, _. split; [reflexivity|]. split; [apply bubbleSort_perm|].
    rewrite RemoveTransactions_filter. apply filter_hasIDof_all.
    intros tx Hin. apply in_map. eapply Permutation_in; [|exact Hin].
    symmetry. apply bubbleSort_perm.
Qed.

Lemma hasIDof_app (a b : list (EmergencyTransaction F)) (tx : EmergencyTransaction F) :
  hasIDof (a ++ b) tx = hasIDof a tx || hasIDof b tx.
Proof. unfold hasIDof. rewrite map_app. apply existsb_app. Qed.

(** X11. [RemoveTransactions] keeps the remaining transactions in their order,
    and removing two lists one after the other is removing their
    concatenation; so removing the same list again changes nothing, and
    removing no transaction keeps the pool. *)
Theorem RemoveTransactions_compose (pool : TransactionPool F)
  (a b : list (EmergencyTransaction F)) :
  sublist (transactions (RemoveTransactions pool a)) (transactions pool) /\
  RemoveTransactions (RemoveTransactions pool a) b = RemoveTransactions pool (a ++ b) /\
  RemoveTransactions (RemoveTransactions pool a) a = RemoveTransactions pool a /\
  transactions (RemoveTransactions pool []) = transactions pool.
Proof.
  assert (forall (p q : TransactionPool F), transactions p = transactions q -> p = q) as Hext.
  { intros [p] [q]. cbn. intros ->. reflexivity. }
  assert (forall a b : list (EmergencyTransaction F),
            transactions (RemoveTransactions (RemoveTransactions pool a) b) =
              transactions (RemoveTransactions pool (a ++ b))) as Hcomp.
  { intros a' b'. rewrite !RemoveTransactions_filter.
    induction (transactions pool) as [|tx l IH]; [reflexivity|].
    cbn [List.filter]. rewrite hasIDof_app.
    destruct (hasIDof a' tx); cbn [negb orb]; [exact IH|].
    cbn [List.filter]. destruct (hasIDof b' tx); cbn [negb]; [exact IH|]. f_equal. exact IH. }
  split; [|split; [|split]].
  - rewrite RemoveTransactions_filter.
    induction (transactions pool) as [|tx l IH]; [constructor|].
    cbn [List.filter]. destruct (negb _); constructor; exact IH.
  - apply Hext, Hcomp.
  - apply Hext. rewrite Hcomp, !RemoveTransactions_filter.
    induction (transactions pool) as [|tx l IH]; [reflexivity|].
    cbn [List.filter]. rewrite hasIDof_app, orb_diag.
    destruct (hasIDof a tx); cbn [negb]; [exact IH|]. f_equal. exact IH.
  - rewrite RemoveTransactions_filter. apply filter_keeps_all.
Qed.

End PoolEdges.

(** The hypotheses of [GetTopKTransactions_drains] hold for a pool of two transactions asked for five. *)
Lemma GetTopKTransactions_drains_witness :
  exists (result : list (EmergencyTransaction float)) (pool' : TransactionPool float),
    GetTopKTransactions Twins.pool 5 = Some (result, pool') /\
    Permutation result (transactions Twins.pool) /\ transactions pool' = [].
Proof.
  apply (GetTopKTransactions_drains (F := float) Twins.pool 5). vm_compute. discriminate.
Defined.

(** ** Blocks: construction, what verification reads, and re-verification *)

Section BlockBuilding.
Context {F : Type} {Fops : Float64 F}.
Variable sha256_hex : string -> string.
Variable json_Marshal : Z -> string -> string -> string -> string.
Variable format_RFC3339Nano : Time -> string.

Local Abbreviation VerifyBlock := (VerifyBlock sha256_hex json_Marshal format_RFC3339Nano).
Local Abbreviation CalculateHash := (CalculateHash sha256_hex json_Marshal format_RFC3339Nano).
Local Abbreviation CalculateMerkleRoot := (CalculateMerkleRoot sha256_hex).
Local Abbreviation NewEmergencyBlock :=
  (NewEmergencyBlock sha256_hex json_Marshal format_RFC3339Nano).

Lemma append_empty_r (s : string) : String.append s EmptyString = s.
Proof.
  induction s as [|c s IH]; [reflexivity|].
  change (String c (String.append s EmptyString) = String c s). f_equal. exact IH.
Qed.

Lemma append_associative (s1 s2 s3 : string) :
  String.append s1 (String.append s2 s3) = String.append (String.append s1 s2) s3.
Proof.
  induction s1 as [|c s1 IH]; [reflexivity|].
  change (String c (String.append s1 (String.append s2 s3)) =
          String c (String.append (String.append s1 s2) s3)).
  f_equal. exact IH.
Qed.

(** The verdict on a block that [NewEmergencyBlock] builds on the tip is
    the outcome of comparing its total urgency with itself. *)
Lemma VerifyBlock_NewEmergencyBlock (ebc : EmergencyBlockchain F) (tip : EmergencyBlock F)
  (transactions : list (EmergencyTransaction F)) (validatorIDs : list string) (now : Time) :
  GetLatestBlock ebc = Some tip ->
  let b := NewEmergencyBlock (GoInt.add (blk_Index tip) 1) (blk_Hash tip) transactions
                             validatorIDs now in
  VerifyBlock ebc b = Some (blk_TotalUrgency b =? blk_TotalUrgency b)%f64.
Proof.
  intros Htip b. unfold emergency.VerifyBlock. rewrite Htip.
  unfold b, emergency.NewEmergencyBlock.
  cbn [blk_Index blk_PrevHash blk_MerkleRoot blk_Hash blk_TotalUrgency blk_Timestamp
       blk_Transactions emergency.CalculateMerkleRoot emergency.CalculateHash
       emergency.CalculateTotalUrgency].
  rewrite Z.eqb_refl, !String.eqb_refl. cbn [negb].
  destruct (feq _ _); reflexivity.
Qed.

(** X12. A block built by [NewEmergencyBlock] on the tip of a chain, with the
    tip's index plus one and the tip's hash, passes [VerifyBlock] on that
    chain exactly when its total urgency compares equal to itself, that
    is, unless the sum of the urgencies is a NaN. *)
Theorem NewEmergencyBlock_verifies (ebc : EmergencyBlockchain F) (tip : EmergencyBlock F)
  (transactions : list (EmergencyTransaction F)) (validatorIDs : list string) (now : Time) :
  GetLatestBlock ebc = Some tip ->
  let b := NewEmergencyBlock (GoInt.add (blk_Index tip) 1) (blk_Hash tip) transactions
                             validatorIDs now in
  let total := foldl (fun total tx => (total + tx_UrgencyDegree tx)%f64) (of_int 0) transactions in
  blk_TotalUrgency b = total /\
  (VerifyBlock ebc b = Some true <-> (total =? total)%f64 = true) /\
  (VerifyBlock ebc b = Some false <-> (total =? total)%f64 = false).
Proof.
  intros Htip b total.
  pose proof (VerifyBlock_NewEmergencyBlock ebc tip transactions validatorIDs now Htip) as Hv.
  cbv zeta in Hv. fold b in Hv. rewrite Hv.
  assert (blk_TotalUrgency b = total) as -> by reflexivity.
  split; [reflexivity|]. split; split; intros Hx; congruence.
Qed.

(** X13. What [VerifyBlock] reads of a block: the index, the time stamp, the
    previous hash, the stored root, hash and total, whether there is any
    transaction, the concatenation of the transaction identifiers and the
    sum of the urgencies. Two blocks that agree on these get the same
    verdict, whatever the payloads, senders, times, signatures and
    validator lists, and however the identifiers are cut. *)
Theorem VerifyBlock_reads (ebc : EmergencyBlockchain F) (b b' : EmergencyBlock F) :
  blk_Index b = blk_Index b' -> blk_Timestamp b = blk_Timestamp b' ->
  blk_PrevHash b = blk_PrevHash b' -> blk_MerkleRoot b = blk_MerkleRoot b' ->
  blk_Hash b = blk_Hash b' -> blk_TotalUrgency b = blk_TotalUrgency b' ->
  (blk_Transactions b = [] <-> blk_Transactions b' = []) ->
  String.concat EmptyString (map tx_ID (blk_Transactions b)) =
    String.concat EmptyString (map tx_ID (blk_Transactions b')) ->
  emergency.CalculateTotalUrgency b = emergency.CalculateTotalUrgency b' ->
  CalculateMerkleRoot b = CalculateMerkleRoot b' /\
  CalculateHash b = CalculateHash b' /\
  VerifyBlock ebc b = VerifyBlock ebc b'.
Proof.
  intros Hi Ht Hp Hm Hh Hu Hnil Hids Htot.
  assert (forall (l : list (EmergencyTransaction F)) (acc : string),
            foldl (fun txIDs tx => String.append txIDs (tx_ID tx)) acc l =
              String.append acc (String.concat EmptyString (map tx_ID l))) as Hcat.
  { induction l as [|tx l IH]; intros acc; cbn [foldl map].
    - cbn [String.concat]. symmetry. apply append_empty_r.
    - rewrite IH. destruct l as [|tx' l].
      + cbn [map String.concat]. apply append_empty_r.
      + cbn [map String.concat String.append]. symmetry. apply append_associative. }
  assert (CalculateMerkleRoot b = CalculateMerkleRoot b') as Hroot.
  { unfold emergency.CalculateMerkleRoot. rewrite !Hcat, Hids.
    destruct (blk_Transactions b) as [|tx l]; destruct (blk_Transactions b') as [|tx' l'];
      try reflexivity.
    - destruct Hnil as [Hnil _]. specialize (Hnil eq_refl). discriminate.
    - destruct Hnil as [_ Hnil]. specialize (Hnil eq_refl). discriminate. }
  assert (CalculateHash b = CalculateHash b') as Hhash.
  { unfold emergency.CalculateHash. rewrite Hi, Ht, Hp, Hm. reflexivity. }
  split; [exact Hroot|]. split; [exact Hhash|].
  unfold emergency.VerifyBlock. rewrite Hi, Hp, Hm, Hh, Hu, Hroot, Hhash, Htot. reflexivity.
Qed.

(** X14. No block passes [VerifyBlock] on a chain that ends with it: once
    [AddBlock] has appended a block, offering the same block again fails
    the index check. *)
Theorem VerifyBlock_once (ebc : EmergencyBlockchain F) (b : EmergencyBlock F) :
  VerifyBlock (AddBlock ebc b) b = Some false.
Proof.
  unfold emergency.VerifyBlock.
  rewrite (GetLatestBlock_app (AddBlock ebc b) (ebc_Chain ebc) b) by reflexivity.
  destruct (Z.eqb_spec (blk_Index b) (GoInt.add (blk_Index b) 1)) as [Heq|Hne]; [|reflexivity].
  exfalso. unfold GoInt.add, GoInt.wrap in Heq.
  pose proof (Z.mod_pos_bound (blk_Index b + 1 + 2 ^ 63) (2 ^ 64) eq_refl) as Hb.
  pose proof (Z.div_mod (blk_Index b + 1 + 2 ^ 63) (2 ^ 64)) as Hd.
  specialize (Hd ltac:(lia)). lia.
Qed.

End BlockBuilding.

(** The hypotheses of [NewEmergencyBlock_verifies] hold for a new chain and a block of one transaction built on its genesis block. *)
Lemma NewEmergencyBlock_verifies_witness :
  let b := NewEmergencyBlock (fun s => s) (fun _ _ prev root => String.append prev root)
             (fun _ => EmptyString)
             (GoInt.add (blk_Index (genesisBlock (F := float) 0)) 1)
             (blk_Hash (genesisBlock (F := float) 0))
             [TopThree.tx "t1" 1%float] [] 1%Z in
  let total := foldl (fun total tx => (total + tx_UrgencyDegree tx)%f64) (of_int 0)
                     [TopThree.tx "t1" 1%float] in
  blk_TotalUrgency b = total /\
  (VerifyBlock (fun s => s) (fun _ _ prev root => String.append prev root)
               (fun _ => EmptyString) Regrouped.chain b = Some true <->
   (total =? total)%f64 = true) /\
  (VerifyBlock (fun s => s) (fun _ _ prev root => String.append prev root)
               (fun _ => EmptyString) Regrouped.chain b = Some false <->
   (total =? total)%f64 = false).
Proof.
  apply (NewEmergencyBlock_verifies (fun s => s)
           (fun _ _ prev root => String.append prev root) (fun _ => EmptyString)
           Regrouped.chain (genesisBlock 0) [TopThree.tx "t1" 1%float] [] 1%Z).
  reflexivity.
Defined.

(** The hypotheses of [VerifyBlock_reads] hold for two blocks whose transaction identifiers are "ab", "c" and "a", "bc". *)
Lemma VerifyBlock_reads_witness :
  CalculateMerkleRoot (fun s => s) (Regrouped.block ("ab", "c")%string) =
    CalculateMerkleRoot (fun s => s) (Regrouped.block ("a", "bc")%string) /\
  CalculateHash (fun s => s) (fun _ _ prev root => String.append prev root)
                (fun _ => EmptyString) (Regrouped.block ("ab", "c")%string) =
    CalculateHash (fun s => s) (fun _ _ prev root => String.append prev root)
                  (fun _ => EmptyString) (Regrouped.block ("a", "bc")%string) /\
  VerifyBlock (fun s => s) (fun _ _ prev root => String.append prev root)
              (fun _ => EmptyString) Regrouped.chain (Regrouped.block ("ab", "c")%string) =
    VerifyBlock (fun s => s) (fun _ _ prev root => String.append prev root)
                (fun _ => EmptyString) Regrouped.chain (Regrouped.block ("a", "bc")%string).
Proof.
  apply (VerifyBlock_reads (fun s => s) (fun _ _ prev root => String.append prev root)
           (fun _ => EmptyString) Regrouped.chain
           (Regrouped.block ("ab", "c")%string) (Regrouped.block ("a", "bc")%string));
    try reflexivity.
  split; discriminate.
Defined.
(** ** The committee: proposer, membership, rounds and replacement *)

Lemma highest_from (l : list (Validator R)) (p0 p : Validator R) :
  foldl (fun proposer v =>
           if (val_Reputation v >? val_Reputation proposer)%f64 then v else proposer)
        p0 l = p ->
  (p = p0 /\ Forall (fun v => (val_Reputation v <= val_Reputation p0)%R) l) \/
  (exists l1 l2 : list (Validator R),
     l = l1 ++ p :: l2 /\ (val_Reputation p0 < val_Reputation p)%R /\
     Forall (fun v => (val_Reputation v < val_Reputation p)%R) l1 /\
     Forall (fun v => (val_Reputation v <= val_Reputation p)%R) l2).
Proof.
  revert p0. induction l as [|v l IH]; intros p0; cbn [foldl].
  - intros <-. left. split; [reflexivity|constructor].
  - change (val_Reputation v >? val_Reputation p0)%f64
      with (R_ltb (val_Reputation p0) (val_Reputation v)).
    destruct (R_ltb (val_Reputation p0) (val_Reputation v)) eqn:Hlt; intros Hp.
    + apply R_ltb_true in Hlt. right.
      destruct (IH v Hp) as [[-> Hall]|(l1 & l2 & Hl & Hvp & H1 & H2)].
      * exists [], l. cbn [app]. repeat split; [exact Hlt|constructor|exact Hall].
      * exists (v :: l1), l2. rewrite Hl. repeat split; [lra| |exact H2].
        constructor; [exact Hvp|exact H1].
    + apply R_ltb_false in Hlt.
      destruct (IH p0 Hp) as [[-> Hall]|(l1 & l2 & Hl & Hvp & H1 & H2)].
      * left. split; [reflexivity|]. constructor; [exact Hlt|exact Hall].
      * right. exists (v :: l1), l2. rewrite Hl. repeat split; [exact Hvp| |exact H2].
        constructor; [lra|exact H1].
Qed.

(** X15. [SelectProposer] returns nothing exactly for an empty committee;
    otherwise it returns the first member of highest reputation: every
    member before it has a strictly lower reputation and no member after it
    a higher one (reputations read as real numbers). *)
Theorem SelectProposer_first_highest (vg : ValidatorGroup R) :
  match SelectProposer vg with
  | None => vg_Validators vg = []
  | Some p =>
      exists l1 l2 : list (Validator R),
        vg_Validators vg = l1 ++ p :: l2 /\
        Forall (fun v => (val_Reputation v < val_Reputation p)%R) l1 /\
        Forall (fun v => (val_Reputation v <= val_Reputation p)%R) l2
  end.
Proof.
  unfold SelectProposer. destruct (vg_Validators vg) as [|v0 rest]; [reflexivity|].
  cbn [foldl].
  change (val_Reputation v0 >? val_Reputation v0)%f64
    with (R_ltb (val_Reputation v0) (val_Reputation v0)).
  rewrite (proj2 (R_ltb_false (val_Reputation v0) (val_Reputation v0))) by lra.
  destruct (highest_from rest v0 _ eq_refl) as [[Hp Hall]|(l1 & l2 & Hl & Hvp & H1 & H2)].
  - exists [], rest. cbn [app]. rewrite Hp. repeat split; [constructor|exact Hall].
  - exists (v0 :: l1), l2. rewrite Hl at 1.
    repeat split; [|exact H2]. constructor; [exact Hvp|exact H1].
Qed.

Section MembershipFacts.
Context {F : Type} {Fops : Float64 F}.

(** X17. Membership as the three accessors see it: [IsValidator] holds exactly
    for the identifiers [GetValidatorIDs] lists, and [GetValidator] returns
    a member with the identifier asked for exactly when [IsValidator]
    holds, the first such member of the list. *)
Theorem IsValidator_GetValidator (vg : ValidatorGroup F) (nodeID : string) :
  (IsValidator vg nodeID = true <-> In nodeID (GetValidatorIDs vg)) /\
  match GetValidator vg nodeID with
  | Some v =>
      IsValidator vg nodeID = true /\
      exists l1 l2 : list (Validator F),
        vg_Validators vg = l1 ++ v :: l2 /\ val_ID v = nodeID /\
        Forall (fun u => val_ID u <> nodeID) l1
  | None => IsValidator vg nodeID = false
  end.
Proof.
  unfold IsValidator, GetValidatorIDs, GetValidator. split.
  - rewrite existsb_exists, in_map_iff. split.
    + intros (v & Hin & Heq). apply String.eqb_eq in Heq. exists v. split; assumption.
    + intros (v & Heq & Hin). exists v. split; [exact Hin|]. apply String.eqb_eq, Heq.
  - induction (vg_Validators vg) as [|u l IH]; [reflexivity|].
    cbn [find existsb]. destruct (String.eqb (val_ID u) nodeID) eqn:Hu.
    + split; [reflexivity|]. exists [], l. apply String.eqb_eq in Hu.
      repeat split; [exact Hu|constructor].
    + cbn [orb]. destruct (find _ l) as [v|]; [|exact IH].
      destruct IH as (Hv & l1 & l2 & Hl & Hid & Hall). split; [exact Hv|].
      exists (u :: l1), l2. rewrite Hl. repeat split; [exact Hid|].
      constructor; [|exact Hall]. apply String.eqb_neq, Hu.
Qed.

End MembershipFacts.

(** X16. The proposer of a new committee. For a sort that rearranges its input
    so that no element has a higher reputation than one before it, the
    proposer that [SelectProposer] picks right after [SelectValidators] is
    the first member of the committee (reputations read as real
    numbers). *)
Theorem SelectProposer_after_SelectValidators
  (sort_Slice : forall A : Type, (A -> A -> bool) -> list A -> list A)
  (vg vg' : ValidatorGroup R) (nodeIDs : list string)
  (reputationManagers : gmap string (ReputationManager R)) (now : Time) :
  (forall l : list (Validator R),
     StronglySorted (fun a b => byReputation b a = false) (sort_Slice _ byReputation l)) ->
  SelectValidators sort_Slice vg nodeIDs reputationManagers now = Some vg' ->
  SelectProposer vg' = head (vg_Validators vg').
Proof.
  intros Hsort Hsel.
  assert (StronglySorted (fun a b => (val_Reputation b <= val_Reputation a)%R)
                         (vg_Validators vg')) as Hdesc.
  { assert (StronglySorted (fun a b => (val_Reputation b <= val_Reputation a)%R)
                           (sort_Slice _ byReputation
                                       (nodeReputations nodeIDs reputationManagers now)))
      as Hsorted.
    { eapply StronglySorted_weaken; [|apply Hsort]. intros a b Hab. apply R_ltb_false, Hab. }
    clear Hsort. rename Hsorted into Hsort.
    unfold SelectValidators in Hsel.
    destruct (Z.of_nat _ <? vg_GroupSize vg)%Z; [|destruct (vg_GroupSize vg <? 0)%Z];
      inversion Hsel; subst vg'; cbn [vg_Validators]; [exact Hsort|].
    clear Hsel. set (sorted := sort_Slice _ _ _) in *. clearbody sorted.
    generalize (Z.to_nat (vg_GroupSize vg)). intros n. revert n.
    induction Hsort as [|v l Hl IH Hall]; intros [|n]; cbn [firstn]; try constructor.
    - apply IH.
    - apply Forall_take. exact Hall. }
  unfold SelectProposer. destruct (vg_Validators vg') as [|v0 rest]; [reflexivity|].
  cbn [head foldl]. f_equal.
  change (val_Reputation v0 >? val_Reputation v0)%f64
    with (R_ltb (val_Reputation v0) (val_Reputation v0)).
  rewrite (proj2 (R_ltb_false (val_Reputation v0) (val_Reputation v0))) by lra.
  apply StronglySorted_inv in Hdesc. destruct Hdesc as [_ Hall].
  destruct (highest_from rest v0 _ eq_refl) as [[Hp _]|(l1 & l2 & Hl & Hvp & _)];
    [exact Hp|].
  exfalso. rewrite Hl in Hall. apply Forall_app in Hall. destruct Hall as [_ Hall].
  apply Forall_cons in Hall. destruct Hall as [Hle _]. lra.
Qed.

(** The hypotheses of [SelectProposer_after_SelectValidators] hold for the library's insertion sort and the two candidates without evidence. *)
Lemma SelectProposer_after_SelectValidators_witness :
  SelectProposer Proposer.committee = head (vg_Validators Proposer.committee).
Proof.
  apply (SelectProposer_after_SelectValidators (@insertionSortLessFunc) TwoCandidates.group
           Proposer.committee
           TwoCandidates.nodeIDs TwoCandidates.managers 0%Z).
  - intros l. apply insertionSortLessFunc_sorted;
      [exact byReputation_asym|exact byReputation_negtrans].
  - unfold SelectValidators. rewrite nodeReputations_omap.
    cbn [omap list_omap TwoCandidates.nodeIDs].
    unfold TwoCandidates.managers.
    rewrite lookup_insert_ne by discriminate. rewrite lookup_insert_eq.
    rewrite lookup_insert_eq. cbn [fmap option_fmap option_map].
    rewrite !ComputeReputation_no_inbound by constructor.
    unfold insertionSortLessFunc. cbn [foldl sink].
    replace (byReputation _ _) with false; [reflexivity|].
    symmetry. apply R_ltb_false. cbn. lra.
Defined.

Section RoundFacts.
Context {F : Type} {Fops : Float64 F} {Fmath : Float64Math F}.
Variable sort_Slice : forall A : Type, (A -> A -> bool) -> list A -> list A.

Lemma IncrementRound_iter (vg : ValidatorGroup F) (n : nat) :
  (0 <= vg_CurrentRound vg)%Z -> (vg_CurrentRound vg + Z.of_nat n <= GoInt.max_int)%Z ->
  vg_CurrentRound (Nat.iter n IncrementRound vg) = (vg_CurrentRound vg + Z.of_nat n)%Z /\
  vg_Validators (Nat.iter n IncrementRound vg) = vg_Validators vg /\
  vg_ActivePeriod (Nat.iter n IncrementRound vg) = vg_ActivePeriod vg.
Proof.
  intros H0. induction n as [|n IH]; intros Hn; [cbn; repeat split; lia|].
  change (Nat.iter (S n) IncrementRound vg) with (IncrementRound (Nat.iter n IncrementRound vg)).
  destruct IH as (IHr & IHv & IHp); [lia|].
  remember (Nat.iter n IncrementRound vg) as it eqn:Hit. clear Hit.
  unfold IncrementRound. cbn [vg_CurrentRound vg_Validators vg_ActivePeriod].
  rewrite IHr. unfold GoInt.add. rewrite wrap_in_range.
  - repeat split; [lia|exact IHv|exact IHp].
  - unfold GoInt.in_range, GoInt.min_int, GoInt.max_int in *. lia.
Qed.

(** X18. A committee serves exactly its active period: after a selection that
    seats at least one member, [NeedRefresh] holds after [n] calls of
    [IncrementRound] exactly when [n] has reached [ActivePeriod] (for [n]
    within the range of [int]). *)
Theorem NeedRefresh_after_rounds (vg vg' : ValidatorGroup F) (nodeIDs : list string)
  (reputationManagers : gmap string (ReputationManager F)) (now : Time) (n : nat) :
  SelectValidators sort_Slice vg nodeIDs reputationManagers now = Some vg' ->
  vg_Validators vg' <> [] ->
  (Z.of_nat n <= GoInt.max_int)%Z ->
  (NeedRefresh (Nat.iter n IncrementRound vg') = true <-> (vg_ActivePeriod vg <= Z.of_nat n)%Z).
Proof.
  intros Hsel Hne Hn.
  assert (vg_CurrentRound vg' = 0%Z /\ vg_ActivePeriod vg' = vg_ActivePeriod vg) as [Hr Hp].
  { unfold SelectValidators in Hsel.
    destruct (Z.of_nat _ <? vg_GroupSize vg)%Z; [|destruct (vg_GroupSize vg <? 0)%Z];
      inversion Hsel; split; reflexivity. }
  destruct (IncrementRound_iter vg' n) as (Hr' & Hv' & Hp'); [lia|lia|].
  unfold NeedRefresh, IsActive. rewrite Hr', Hv', Hp', Hr, Hp.
  destruct (vg_Validators vg') as [|v l]; [contradiction|].
  cbn [length Nat.eqb]. rewrite orb_false_r, negb_true_iff, Z.ltb_ge. lia.
Qed.

(** X19. [SelectValidators] panics exactly when the group size is negative,
    whatever the candidates; with a group size of 0 it seats nobody. *)
Theorem SelectValidators_panics_iff (vg : ValidatorGroup F) (nodeIDs : list string)
  (reputationManagers : gmap string (ReputationManager F)) (now : Time) :
  (SelectValidators sort_Slice vg nodeIDs reputationManagers now = None <->
   (vg_GroupSize vg < 0)%Z) /\
  (vg_GroupSize vg = 0%Z ->
   vg_Validators <$> SelectValidators sort_Slice vg nodeIDs reputationManagers now = Some []).
Proof.
  unfold SelectValidators.
  destruct (Z.of_nat _ <? vg_GroupSize vg)%Z eqn:Hlen;
    [apply Z.ltb_lt in Hlen|apply Z.ltb_ge in Hlen].
  - split; [split; [discriminate|lia]|lia].
  - destruct (vg_GroupSize vg <? 0)%Z eqn:Hneg;
      [apply Z.ltb_lt in Hneg|apply Z.ltb_ge in Hneg].
    + split; [split; [intros _; exact Hneg|reflexivity]|lia].
    + split; [split; [discriminate|lia]|]. intros ->. reflexivity.
Qed.

(** X20. [PenalizeInactiveValidators], for a sort that rearranges its input and a
    group size that is not negative. The members not listed as inactive
    stay at the front, in their order and with the reputation they were
    seated with; the members that follow are candidates that have a
    reputation manager, scored at [now]; their number is the smaller of the
    seats left and the number of such candidates; the round counter and the
    period are left alone. *)
Theorem PenalizeInactiveValidators_refill (vg : ValidatorGroup F)
  (inactiveValidators : list string)
  (reputationManagers : gmap string (ReputationManager F))
  (newCandidates : list string) (now : Time) :
  (forall l : list (Validator F), Permutation (sort_Slice _ byReputation l) l) ->
  (0 <= vg_GroupSize vg <= GoInt.max_int)%Z ->
  (Z.of_nat (length (vg_Validators vg)) <= GoInt.max_int)%Z ->
  let vg' := PenalizeInactiveValidators sort_Slice vg inactiveValidators reputationManagers
                                        newCandidates now in
  exists kept added : list (Validator F),
    vg_Validators vg' = kept ++ added /\
    sublist kept (vg_Validators vg) /\
    (forall v : Validator F,
       In v kept <-> In v (vg_Validators vg) /\ ~ In (val_ID v) inactiveValidators) /\
    Forall (fun v =>
              In (val_ID v) newCandidates /\
              exists rm : ReputationManager F,
                reputationManagers !! val_ID v = Some rm /\
                val_Reputation v = ComputeReputation rm (val_ID v) now) added /\
    length added =
      Nat.min (Z.to_nat (vg_GroupSize vg - Z.of_nat (length kept)))
              (length (nodeReputations newCandidates reputationManagers now)) /\
    vg_CurrentRound vg' = vg_CurrentRound vg /\ vg_ActivePeriod vg' = vg_ActivePeriod vg /\
    vg_GroupSize vg' = vg_GroupSize vg /\ vg_CreatedAt vg' = vg_CreatedAt vg.
Proof.
  intros Hsort HN Hlen vg'.
  set (kept := activeValidatorsOf vg inactiveValidators).
  set (scored := nodeReputations newCandidates reputationManagers now).
  assert (length kept <= length (vg_Validators vg))%nat as Hkept.
  { unfold kept, activeValidatorsOf. apply List.filter_length_le. }
  assert (GoInt.sub (vg_GroupSize vg) (Z.of_nat (length kept)) =
          (vg_GroupSize vg - Z.of_nat (length kept))%Z) as Hsub.
  { unfold GoInt.sub. apply wrap_in_range.
    unfold GoInt.in_range, GoInt.min_int, GoInt.max_int in *. lia. }
  assert (forall v : Validator F,
            In v kept <-> In v (vg_Validators vg) /\ ~ In (val_ID v) inactiveValidators) as Hin.
  { intros v. unfold kept, activeValidatorsOf. rewrite List.filter_In, negb_true_iff.
    split; intros [H1 H2]; (split; [exact H1|]).
    - intros Hv. apply not_true_iff_false in H2. apply H2. apply existsb_exists.
      exists (val_ID v). split; [exact Hv|]. apply String.eqb_refl.
    - apply not_true_iff_false. intros Hex. apply existsb_exists in Hex.
      destruct Hex as (i & Hi & Heq). apply String.eqb_eq in Heq. subst i. exact (H2 Hi). }
  assert (sublist kept (vg_Validators vg)) as Hsl.
  { unfold kept, activeValidatorsOf. clear. induction (vg_Validators vg) as [|v l IH];
      [constructor|]. cbn [List.filter]. destruct (negb _); constructor; exact IH. }
  assert (forall added : list (Validator F),
            (exists rest : list (Validator F), Permutation (added ++ rest) scored) ->
            Forall (fun v =>
                      In (val_ID v) newCandidates /\
                      exists rm : ReputationManager F,
                        reputationManagers !! val_ID v = Some rm /\
                        val_Reputation v = ComputeReputation rm (val_ID v) now) added) as Hscored.
  { intros added [rest Hperm]. apply List.Forall_forall. intros v Hv.
    assert (In v scored) as Hvs.
    { eapply Permutation_in; [exact Hperm|]. apply in_or_app. left. exact Hv. }
    unfold scored in Hvs. rewrite nodeReputations_omap in Hvs.
    apply list_elem_of_In, list_elem_of_omap in Hvs. destruct Hvs as (nodeID & Hid & Hv').
    destruct (reputationManagers !! nodeID) as [rm|] eqn:Hrm; [|discriminate].
    cbn in Hv'. inversion Hv'; subst v. cbn [val_ID val_Reputation].
    split; [apply list_elem_of_In, Hid|]. exists rm. split; [exact Hrm|reflexivity]. }
  exists kept.
  unfold vg', PenalizeInactiveValidators. fold kept. fold scored. rewrite Hsub.
  cbn [vg_Validators vg_CurrentRound vg_ActivePeriod vg_GroupSize vg_CreatedAt].
  destruct ((vg_GroupSize vg - Z.of_nat (length kept) >? 0)%Z &&
            (0 <? length newCandidates)%nat) eqn:Hneeded.
  - apply andb_true_iff in Hneeded. destruct Hneeded as [Hpos _]. apply Z.gtb_lt in Hpos.
    specialize (Hsort scored).
    set (sorted := sort_Slice (Validator F) byReputation scored) in *.
    assert (length sorted = length scored) as Hls by (apply Permutation_length, Hsort).
    eexists. split; [reflexivity|]. split; [exact Hsl|]. split; [exact Hin|].
    split; [|split; [|repeat split]].
    + apply Hscored. eexists. rewrite firstn_skipn. exact Hsort.
    + rewrite length_firstn, Hls.
      destruct (Z.of_nat (length scored) <? vg_GroupSize vg - Z.of_nat (length kept))%Z eqn:Hc;
        [apply Z.ltb_lt in Hc|apply Z.ltb_ge in Hc]; lia.
  - exists []. rewrite app_nil_r. split; [reflexivity|]. split; [exact Hsl|].
    split; [exact Hin|]. split; [constructor|]. split; [|repeat split].
    apply andb_false_iff in Hneeded. destruct Hneeded as [Hz|Hc].
    + rewrite Z.gtb_ltb in Hz. apply Z.ltb_ge in Hz. cbn [length]. lia.
    + apply Nat.ltb_ge in Hc. assert (newCandidates = []) as -> by (destruct newCandidates; cbn in Hc; [reflexivity|lia]).
      cbn [length]. unfold scored, nodeReputations. cbn. lia.
Qed.

End RoundFacts.

(** The hypotheses of [NeedRefresh_after_rounds] hold for a committee of one seat and a period of two rounds, after two rounds. *)
Lemma NeedRefresh_after_rounds_witness :
  NeedRefresh (Nat.iter 2 IncrementRound OneSeat.seated) = true <->
  (vg_ActivePeriod OneSeat.group <= Z.of_nat 2)%Z.
Proof.
  apply (NeedRefresh_after_rounds (Fmath := binary64_math (fun x => x) (fun x _ => x))
           (@insertionSortLessFunc) OneSeat.group OneSeat.seated ["a"%string]
           OneSeat.managers 0%Z 2).
  - vm_compute. reflexivity.
  - discriminate.
  - vm_compute. discriminate.
Defined.

(** The hypotheses of [PenalizeInactiveValidators_refill] hold for the library's insertion sort, a committee of four that loses "v2" and one candidate. *)
Lemma PenalizeInactiveValidators_refill_witness :
  let vg' := PenalizeInactiveValidators (Fmath := binary64_math (fun x => x) (fun x _ => x))
               (@insertionSortLessFunc) DoubleCommit.group ["v2"%string] OneSeat.managers
               ["a"%string] 0%Z in
  exists kept added : list (Validator float),
    vg_Validators vg' = kept ++ added /\
    sublist kept (vg_Validators DoubleCommit.group) /\
    (forall v : Validator float,
       In v kept <->
       In v (vg_Validators DoubleCommit.group) /\ ~ In (val_ID v) ["v2"%string]) /\
    Forall (fun v =>
              In (val_ID v) ["a"%string] /\
              exists rm : ReputationManager float,
                OneSeat.managers !! val_ID v = Some rm /\
                val_Reputation v =
                  ComputeReputation (Fmath := binary64_math (fun x => x) (fun x _ => x))
                                    rm (val_ID v) 0%Z) added /\
    length added =
      Nat.min (Z.to_nat (vg_GroupSize DoubleCommit.group - Z.of_nat (length kept)))
              (length (nodeReputations (Fmath := binary64_math (fun x => x) (fun x _ => x))
                                       ["a"%string] OneSeat.managers 0%Z)) /\
    vg_CurrentRound vg' = vg_CurrentRound DoubleCommit.group /\
    vg_ActivePeriod vg' = vg_ActivePeriod DoubleCommit.group /\
    vg_GroupSize vg' = vg_GroupSize DoubleCommit.group /\
    vg_CreatedAt vg' = vg_CreatedAt DoubleCommit.group.
Proof.
  apply (PenalizeInactiveValidators_refill
           (Fmath := binary64_math (fun x => x) (fun x _ => x))
           (@insertionSortLessFunc) DoubleCommit.group ["v2"%string] OneSeat.managers
           ["a"%string] 0%Z).
  - intros l. apply insertionSortLessFunc_perm.
  - vm_compute. split; discriminate.
  - vm_compute. discriminate.
Defined.

(** ** Consensus: votes, quorums and broadcasts *)

Section VoteFacts.
Context {F : Type} {Fops : Float64 F}.

Lemma recordVote_lookup (votes : gmap string (gmap string bool)) (hash from : string) :
  recordVote votes hash from !! hash = Some (<[from := true]> (votesFor votes hash)).
Proof.
  unfold recordVote, votesFor. destruct (votes !! hash) as [row|] eqn:Hrow.
  - rewrite Hrow. apply lookup_insert_eq.
  - rewrite !lookup_insert_eq. reflexivity.
Qed.

Lemma recordVote_lookup_ne (votes : gmap string (gmap string bool)) (hash from other : string) :
  other <> hash -> recordVote votes hash from !! other = votes !! other.
Proof.
  intros Hne. unfold recordVote. destruct (votes !! hash) as [row|] eqn:Hrow.
  - rewrite lookup_insert_ne by congruence. reflexivity.
  - rewrite !lookup_insert_ne by congruence. reflexivity.
Qed.

Lemma recordVote_twice (votes : gmap string (gmap string bool)) (hash from : string) :
  recordVote (recordVote votes hash from) hash from = recordVote votes hash from.
Proof.
  apply map_eq. intros other. destruct (decide (other = hash)) as [->|Hne].
  - rewrite !recordVote_lookup. unfold votesFor at 1. rewrite recordVote_lookup.
    cbn [default from_option Datatypes.id]. rewrite insert_insert_eq. reflexivity.
  - rewrite !recordVote_lookup_ne by exact Hne. reflexivity.
Qed.

Lemma countVotes_recordVote (votes : gmap string (gmap string bool)) (hash from : string) :
  countVotes (recordVote votes hash from) hash =
    match votesFor votes hash !! from with
    | Some _ => countVotes votes hash
    | None => (countVotes votes hash + 1)%Z
    end.
Proof.
  unfold countVotes. rewrite recordVote_lookup. cbn [default from_option Datatypes.id].
  rewrite map_size_insert. fold (votesFor votes hash).
  destruct (votesFor votes hash !! from); cbn [Datatypes.id]; lia.
Qed.

Lemma faultBudget_quot (N : Z) :
  (0 <= N <= GoInt.max_int)%Z -> faultBudget N = Z.quot (N - 1) 3.
Proof.
  intros HN. unfold faultBudget, GoInt.quot, GoInt.sub.
  assert (GoInt.in_range (N - 1)) as H1
    by (unfold GoInt.in_range, GoInt.min_int, GoInt.max_int in *; lia).
  rewrite (wrap_in_range _ H1). apply wrap_in_range.
  unfold GoInt.in_range, GoInt.min_int, GoInt.max_int in *.
  destruct (Z.eq_dec N 0) as [->|Hpos];
    [replace (Z.quot (0 - 1) 3) with 0%Z by reflexivity; lia|].
  pose proof (Z.quot_pos (N - 1) 3 ltac:(lia) ltac:(lia)).
  pose proof (Z.mul_quot_le (N - 1) 3 ltac:(lia) ltac:(lia)). lia.
Qed.

Lemma requiredCommits (N : Z) :
  (0 <= N <= GoInt.max_int)%Z ->
  GoInt.add (GoInt.mul 2 (faultBudget N)) 1 = commitQuorum N /\ (1 <= commitQuorum N)%Z.
Proof.
  intros HN. rewrite (faultBudget_quot N HN). unfold commitQuorum, GoInt.add, GoInt.mul.
  assert (0 <= Z.quot (N - 1) 3 /\ 3 * Z.quot (N - 1) 3 <= N)%Z as [Hq0 Hq].
  { destruct (Z.eq_dec N 0) as [->|Hpos];
      [replace (Z.quot (0 - 1) 3) with 0%Z by reflexivity; lia|].
    pose proof (Z.quot_pos (N - 1) 3 ltac:(lia) ltac:(lia)).
    pose proof (Z.mul_quot_le (N - 1) 3 ltac:(lia) ltac:(lia)). lia. }
  unfold GoInt.max_int in HN.
  rewrite (wrap_in_range (2 * _)) by (unfold GoInt.in_range, GoInt.min_int, GoInt.max_int; lia).
  rewrite wrap_in_range by (unfold GoInt.in_range, GoInt.min_int, GoInt.max_int; lia).
  lia.
Qed.

Lemma GetSize_range (vg : ValidatorGroup F) : (0 <= GetSize vg)%Z.
Proof. unfold GetSize. lia. Qed.

(** One commit message: below the quorum only the vote table changes; from
    the quorum on the block is appended and the tables lose the hash. *)
Lemma handleCommit_step (en : EmergencyNode F) (msg : ConsensusMessage F)
  (clock : nat -> Time) (rand_Float64 : nat -> F) :
  (GetSize (en_ValidatorGroup en) <= GoInt.max_int)%Z ->
  let votes := recordVote (en_commitVotes en) (msg_BlockHash msg) (msg_From msg) in
  let en' := handleCommit en msg clock rand_Float64 in
  en_ValidatorGroup en' = en_ValidatorGroup en /\
  ((countVotes votes (msg_BlockHash msg) < commitQuorum (GetSize (en_ValidatorGroup en)))%Z ->
   en' = withCommitVotes en votes) /\
  ((commitQuorum (GetSize (en_ValidatorGroup en)) <= countVotes votes (msg_BlockHash msg))%Z ->
   chainOf en' = chainOf en ++ [msg_Block msg] /\
   en_commitVotes en' = delete (msg_BlockHash msg) votes /\
   en_prepareVotes en' = delete (msg_BlockHash msg) (en_prepareVotes en) /\
   en_prePrepareReceived en' = delete (msg_BlockHash msg) (en_prePrepareReceived en)).
Proof.
  intros HN votes en'. unfold en', handleCommit.
  cbn [en_commitVotes withCommitVotes en_ValidatorGroup]. fold votes.
  destruct (requiredCommits (GetSize (en_ValidatorGroup en))) as [-> _];
    [split; [apply GetSize_range|exact HN]|].
  destruct (Z.geb_spec (countVotes votes (msg_BlockHash msg))
                       (commitQuorum (GetSize (en_ValidatorGroup en)))) as [Hge|Hlt].
  - split; [|split; [lia|intros _]].
    + unfold recordEmergencyInteractions. cbn. destruct (en_IsValidator en); reflexivity.
    + unfold chainOf, recordEmergencyInteractions. cbn. destruct (en_IsValidator en); cbn; repeat split.
  - split; [reflexivity|]. split; [reflexivity|lia].
Qed.

End VoteFacts.

Section QuorumFacts.
Context {F : Type} {Fops : Float64 F}.

Lemma handleCommits_snoc (en : EmergencyNode F) (l : list (Delivery (F := F)))
  (d : Delivery (F := F)) :
  handleCommits en (l ++ [d]) =
    handleCommit (handleCommits en l) (deliveredMessage d) d.1.2 d.2.
Proof.
  unfold handleCommits. rewrite foldl_app. cbn [foldl]. destruct d as [[msg clock] rnd].
  reflexivity.
Qed.

(** Commit messages of distinct senders that have not voted yet, as long as
    the quorum is not reached: each adds one vote and nothing else
    changes. *)
Lemma handleCommits_below (hash : string) (l : list (Delivery (F := F))) (en : EmergencyNode F) :
  (GetSize (en_ValidatorGroup en) <= GoInt.max_int)%Z ->
  Forall (fun d => msg_BlockHash (deliveredMessage d) = hash) l ->
  NoDup (map (fun d => msg_From (deliveredMessage d)) l) ->
  Forall (fun d => votesFor (en_commitVotes en) hash !! msg_From (deliveredMessage d) = None) l ->
  (countVotes (en_commitVotes en) hash + Z.of_nat (length l)
   < commitQuorum (GetSize (en_ValidatorGroup en)))%Z ->
  let en' := handleCommits en l in
  chainOf en' = chainOf en /\
  en_ValidatorGroup en' = en_ValidatorGroup en /\
  countVotes (en_commitVotes en') hash =
    (countVotes (en_commitVotes en) hash + Z.of_nat (length l))%Z /\
  (forall from : string,
     votesFor (en_commitVotes en) hash !! from = None ->
     from ∉ map (fun d => msg_From (deliveredMessage d)) l ->
     votesFor (en_commitVotes en') hash !! from = None).
Proof.
  revert en. induction l as [|d l IH]; intros en HN Hhash Hnodup Hfresh Hlt en'.
  - cbn. repeat split; [lia|]. intros from Hf _. exact Hf.
  - destruct d as [[msg clock] rnd]. unfold en', handleCommits. cbn [foldl].
    fold (handleCommits (handleCommit en msg clock rnd) l).
    apply Forall_cons in Hhash. destruct Hhash as [Hh Hhash'].
    cbn [deliveredMessage fst] in Hh. subst hash.
    apply Forall_cons in Hfresh. destruct Hfresh as [Hf Hfresh'].
    cbn [deliveredMessage fst] in Hf.
    cbn [map deliveredMessage fst] in Hnodup. apply NoDup_cons in Hnodup.
    destruct Hnodup as [Hnotin Hnodup].
    destruct (handleCommit_step en msg clock rnd HN) as (Hvg & Hbelow & _).
    pose proof (countVotes_recordVote (en_commitVotes en) (msg_BlockHash msg) (msg_From msg))
      as Hcount.
    rewrite Hf in Hcount. cbn [length] in Hlt.
    rewrite Hbelow by (rewrite Hcount; lia).
    set (en1 := withCommitVotes en
                  (recordVote (en_commitVotes en) (msg_BlockHash msg) (msg_From msg))).
    assert (forall from : string,
              from <> msg_From msg ->
              votesFor (en_commitVotes en1) (msg_BlockHash msg) !! from =
                votesFor (en_commitVotes en) (msg_BlockHash msg) !! from) as Hrow.
    { intros from Hne. unfold en1, votesFor at 1. cbn [en_commitVotes withCommitVotes].
      rewrite recordVote_lookup. cbn [default from_option Datatypes.id].
      apply lookup_insert_ne. congruence. }
    destruct (IH en1) as (Hc & Hg & Hn & Hrest).
    + exact HN.
    + exact Hhash'.
    + exact Hnodup.
    + apply List.Forall_forall. intros d Hd. rewrite Hrow.
      * rewrite List.Forall_forall in Hfresh'. apply Hfresh', Hd.
      * intros Heq. apply Hnotin. rewrite <- Heq.
        apply list_elem_of_In, in_map_iff. exists d. split; [reflexivity|exact Hd].
    + unfold en1 at 1 2. cbn [en_commitVotes withCommitVotes en_ValidatorGroup].
      rewrite Hcount. lia.
    + split; [exact Hc|]. split; [exact Hg|]. split.
      * rewrite Hn. unfold en1. cbn [en_commitVotes withCommitVotes]. rewrite Hcount.
        cbn [length]. lia.
      * intros from Hf' Hnot. cbn [map deliveredMessage fst] in Hnot.
        apply not_elem_of_cons in Hnot. destruct Hnot as [Hne Hnot].
        apply Hrest; [|exact Hnot]. rewrite Hrow by exact Hne. exact Hf'.
Qed.

(** X21. The commit quorum. A node that holds no commit vote for a block hash
    handles commit messages for it from distinct senders: as long as fewer
    than [2f + 1] have arrived the chain does not change and each message
    counts as one vote; the message that brings the count to [2f + 1]
    appends its block and removes the hash from the three tables. *)
Theorem commit_quorum (en : EmergencyNode F) (hash : string)
  (l : list (Delivery (F := F))) (d : Delivery (F := F)) :
  (GetSize (en_ValidatorGroup en) <= GoInt.max_int)%Z ->
  countVotes (en_commitVotes en) hash = 0%Z ->
  Forall (fun d => msg_BlockHash (deliveredMessage d) = hash) (l ++ [d]) ->
  NoDup (map (fun d => msg_From (deliveredMessage d)) (l ++ [d])) ->
  (Z.of_nat (length l) + 1 = commitQuorum (GetSize (en_ValidatorGroup en)))%Z ->
  (forall k : nat,
     chainOf (handleCommits en (take k l)) = chainOf en /\
     countVotes (en_commitVotes (handleCommits en (take k l))) hash =
       Z.of_nat (Nat.min k (length l))) /\
  let en' := handleCommits en (l ++ [d]) in
  chainOf en' = chainOf en ++ [msg_Block (deliveredMessage d)] /\
  en_commitVotes en' !! hash = None /\
  en_prepareVotes en' !! hash = None /\
  en_prePrepareReceived en' !! hash = None.
Proof.
  intros HN H0 Hhash Hnodup Hq.
  assert (votesFor (en_commitVotes en) hash = ∅) as Hempty.
  { unfold countVotes in H0. fold (votesFor (en_commitVotes en) hash) in H0.
    apply map_size_empty_iff. lia. }
  apply Forall_app in Hhash. destruct Hhash as [Hhl Hhd].
  rewrite map_app in Hnodup. apply NoDup_app in Hnodup.
  destruct Hnodup as (Hndl & Hdisj & _).
  assert (forall l' : list (Delivery (F := F)),
            Forall (fun d => votesFor (en_commitVotes en) hash !!
                               msg_From (deliveredMessage d) = None) l') as Hfresh.
  { intros l'. apply List.Forall_forall. intros x _. rewrite Hempty. apply lookup_empty. }
  split.
  - intros k.
    destruct (handleCommits_below hash (take k l) en HN) as (Hc & _ & Hn & _).
    + apply Forall_take, Hhl.
    + rewrite <- (take_drop k l), map_app in Hndl. apply NoDup_app in Hndl. apply Hndl.
    + apply Hfresh.
    + rewrite H0, length_take. lia.
    + split; [exact Hc|]. rewrite Hn, H0, length_take. lia.
  - intros en'. unfold en'. rewrite handleCommits_snoc.
    destruct (handleCommits_below hash l en HN Hhl Hndl (Hfresh l)) as (Hc & Hg & Hn & Hrest);
      [rewrite H0; lia|].
    set (enl := handleCommits en l) in *.
    apply Forall_cons in Hhd. destruct Hhd as [Hh _]. subst hash.
    destruct (handleCommit_step enl (deliveredMessage d) d.1.2 d.2) as (_ & _ & Hreach);
      [rewrite Hg; exact HN|].
    cbv zeta in Hreach. rewrite Hg in Hreach.
    destruct Hreach as (Hchain & Hcv & Hpv & Hpp).
    + rewrite countVotes_recordVote, Hrest, Hn, H0; [lia| |].
      * rewrite Hempty. apply lookup_empty.
      * intros Hin. apply (Hdisj _ Hin). cbn. left.
    + rewrite Hchain, Hc, Hcv, Hpv, Hpp, !lookup_delete_eq. repeat split.
Qed.

(** X22. In a committee of at most three validators, and with no committee at
    all, the quorum is one vote: a single commit message appends its block,
    whoever sent it, whether or not the node is a validator and whatever
    the block is. *)
Theorem handleCommit_small_committee (en : EmergencyNode F) (msg : ConsensusMessage F)
  (clock : nat -> Time) (rand_Float64 : nat -> F) :
  (GetSize (en_ValidatorGroup en) <= 3)%Z ->
  chainOf (handleCommit en msg clock rand_Float64) = chainOf en ++ [msg_Block msg].
Proof.
  intros HN. pose proof (GetSize_range (en_ValidatorGroup en)) as H0.
  destruct (handleCommit_step en msg clock rand_Float64) as (_ & _ & Hreach);
    [unfold GoInt.max_int; lia|].
  apply Hreach.
  assert (commitQuorum (GetSize (en_ValidatorGroup en)) = 1%Z) as ->.
  { unfold commitQuorum.
    assert (GetSize (en_ValidatorGroup en) = 0 \/ GetSize (en_ValidatorGroup en) = 1 \/
            GetSize (en_ValidatorGroup en) = 2 \/ GetSize (en_ValidatorGroup en) = 3)%Z
      as [-> | [-> | [-> | ->]]] by lia; reflexivity. }
  rewrite countVotes_recordVote. unfold countVotes at 1 2.
  fold (votesFor (en_commitVotes en) (msg_BlockHash msg)).
  destruct (votesFor (en_commitVotes en) (msg_BlockHash msg) !! msg_From msg) eqn:Hv; [|lia].
  assert (size (votesFor (en_commitVotes en) (msg_BlockHash msg)) <> 0%nat); [|lia].
  intros Hs. apply map_size_empty_iff in Hs. rewrite Hs, lookup_empty in Hv. discriminate.
Qed.

(** X23. Below the quorum a commit message that arrives a second time changes
    nothing: the votes of a block are counted per sender. *)
Theorem handleCommit_repeated (en : EmergencyNode F) (msg : ConsensusMessage F)
  (clock clock' : nat -> Time) (rand_Float64 rand_Float64' : nat -> F) :
  (GetSize (en_ValidatorGroup en) <= GoInt.max_int)%Z ->
  (countVotes (recordVote (en_commitVotes en) (msg_BlockHash msg) (msg_From msg))
              (msg_BlockHash msg)
   < commitQuorum (GetSize (en_ValidatorGroup en)))%Z ->
  handleCommit (handleCommit en msg clock rand_Float64) msg clock' rand_Float64' =
    handleCommit en msg clock rand_Float64.
Proof.
  intros HN Hlt.
  destruct (handleCommit_step en msg clock rand_Float64 HN) as (Hg & Hbelow & _).
  specialize (Hbelow Hlt). rewrite Hbelow.
  destruct (handleCommit_step
              (withCommitVotes en (recordVote (en_commitVotes en) (msg_BlockHash msg)
                                              (msg_From msg)))
              msg clock' rand_Float64' HN) as (_ & Hbelow' & _).
  cbn [en_commitVotes withCommitVotes en_ValidatorGroup] in Hbelow'.
  rewrite recordVote_twice in Hbelow'. rewrite (Hbelow' Hlt). reflexivity.
Qed.

(** X25. The targets of the two broadcasts. A broadcast reaches every peer whose
    identifier is not the node's own, one message each and in the order of
    the peer list; [BroadcastToValidators] reaches those of them that are
    flagged as validators. Neither ever delivers to the node itself. *)
Theorem Broadcast_targets (en : EmergencyNode F) (msg : ConsensusMessage F) :
  Broadcast en msg =
    map (fun peer => (peer_ID peer, msg))
        (List.filter (fun peer => negb (String.eqb (peer_ID peer) (en_ID en))) (en_Peers en)) /\
  BroadcastToValidators en msg =
    map (fun peer => (peer_ID peer, msg))
        (List.filter (fun peer => negb (String.eqb (peer_ID peer) (en_ID en)) &&
                                  peer_IsValidator peer) (en_Peers en)) /\
  sublist (BroadcastToValidators en msg) (Broadcast en msg) /\
  Forall (fun s => s.1 <> en_ID en /\ s.2 = msg) (Broadcast en msg).
Proof.
  unfold Broadcast, BroadcastToValidators.
  induction (en_Peers en) as [|peer peers IH]; [repeat split; constructor|].
  destruct IH as (IH1 & IH2 & IH3 & IH4). cbn [flat_map List.filter].
  destruct (String.eqb_spec (peer_ID peer) (en_ID en)) as [Heq|Hne]; cbn [negb andb app].
  - repeat split; assumption.
  - rewrite IH1. destruct (peer_IsValidator peer); cbn [app map]; rewrite IH2.
    + split; [reflexivity|]. split; [reflexivity|]. rewrite <- IH1, <- IH2. split.
      * constructor. exact IH3.
      * constructor; [split; [exact Hne|reflexivity]|]. rewrite IH1. rewrite IH1 in IH4. exact IH4.
    + split; [reflexivity|]. split; [reflexivity|]. rewrite <- IH1, <- IH2. split.
      * constructor. exact IH3.
      * constructor; [split; [exact Hne|reflexivity]|]. exact IH4.
Qed.

End QuorumFacts.

(** The hypotheses of [commit_quorum] hold for a validator of a committee of four and the commit messages of its three peers. *)
Lemma commit_quorum_witness :
  let en := UpdateValidatorStatus DoubleCommit.node0 in
  let l := [(DoubleCommit.commit "v2", fun _ : nat => 3%Z, fun _ : nat => 0%float);
            (DoubleCommit.commit "v3", fun _ : nat => 3%Z, fun _ : nat => 0%float)] in
  let d := (DoubleCommit.commit "v4", fun _ : nat => 3%Z, fun _ : nat => 0%float) in
  (forall k : nat,
     chainOf (handleCommits en (take k l)) = chainOf en /\
     countVotes (en_commitVotes (handleCommits en (take k l))) "h1" =
       Z.of_nat (Nat.min k (length l))) /\
  let en' := handleCommits en (l ++ [d]) in
  chainOf en' = chainOf en ++ [msg_Block (deliveredMessage d)] /\
  en_commitVotes en' !! "h1"%string = None /\
  en_prepareVotes en' !! "h1"%string = None /\
  en_prePrepareReceived en' !! "h1"%string = None.
Proof.
  apply (commit_quorum (UpdateValidatorStatus DoubleCommit.node0) "h1"
           [(DoubleCommit.commit "v2", fun _ : nat => 3%Z, fun _ : nat => 0%float);
            (DoubleCommit.commit "v3", fun _ : nat => 3%Z, fun _ : nat => 0%float)]
           (DoubleCommit.commit "v4", fun _ : nat => 3%Z, fun _ : nat => 0%float)).
  - vm_compute. discriminate.
  - vm_compute. reflexivity.
  - repeat constructor.
  - apply (bool_decide_unpack _). vm_compute. exact I.
  - vm_compute. reflexivity.
Defined.

(** The hypotheses of [handleCommit_small_committee] hold for a node whose committee has no member and a commit message from a stranger. *)
Lemma handleCommit_small_committee_witness :
  chainOf (handleCommit Proposer.bystander (DoubleCommit.commit "stranger")
                        (fun _ => 3%Z) (fun _ => 0%float)) =
    chainOf Proposer.bystander ++ [msg_Block (DoubleCommit.commit "stranger")].
Proof.
  apply (handleCommit_small_committee Proposer.bystander (DoubleCommit.commit "stranger")
           (fun _ => 3%Z) (fun _ => 0%float)).
  vm_compute. discriminate.
Defined.

(** The hypotheses of [handleCommit_repeated] hold for a node of a committee of four that receives the same commit message twice. *)
Lemma handleCommit_repeated_witness :
  handleCommit (handleCommit DoubleCommit.node0 (DoubleCommit.commit "v2")
                             (fun _ => 3%Z) (fun _ => 0%float))
               (DoubleCommit.commit "v2") (fun _ => 4%Z) (fun _ => 1%float) =
    handleCommit DoubleCommit.node0 (DoubleCommit.commit "v2") (fun _ => 3%Z) (fun _ => 0%float).
Proof.
  apply (handleCommit_repeated DoubleCommit.node0 (DoubleCommit.commit "v2")).
  - vm_compute. discriminate.
  - vm_compute. reflexivity.
Defined.

Section HandlerFacts.
Context {F : Type} {Fops : Float64 F}.

Lemma requiredPrepares (N : Z) :
  (0 <= N <= GoInt.max_int)%Z -> GoInt.add (faultBudget N) 1 = prepareQuorum N.
Proof.
  intros HN. rewrite (faultBudget_quot N HN). unfold prepareQuorum, GoInt.add.
  apply wrap_in_range. unfold GoInt.in_range, GoInt.min_int, GoInt.max_int in *.
  destruct (Z.eq_dec N 0) as [->|Hpos];
    [replace (Z.quot (0 - 1) 3) with 0%Z by reflexivity; lia|].
  pose proof (Z.quot_pos (N - 1) 3 ltac:(lia) ltac:(lia)).
  pose proof (Z.mul_quot_le (N - 1) 3 ltac:(lia) ltac:(lia)). lia.
Qed.

(** One endorsement: a node that is not a validator ignores it; a validator
    records the vote and, from the quorum on, sends a commit message to
    every other validator peer. *)
Lemma handlePrepare_step (en : EmergencyNode F) (msg : ConsensusMessage F) (now : Time) :
  (GetSize (en_ValidatorGroup en) <= GoInt.max_int)%Z ->
  let votes := recordVote (en_prepareVotes en) (msg_BlockHash msg) (msg_From msg) in
  let commitMsg := {| msg_Type := Commit;
                      msg_BlockHash := msg_BlockHash msg;
                      msg_Block := msg_Block msg;
                      msg_From := en_ID en;
                      msg_Timestamp := now |} in
  handlePrepare en msg now =
    if en_IsValidator en then
      (withPrepareVotes en votes,
       if (prepareQuorum (GetSize (en_ValidatorGroup en)) <=? countVotes votes (msg_BlockHash msg))%Z
       then BroadcastToValidators en commitMsg else [])
    else (en, []).
Proof.
  intros HN votes commitMsg. unfold handlePrepare.
  destruct (en_IsValidator en); [|reflexivity]. cbn [negb].
  cbn [en_prepareVotes withPrepareVotes en_ValidatorGroup]. fold votes.
  rewrite requiredPrepares by (split; [apply GetSize_range|exact HN]).
  rewrite Z.geb_leb.
  destruct (prepareQuorum (GetSize (en_ValidatorGroup en)) <=? countVotes votes (msg_BlockHash msg))%Z;
    reflexivity.
Qed.

Lemma recordEmergencyInteractions_fold (id : string) (clock : nat -> Time) (rand_Float64 : nat -> F)
  (txs : list (EmergencyTransaction F)) (rm : ReputationManager F) (start : nat) :
  exists news : list (Interaction F),
    foldl (fun rm '(i, tx) =>
             let '(posEvents, negEvents) :=
               if (rand_Float64 i <? flit 0.9)%f64 then (1%Z, 0%Z) else (0%Z, 1%Z) in
             let inter := {| reputation.it_From := id;
                             reputation.it_To := tx_VehicleID tx;
                             reputation.it_PosEvents := posEvents;
                             reputation.it_NegEvents := negEvents;
                             reputation.it_Timestamp := clock i;
                             reputation.it_TrajUser := [];
                             reputation.it_TrajProvider := [];
                             reputation.it_TxType := reputation.EmergencyTransaction;
                             reputation.it_UrgencyDegree := tx_UrgencyDegree tx |} in
             reputation.AddInteraction rm inter)
          rm (combine (seq start (length txs)) txs) =
      {| rm_cfg := rm_cfg rm; rm_interactions := rm_interactions rm ++ news |} /\
    Forall2 (fun inter tx =>
               it_From inter = id /\ it_To inter = tx_VehicleID tx /\
               it_TxType inter = reputation.EmergencyTransaction /\
               it_UrgencyDegree inter = tx_UrgencyDegree tx /\
               it_TrajUser inter = [] /\ it_TrajProvider inter = [] /\
               ((it_PosEvents inter = 1 /\ it_NegEvents inter = 0) \/
                (it_PosEvents inter = 0 /\ it_NegEvents inter = 1))%Z)
            news txs.
Proof.
  revert rm start. induction txs as [|tx txs IH]; intros rm start.
  - exists []. cbn. rewrite app_nil_r. destruct rm; split; [reflexivity|constructor].
  - cbn [length seq combine foldl].
    destruct (rand_Float64 start <? flit 0.9)%f64;
      match goal with
      | |- context [foldl _ (AddInteraction rm ?inter) _] =>
          destruct (IH (AddInteraction rm inter) (S start)) as (news & Hfold & Hall);
          exists (inter :: news)
      end;
      (split;
       [refine (eq_trans Hfold _); cbn [reputation.AddInteraction rm_cfg rm_interactions];
        rewrite <- app_assoc; reflexivity
       |constructor; [cbn; repeat split; auto|exact Hall]]).
Qed.

(** X26. [recordEmergencyInteractions]. A node that is not a validator records
    nothing. A validator appends to its interaction log one evaluation per
    transaction of the block, in the block's order: from itself to the
    transaction's sender, of emergency type, with the transaction's urgency,
    no trajectories, and one event that is either positive or negative; it
    also evaluates itself when it is the sender. *)
Theorem recordEmergencyInteractions_log (en : EmergencyNode F) (block : EmergencyBlock F)
  (clock : nat -> Time) (rand_Float64 : nat -> F) :
  let en' := recordEmergencyInteractions en block clock rand_Float64 in
  if en_IsValidator en then
    exists news : list (Interaction F),
      en' = withReputationManager en
              {| rm_cfg := rm_cfg (en_ReputationManager en);
                 rm_interactions := rm_interactions (en_ReputationManager en) ++ news |} /\
      Forall2 (fun inter tx =>
                 it_From inter = en_ID en /\ it_To inter = tx_VehicleID tx /\
                 it_TxType inter = reputation.EmergencyTransaction /\
                 it_UrgencyDegree inter = tx_UrgencyDegree tx /\
                 it_TrajUser inter = [] /\ it_TrajProvider inter = [] /\
                 ((it_PosEvents inter = 1 /\ it_NegEvents inter = 0) \/
                  (it_PosEvents inter = 0 /\ it_NegEvents inter = 1))%Z)
              news (blk_Transactions block)
  else en' = en.
Proof.
  intros en'. unfold en', recordEmergencyInteractions.
  destruct (en_IsValidator en); [|reflexivity]. cbn [negb].
  destruct (recordEmergencyInteractions_fold (en_ID en) clock rand_Float64
              (blk_Transactions block) (en_ReputationManager en) 0) as (news & Hfold & Hall).
  exists news. split; [|exact Hall]. f_equal. exact Hfold.
Qed.

End HandlerFacts.

Section PrepareFacts.
Context {F : Type} {Fops : Float64 F}.

Lemma handlePrepares_snoc (en : EmergencyNode F) (l : list (ConsensusMessage F * Time))
  (msg : ConsensusMessage F) (now : Time) :
  handlePrepares en (l ++ [(msg, now)]) =
    ((handlePrepare (handlePrepares en l).1 msg now).1,
     (handlePrepares en l).2 ++ (handlePrepare (handlePrepares en l).1 msg now).2).
Proof.
  unfold handlePrepares. rewrite foldl_app. cbn [foldl].
  destruct (foldl _ (en, []) l) as [en1 sent]. cbn [fst snd].
  destruct (handlePrepare en1 msg now) as [en2 more]. reflexivity.
Qed.

Lemma handlePrepare_validator (en : EmergencyNode F) (msg : ConsensusMessage F) (now : Time) :
  (GetSize (en_ValidatorGroup en) <= GoInt.max_int)%Z -> en_IsValidator en = true ->
  handlePrepare en msg now =
    (withPrepareVotes en (recordVote (en_prepareVotes en) (msg_BlockHash msg) (msg_From msg)),
     if (prepareQuorum (GetSize (en_ValidatorGroup en))
         <=? countVotes (recordVote (en_prepareVotes en) (msg_BlockHash msg) (msg_From msg))
                        (msg_BlockHash msg))%Z
     then BroadcastToValidators en (commitFor en msg now) else []).
Proof.
  intros HN Hval. rewrite (handlePrepare_step en msg now HN), Hval. reflexivity.
Qed.

(** Endorsements of distinct senders that have not voted yet, as long as
    the quorum is not reached: each adds one vote and nothing is sent. *)
Lemma handlePrepares_below (hash : string) (l : list (ConsensusMessage F * Time))
  (en : EmergencyNode F) :
  (GetSize (en_ValidatorGroup en) <= GoInt.max_int)%Z -> en_IsValidator en = true ->
  Forall (fun d => msg_BlockHash d.1 = hash) l ->
  NoDup (map (fun d => msg_From d.1) l) ->
  Forall (fun d => votesFor (en_prepareVotes en) hash !! msg_From d.1 = None) l ->
  (countVotes (en_prepareVotes en) hash + Z.of_nat (length l)
   < prepareQuorum (GetSize (en_ValidatorGroup en)))%Z ->
  exists votes : gmap string (gmap string bool),
    handlePrepares en l = (withPrepareVotes en votes, []) /\
    countVotes votes hash = (countVotes (en_prepareVotes en) hash + Z.of_nat (length l))%Z /\
    (forall from : string,
       votesFor (en_prepareVotes en) hash !! from = None ->
       from ∉ map (fun d => msg_From d.1) l ->
       votesFor votes hash !! from = None).
Proof.
  intros HN Hval. induction l as [|[msg now] l IH] using rev_ind; intros Hhash Hnodup Hfresh Hlt.
  - exists (en_prepareVotes en). cbn. split; [destruct en; reflexivity|].
    split; [lia|]. intros from Hf _. exact Hf.
  - apply Forall_app in Hhash. destruct Hhash as [Hhash Hh].
    apply Forall_cons in Hh. destruct Hh as [Hh _]. cbn [fst] in Hh. subst hash.
    apply Forall_app in Hfresh. destruct Hfresh as [Hfresh Hf].
    apply Forall_cons in Hf. destruct Hf as [Hf _]. cbn [fst] in Hf.
    rewrite map_app in Hnodup. apply NoDup_app in Hnodup.
    destruct Hnodup as (Hnd & Hdisj & _).
    rewrite length_app in Hlt. cbn [length] in Hlt.
    destruct IH as (votes & Hrun & Hcount & Hrest); [exact Hhash|exact Hnd|exact Hfresh|lia|].
    rewrite handlePrepares_snoc, Hrun. cbn [fst snd app].
    rewrite handlePrepare_validator by assumption.
    cbn [en_prepareVotes withPrepareVotes en_ValidatorGroup fst snd].
    assert (votesFor votes (msg_BlockHash msg) !! msg_From msg = None) as Hnew.
    { apply Hrest; [exact Hf|]. intros Hin. apply (Hdisj _ Hin). cbn. left. }
    pose proof (countVotes_recordVote votes (msg_BlockHash msg) (msg_From msg)) as Hc.
    rewrite Hnew in Hc.
    exists (recordVote votes (msg_BlockHash msg) (msg_From msg)).
    destruct (Z.leb_spec (prepareQuorum (GetSize (en_ValidatorGroup en)))
                         (countVotes (recordVote votes (msg_BlockHash msg) (msg_From msg))
                                     (msg_BlockHash msg))) as [Hge|_]; [lia|].
    split; [reflexivity|]. split; [rewrite Hc, Hcount, length_app; cbn [length]; lia|].
    intros from Hfrom Hnot. rewrite map_app in Hnot. cbn [map fst] in Hnot.
    apply not_elem_of_app in Hnot. destruct Hnot as [Hnot1 Hnot2].
    apply not_elem_of_cons in Hnot2. destruct Hnot2 as [Hne _].
    unfold votesFor. rewrite recordVote_lookup. cbn [default from_option Datatypes.id].
    rewrite lookup_insert_ne by congruence. apply Hrest; assumption.
Qed.

(** X24. The endorsement quorum. A validator that holds no endorsement for a
    block hash handles endorsements for it from distinct senders: while
    fewer than [f + 1] have arrived it sends nothing; the one that brings
    the count to [f + 1] makes it send a commit message for the block to
    every other validator peer; and so does every endorsement for that hash
    that it handles next, whoever sends it, since the votes are only
    removed when a block is committed. The chain never changes. *)
Theorem prepare_quorum (en : EmergencyNode F) (hash : string)
  (l : list (ConsensusMessage F * Time)) (msg : ConsensusMessage F) (now : Time) :
  (GetSize (en_ValidatorGroup en) <= GoInt.max_int)%Z -> en_IsValidator en = true ->
  countVotes (en_prepareVotes en) hash = 0%Z ->
  Forall (fun d => msg_BlockHash d.1 = hash) (l ++ [(msg, now)]) ->
  NoDup (map (fun d => msg_From d.1) (l ++ [(msg, now)])) ->
  (Z.of_nat (length l) + 1 = prepareQuorum (GetSize (en_ValidatorGroup en)))%Z ->
  (forall k : nat, (handlePrepares en (take k l)).2 = []) /\
  let en' := (handlePrepares en (l ++ [(msg, now)])).1 in
  (handlePrepares en (l ++ [(msg, now)])).2 = BroadcastToValidators en (commitFor en msg now) /\
  chainOf en' = chainOf en /\
  (forall (next : ConsensusMessage F) (later : Time),
     msg_BlockHash next = hash ->
     (handlePrepare en' next later).2 = BroadcastToValidators en (commitFor en next later)).
Proof.
  intros HN Hval H0 Hhash Hnodup Hq.
  assert (votesFor (en_prepareVotes en) hash = ∅) as Hempty.
  { unfold countVotes in H0. fold (votesFor (en_prepareVotes en) hash) in H0.
    apply map_size_empty_iff. lia. }
  assert (forall l' : list (ConsensusMessage F * Time),
            Forall (fun d => votesFor (en_prepareVotes en) hash !! msg_From d.1 = None) l')
    as Hfresh.
  { intros l'. apply List.Forall_forall. intros x _. rewrite Hempty. apply lookup_empty. }
  apply Forall_app in Hhash. destruct Hhash as [Hhl Hhd].
  apply Forall_cons in Hhd. destruct Hhd as [Hh _]. cbn [fst] in Hh.
  rewrite map_app in Hnodup. apply NoDup_app in Hnodup. destruct Hnodup as (Hndl & Hdisj & _).
  split.
  - intros k.
    destruct (handlePrepares_below hash (take k l) en HN Hval) as (votes & Hrun & _).
    + apply Forall_take, Hhl.
    + rewrite <- (take_drop k l), map_app in Hndl. apply NoDup_app in Hndl. apply Hndl.
    + apply Hfresh.
    + rewrite H0, length_take. lia.
    + rewrite Hrun. reflexivity.
  - destruct (handlePrepares_below hash l en HN Hval Hhl Hndl (Hfresh l))
      as (votes & Hrun & Hcount & Hrest); [rewrite H0; lia|].
    rewrite handlePrepares_snoc, Hrun. cbn [fst snd app].
    rewrite handlePrepare_validator by assumption.
    cbn [en_prepareVotes withPrepareVotes en_ValidatorGroup fst snd].
    assert (votesFor votes hash !! msg_From msg = None) as Hnew.
    { apply Hrest; [rewrite Hempty; apply lookup_empty|].
      intros Hin. apply (Hdisj _ Hin). cbn. left. }
    pose proof (countVotes_recordVote votes (msg_BlockHash msg) (msg_From msg)) as Hc.
    rewrite Hh, Hnew in Hc. rewrite Hh.
    assert (countVotes (recordVote votes hash (msg_From msg)) hash =
            prepareQuorum (GetSize (en_ValidatorGroup en))) as Hreach
      by (rewrite Hc, Hcount, H0; lia).
    rewrite Hreach, Z.leb_refl. split; [reflexivity|]. split; [reflexivity|].
    intros next later Hnext.
    rewrite handlePrepare_validator by assumption.
    cbn [en_prepareVotes withPrepareVotes en_ValidatorGroup fst snd]. rewrite Hnext.
    pose proof (countVotes_recordVote (recordVote votes hash (msg_From msg)) hash (msg_From next))
      as Hc'.
    destruct (Z.leb_spec (prepareQuorum (GetSize (en_ValidatorGroup en)))
                         (countVotes (recordVote (recordVote votes hash (msg_From msg)) hash
                                                 (msg_From next)) hash)) as [_|Hlt].
    + reflexivity.
    + exfalso. destruct (votesFor (recordVote votes hash (msg_From msg)) hash !! msg_From next);
        lia.
Qed.

End PrepareFacts.

(** The hypotheses of [prepare_quorum] hold for a validator of a committee
    of four and the endorsements of two of its peers. *)
Lemma prepare_quorum_witness :
  let en := UpdateValidatorStatus DoubleCommit.node0 in
  let l := [(DoubleCommit.commit "v2", 3%Z)] in
  let msg := DoubleCommit.commit "v3" in
  (forall k : nat, (handlePrepares en (take k l)).2 = []) /\
  let en' := (handlePrepares en (l ++ [(msg, 4%Z)])).1 in
  (handlePrepares en (l ++ [(msg, 4%Z)])).2 = BroadcastToValidators en (commitFor en msg 4%Z) /\
  chainOf en' = chainOf en /\
  (forall (next : ConsensusMessage float) (later : Time),
     msg_BlockHash next = "h1"%string ->
     (handlePrepare en' next later).2 = BroadcastToValidators en (commitFor en next later)).
Proof.
  apply (prepare_quorum (UpdateValidatorStatus DoubleCommit.node0) "h1"
           [(DoubleCommit.commit "v2", 3%Z)] (DoubleCommit.commit "v3") 4%Z).
  - vm_compute. discriminate.
  - reflexivity.
  - vm_compute. reflexivity.
  - repeat constructor.
  - apply (bool_decide_unpack _). vm_compute. exact I.
  - vm_compute. reflexivity.
Defined.

Section ProposalFacts.
Variable sha256_hex : string -> string.
Variable json_Marshal : Z -> string -> string -> string -> string.
Variable format_RFC3339Nano : Time -> string.

Lemma GetTopKTransactions_nonempty {F : Type} {Fops : Float64 F}
  (pool : TransactionPool F) (k : Z) :
  transactions pool <> [] -> (1 <= k)%Z ->
  exists (txs : list (EmergencyTransaction F)) (pool' : TransactionPool F),
    GetTopKTransactions pool k = Some (txs, pool') /\ txs <> [].
Proof.
  intros Hne Hk. unfold GetTopKTransactions.
  destruct (Nat.eqb_spec (length (transactions pool)) 0) as [Hlen|Hlen].
  - apply length_zero_iff_nil in Hlen. contradiction.
  - cbv zeta. rewrite bubbleSort_length.
    set (n := length (transactions pool)) in *.
    set (k' := if (k >? Z.of_nat n)%Z then Z.of_nat n else k).
    assert (1 <= k' <= Z.of_nat n)%Z as Hk'.
    { unfold k'. destruct (k >? Z.of_nat n)%Z eqn:Hgt; [lia|].
      rewrite Z.gtb_ltb in Hgt. apply Z.ltb_ge in Hgt. lia. }
    destruct (Z.ltb_spec k' 0) as [Hx|_]; [lia|].
    eexists _, _. split; [reflexivity|]. intros Hnil.
    apply (f_equal (@length _)) in Hnil. rewrite length_firstn, bubbleSort_length in Hnil.
    fold n in Hnil. cbn [length] in Hnil. lia.
Qed.

(** X27. A proposal that goes through (urgencies read as real numbers). A
    validator whose pool is not empty, with a block size of at least one
    and a chain that has a tip, takes the top transactions out of its pool,
    builds a block on the tip, announces it to every other validator peer,
    accepts it itself (the block passes [VerifyBlock]), records the
    announcement and sends its endorsement to the same peers. The chain does
    not change, and the transactions taken are not put back. *)
Theorem ProposeEmergencyBlock_endorses (en : EmergencyNode R) (clock : nat -> Time)
  (tip : EmergencyBlock R) :
  en_IsValidator en = true ->
  transactions (ebc_TxPool (en_Blockchain en)) <> [] ->
  (1 <= ebc_BlockSize (en_Blockchain en))%Z ->
  GetLatestBlock (en_Blockchain en) = Some tip ->
  exists (txs : list (EmergencyTransaction R)) (pool' : TransactionPool R) (en' : EmergencyNode R),
    GetTopKTransactions (ebc_TxPool (en_Blockchain en)) (ebc_BlockSize (en_Blockchain en)) =
      Some (txs, pool') /\
    txs <> [] /\
    let b := NewEmergencyBlock sha256_hex json_Marshal format_RFC3339Nano
               (GoInt.add (blk_Index tip) 1) (blk_Hash tip) txs
               (GetValidatorIDs (en_ValidatorGroup en)) (clock 0%nat) in
    let announce := {| msg_Type := PrePrepare; msg_BlockHash := blk_Hash b; msg_Block := b;
                       msg_From := en_ID en; msg_Timestamp := clock 1%nat |} in
    let endorse := {| msg_Type := Prepare; msg_BlockHash := blk_Hash b; msg_Block := b;
                      msg_From := en_ID en; msg_Timestamp := clock 2%nat |} in
    ProposeEmergencyBlock sha256_hex json_Marshal format_RFC3339Nano en clock =
      Some (en', BroadcastToValidators en announce ++ BroadcastToValidators en endorse) /\
    VerifyBlock sha256_hex json_Marshal format_RFC3339Nano (en_Blockchain en) b = Some true /\
    chainOf en' = chainOf en /\
    ebc_TxPool (en_Blockchain en') = pool' /\
    en_prePrepareReceived en' = <[blk_Hash b := announce]> (en_prePrepareReceived en).
Proof.
  intros Hval Hne Hk Htip.
  destruct (GetTopKTransactions_nonempty _ _ Hne Hk) as (txs & pool' & Htop & Htxs).
  exists txs, pool'. eexists. split; [exact Htop|]. split; [exact Htxs|].
  intros b announce endorse.
  assert (VerifyBlock sha256_hex json_Marshal format_RFC3339Nano (en_Blockchain en) b = Some true)
    as Hverify.
  { unfold b. rewrite VerifyBlock_NewEmergencyBlock by exact Htip. f_equal.
    apply R_eqb_true. reflexivity. }
  unfold ProposeEmergencyBlock. rewrite Hval. cbn [negb].
  assert ((Size (ebc_TxPool (en_Blockchain en)) =? 0)%Z = false) as ->.
  { apply Z.eqb_neq. unfold Size. destruct (transactions (ebc_TxPool (en_Blockchain en)));
      [contradiction|cbn [length]; lia]. }
  rewrite Htop.
  assert ((length txs =? 0)%nat = false) as ->.
  { apply Nat.eqb_neq. destruct txs; [contradiction|cbn [length]; lia]. }
  cbn [en_Blockchain withBlockchain]. unfold GetLatestBlock in *.
  cbn [ebc_Chain withTxPool]. rewrite Htip.
  cbn [en_ValidatorGroup withBlockchain en_ID]. fold b. fold announce.
  unfold handlePrePrepare. cbn [en_IsValidator withBlockchain negb en_Blockchain msg_Block].
  rewrite Hval. cbn [negb].
  assert (VerifyBlock sha256_hex json_Marshal format_RFC3339Nano
            (withTxPool (en_Blockchain en) pool') (msg_Block announce) = Some true) as ->
    by exact Hverify.
  split; [reflexivity|]. split; [exact Hverify|]. repeat split.
Qed.

End ProposalFacts.

(** The hypotheses of [ProposeEmergencyBlock_endorses] hold for a validator with one transaction in its pool and a new chain. *)
Lemma ProposeEmergencyBlock_endorses_witness :
  exists (txs : list (EmergencyTransaction R)) (pool' : TransactionPool R) (en' : EmergencyNode R),
    GetTopKTransactions (ebc_TxPool (en_Blockchain Proposer.node))
                        (ebc_BlockSize (en_Blockchain Proposer.node)) = Some (txs, pool') /\
    txs <> [] /\
    let b := NewEmergencyBlock (fun s => s) (fun _ _ prev root => String.append prev root)
               (fun _ => EmptyString)
               (GoInt.add (blk_Index (genesisBlock (F := R) 0)) 1)
               (blk_Hash (genesisBlock (F := R) 0)) txs
               (GetValidatorIDs (en_ValidatorGroup Proposer.node)) 1%Z in
    let announce := {| msg_Type := PrePrepare; msg_BlockHash := blk_Hash b; msg_Block := b;
                       msg_From := en_ID Proposer.node; msg_Timestamp := 1%Z |} in
    let endorse := {| msg_Type := Prepare; msg_BlockHash := blk_Hash b; msg_Block := b;
                      msg_From := en_ID Proposer.node; msg_Timestamp := 1%Z |} in
    ProposeEmergencyBlock (fun s => s) (fun _ _ prev root => String.append prev root)
                          (fun _ => EmptyString) Proposer.node (fun _ => 1%Z) =
      Some (en', BroadcastToValidators Proposer.node announce ++
                 BroadcastToValidators Proposer.node endorse) /\
    VerifyBlock (fun s => s) (fun _ _ prev root => String.append prev root)
                (fun _ => EmptyString) (en_Blockchain Proposer.node) b = Some true /\
    chainOf en' = chainOf Proposer.node /\
    ebc_TxPool (en_Blockchain en') = pool' /\
    en_prePrepareReceived en' =
      <[blk_Hash b := announce]> (en_prePrepareReceived Proposer.node).
Proof.
  apply (ProposeEmergencyBlock_endorses (fun s => s)
           (fun _ _ prev root => String.append prev root) (fun _ => EmptyString)
           Proposer.node (fun _ => 1%Z) (genesisBlock 0)).
  - reflexivity.
  - discriminate.
  - vm_compute. discriminate.
  - reflexivity.
Defined.

Section ProposalEdges.
Context {F : Type} {Fops : Float64 F}.
Variable sha256_hex : string -> string.
Variable json_Marshal : Z -> string -> string -> string -> string.
Variable format_RFC3339Nano : Time -> string.

Local Abbreviation ProposeEmergencyBlock :=
  (ProposeEmergencyBlock sha256_hex json_Marshal format_RFC3339Nano).

(** X28. When [ProposeEmergencyBlock] does nothing, and when it panics. A node
    that is not a validator, or whose pool is empty, returns at once. A
    validator with transactions in its pool panics on a negative block
    size; with a block size of 0 it sends nothing and keeps its pool and
    its chain; and with a positive block size and an empty chain it panics
    on the missing latest block. *)
Theorem ProposeEmergencyBlock_edges (en : EmergencyNode F) (clock : nat -> Time) :
  let pool := ebc_TxPool (en_Blockchain en) in
  let k := ebc_BlockSize (en_Blockchain en) in
  (en_IsValidator en = false \/ transactions pool = [] ->
   ProposeEmergencyBlock en clock = Some (en, [])) /\
  (en_IsValidator en = true -> transactions pool <> [] ->
   ((k < 0)%Z -> ProposeEmergencyBlock en clock = None) /\
   (k = 0%Z ->
    exists en' : EmergencyNode F,
      ProposeEmergencyBlock en clock = Some (en', []) /\
      transactions (ebc_TxPool (en_Blockchain en')) = transactions pool /\
      chainOf en' = chainOf en) /\
   ((1 <= k)%Z -> chainOf en = [] -> ProposeEmergencyBlock en clock = None)).
Proof.
  intros pool k. unfold emergency.ProposeEmergencyBlock. fold pool. fold k. split.
  - intros [Hval|Hempty].
    + rewrite Hval. reflexivity.
    + destruct (en_IsValidator en); [|reflexivity]. cbn [negb].
      unfold Size. rewrite Hempty. reflexivity.
  - intros Hval Hne. rewrite Hval. cbn [negb].
    assert ((Size pool =? 0)%Z = false) as ->.
    { apply Z.eqb_neq. unfold Size. destruct (transactions pool); [contradiction|].
      cbn [length]. lia. }
    split; [|split].
    + intros Hk.
      assert (GetTopKTransactions pool k = None) as ->; [|reflexivity].
      unfold GetTopKTransactions.
      destruct (Nat.eqb_spec (length (transactions pool)) 0) as [Hlen|_].
      * apply length_zero_iff_nil in Hlen. contradiction.
      * cbv zeta. destruct (k >? _)%Z eqn:Hgt; [apply Z.gtb_lt in Hgt; lia|].
        destruct (Z.ltb_spec k 0); [reflexivity|lia].
    + intros Hk.
      assert (exists pool' : TransactionPool F,
                GetTopKTransactions pool k = Some ([], pool') /\
                transactions pool' = transactions pool) as (pool' & -> & Hpool).
      { unfold GetTopKTransactions.
        destruct (Nat.eqb_spec (length (transactions pool)) 0) as [Hlen|_].
        - apply length_zero_iff_nil in Hlen. contradiction.
        - cbv zeta. rewrite Hk. destruct (0 >? _)%Z eqn:Hgt; [apply Z.gtb_lt in Hgt; lia|].
          cbn [Z.ltb Z.compare Z.to_nat firstn]. eexists. split; [reflexivity|].
          rewrite RemoveTransactions_filter. apply filter_keeps_all. }
      cbn [length Nat.eqb]. eexists. split; [reflexivity|]. split; [exact Hpool|reflexivity].
    + intros Hk Hchain.
      destruct (GetTopKTransactions_nonempty pool k Hne Hk) as (txs & pool' & -> & Htxs).
      assert ((length txs =? 0)%nat = false) as ->.
      { apply Nat.eqb_neq. destruct txs; [contradiction|cbn [length]; lia]. }
      cbn [en_Blockchain withBlockchain]. unfold GetLatestBlock. cbn [ebc_Chain withTxPool].
      unfold chainOf in Hchain. rewrite Hchain. reflexivity.
Qed.

End ProposalEdges.
